(** * Burn-severity pipeline: dNBR, threshold classification, area report

    A shallow embedding of [burn_classifier/local_analysis.py]:
    [calculate_dnbr], [classify_severity] and [calculate_area].

    - Pixels of continuous rasters are IEEE-754 binary32 values, those of
      classified rasters are 8-bit unsigned integers; Python floats are
      binary64.  Floats are [spec_float] with the operations of
      [SpecFloat] at precision 24 (exponent 128) and 53 (exponent 1024).
    - A NumPy array is its shape and its row-major data.
    - The file system is a finite map from paths to GeoTIFF datasets;
      the three functions are programs of a state-and-exception monad.
    - rasterio's warp functions are parameters of the area computation.
    - The messages the functions print are left out. *)

From Stdlib Require Import ZArith QArith Qabs Qpower Qfield Lqa Lia.
From Stdlib Require Import SpecFloat.
From stdpp Require Import gmap strings list fin_maps sorting.

Local Open Scope Z_scope.

(** ** IEEE-754 formats *)

Module binary32.
Definition prec : Z := 24.
Definition emax : Z := 128.
Definition sub := SFsub prec emax.
Definition max_float := SFmax_float prec emax.
(** Conversion of a binary64 value, rounding to nearest even. *)
Definition of_binary64 (x : spec_float) : spec_float :=
  match x with
  | S754_finite s m e => binary_round prec emax s m e
  | _ => x
  end.
End binary32.

Module binary64.
Definition prec : Z := 53.
Definition emax : Z := 1024.
Definition add := SFadd prec emax.
Definition sub := SFsub prec emax.
Definition mul := SFmul prec emax.
Definition div := SFdiv prec emax.
Definition of_Z (z : Z) : spec_float := binary_normalize prec emax z 0 false.
(** The Python literal whose decimal value is [n / d]: the binary64 value
    nearest to the quotient ([n] and [d] below [2^53]). *)
Definition literal (n : Z) (d : positive) : spec_float :=
  div (of_Z n) (of_Z (Zpos d)).
(** [rint]: the nearest integer, ties to even, the sign kept. *)
Definition rint (x : spec_float) : spec_float :=
  match x with
  | S754_finite s m e =>
      if 0 <=? e then x
      else
        let q := Zpos m / 2 ^ (- e) in
        let r := Zpos m mod 2 ^ (- e) in
        let n := match 2 * r ?= 2 ^ (- e) with
                 | Lt => q
                 | Gt => q + 1
                 | Eq => if Z.even q then q else q + 1
                 end in
        binary_normalize prec emax (cond_Zopp s n) 0 s
  | _ => x
  end.
(** [round(x, ndigits)] on a NumPy float64 scalar, [ndigits > 0]:
    multiply by the power of ten, [rint], divide. *)
Definition round (x : spec_float) (ndigits : Z) : spec_float :=
  div (rint (mul x (of_Z (10 ^ ndigits)))) (of_Z (10 ^ ndigits)).
End binary64.

Definition isnan (x : spec_float) : bool :=
  match x with S754_nan => true | _ => false end.

Definition isfinite (x : spec_float) : bool :=
  match x with S754_zero _ | S754_finite _ _ _ => true | _ => false end.

(** ** NumPy arrays and the operations the pipeline uses *)

Record ndarray (T : Type) := mk_ndarray { shape : nat * nat; data : list T }.
Arguments mk_ndarray {T} _ _.
Arguments shape {T} _.
Arguments data {T} _.

Module np.
Definition elementwise {A B} (f : A → B) (a : ndarray A) : ndarray B :=
  mk_ndarray (shape a) (f <$> data a).

(** A binary operation on two arrays of one shape. *)
Definition elementwise2 {A B C} (f : A → B → C) (a : ndarray A) (b : ndarray B)
    : ndarray C :=
  mk_ndarray (shape a) (zip_with f (data a) (data b)).

(** [np.nan_to_num(x, nan=...)] on float32: NaN becomes [nan], the
    infinities become the largest and the smallest finite value. *)
Definition nan_to_num1 (nan : spec_float) (x : spec_float) : spec_float :=
  match x with
  | S754_nan => nan
  | S754_infinity false => binary32.max_float
  | S754_infinity true => SFopp binary32.max_float
  | _ => x
  end.

Definition nan_to_num (a : ndarray spec_float) (nan : spec_float) :=
  elementwise (nan_to_num1 nan) a.

Definition subtract (a b : ndarray spec_float) : ndarray spec_float :=
  elementwise2 binary32.sub a b.

(** Comparison of a float32 array with a Python float: the scalar is
    converted to float32 and the comparison is IEEE's (false on NaN). *)
Definition less_equal (a : ndarray spec_float) (t : spec_float) :=
  elementwise (λ x, SFleb x (binary32.of_binary64 t)) a.

Definition greater (a : ndarray spec_float) (t : spec_float) :=
  elementwise (λ x, SFltb (binary32.of_binary64 t) x) a.

Definition logical_and (a b : ndarray bool) : ndarray bool :=
  elementwise2 andb a b.

(** [np.select(condlist, choicelist, default)]: the result starts as the
    default everywhere and the choices are copied in where their
    condition holds, the last condition first, so that the first
    condition that holds wins. *)
Definition select (condlist : list (ndarray bool)) (choicelist : list Z)
    (default : Z) : ndarray Z :=
  match condlist with
  | [] => mk_ndarray (0%nat, 0%nat) []
  | c0 :: _ =>
      foldr (λ cc result,
               elementwise2 (λ (c : bool) r, if c then cc.2 else r) cc.1 result)
            (elementwise (λ _, default) c0)
            (zip condlist choicelist)
  end.

Definition astype_uint8 (a : ndarray Z) : ndarray Z :=
  elementwise (λ z, z mod 256) a.

(** A float32 array cast to float32 is unchanged. *)
Definition astype_float32 (a : ndarray spec_float) : ndarray spec_float := a.

(** [np.unique(a, return_counts=True)]: the array is flattened and
    sorted, each run of equal values gives a value and its count. *)
Fixpoint run_lengths (l : list Z) : list (Z * nat) :=
  match l with
  | [] => []
  | x :: l' =>
      match run_lengths l' with
      | (y, n) :: r =>
          if decide (x = y) then (y, S n) :: r else (x, 1%nat) :: (y, n) :: r
      | [] => [(x, 1%nat)]
      end
  end.

Definition unique (a : ndarray Z) : list (Z * nat) :=
  run_lengths (merge_sort Z.le (data a)).
End np.

(** ** GeoTIFF datasets, the file system and the monad of the pipeline *)

Module Affine.
Record t (F : Type) := mk { a : F; b : F; c : F; d : F; e : F; f : F }.
Arguments mk {F} _ _ _ _ _ _.
Arguments a {F} _.
Arguments b {F} _.
Arguments c {F} _.
Arguments d {F} _.
Arguments e {F} _.
Arguments f {F} _.
End Affine.

Inductive dtype := float32 | uint8.

(** The entries of a rasterio profile that the pipeline reads or sets. *)
Record Profile := mk_profile {
  driver : string;
  dtype_of : dtype;
  nodata : option spec_float;
  width : nat;
  height : nat;
  count : nat;
  crs : string;
  transform : Affine.t spec_float;
  compress : option string
}.

(** [profile.update(dtype=..., count=..., compress=...)] *)
Definition profile_update (p : Profile) (dt : dtype) (n : nat) (cmp : string)
    : Profile :=
  {| driver := driver p; dtype_of := dt; nodata := nodata p;
     width := width p; height := height p; count := n; crs := crs p;
     transform := transform p; compress := Some cmp |}.

(** The samples of band 1, in row-major order. *)
Inductive samples :=
  | Float32Samples (l : list spec_float)
  | UInt8Samples (l : list Z).

Record GeoTiff := mk_tif { profile : Profile; band1 : samples }.

(** What [src.read(1)] returns: an array of shape (height, width). *)
Inductive band :=
  | Float32Band (a : ndarray spec_float)
  | UInt8Band (a : ndarray Z).

Definition read1 (src : GeoTiff) : band :=
  let sh := (height (profile src), width (profile src)) in
  match band1 src with
  | Float32Samples l => Float32Band (mk_ndarray sh l)
  | UInt8Samples l => UInt8Band (mk_ndarray sh l)
  end.

Definition band_shape (x : band) : nat * nat :=
  match x with Float32Band a => shape a | UInt8Band a => shape a end.

Inductive exn :=
  | RasterioIOError (msg : string)
  | CRSError (msg : string)
  | ValueError (msg : string).

(** The name of the exception's class. *)
Definition exn_class (e : exn) : string :=
  match e with
  | RasterioIOError _ => "RasterioIOError"
  | CRSError _ => "CRSError"
  | ValueError _ => "ValueError"
  end.

(** A call returns, raises, or leaves the model: the embedding covers
    float32 NBR and dNBR rasters and uint8 classified rasters, as the
    pipeline produces them. *)
Inductive outcome (A : Type) :=
  | Returns (x : A)
  | Raises (e : exn)
  | OutsideModel.
Arguments Returns {A} _.
Arguments Raises {A} _.
Arguments OutsideModel {A}.

Abbreviation FS := (gmap string GeoTiff).

Definition io (A : Type) : Type := FS → outcome A * FS.

#[global] Instance io_ret : MRet io := λ A x fs, (Returns x, fs).

#[global] Instance io_bind : MBind io := λ A B k m fs,
  match m fs with
  | (Returns x, fs') => k x fs'
  | (Raises e, fs') => (Raises e, fs')
  | (OutsideModel, fs') => (OutsideModel, fs')
  end.

Definition raise {A} (e : exn) : io A := λ fs, (Raises e, fs).

Definition outside_model {A} : io A := λ fs, (OutsideModel, fs).

Module rasterio.
(** [rasterio.open(path)]: the dataset, or an I/O error when there is none. *)
Definition open (path : string) : io GeoTiff := λ fs,
  match fs !! path with
  | Some src => (Returns src, fs)
  | None => (Raises (RasterioIOError path), fs)
  end.

(** [with rasterio.open(path, 'w', **profile) as dst: dst.write(a, 1)].
    rasterio refuses a profile whose nodata value its dtype cannot hold;
    that check is not part of the model, in which a write succeeds. *)
Definition write (path : string) (p : Profile) (s : samples) : io unit := λ fs,
  (Returns (), <[path := mk_tif p s]> fs).
End rasterio.

(** ** [calculate_dnbr] *)

(** Line 26. *)
Definition dnbr (pre_nbr post_nbr : ndarray spec_float) : ndarray spec_float :=
  np.subtract (np.nan_to_num pre_nbr (S754_zero false))
              (np.nan_to_num post_nbr (S754_zero false)).

Definition calculate_dnbr (pre_fire_path post_fire_path output_dnbr_path : string)
    : io string :=
  src_pre ← rasterio.open pre_fire_path;
  let pre_nbr := read1 src_pre in
  let profile := profile src_pre in
  src_post ← rasterio.open post_fire_path;
  let post_nbr := read1 src_post in
  if decide (band_shape pre_nbr ≠ band_shape post_nbr)
  then raise (ValueError "Image size mismatch.")
  else
    match pre_nbr, post_nbr with
    | Float32Band pre_nbr, Float32Band post_nbr =>
        let dnbr := dnbr pre_nbr post_nbr in
        let profile := profile_update profile float32 1 "lzw" in
        rasterio.write output_dnbr_path profile
          (Float32Samples (data (np.astype_float32 dnbr)));;
        mret output_dnbr_path
    | _, _ => outside_model
    end.

(** ** [classify_severity] *)

(** Lines 46-54. *)
Definition conditions (dnbr_array : ndarray spec_float) : list (ndarray bool) :=
  [ np.less_equal dnbr_array (SFopp (binary64.literal 251 1000));
    np.logical_and (np.greater dnbr_array (SFopp (binary64.literal 251 1000)))
                   (np.less_equal dnbr_array (SFopp (binary64.literal 101 1000)));
    np.logical_and (np.greater dnbr_array (SFopp (binary64.literal 101 1000)))
                   (np.less_equal dnbr_array (binary64.literal 100 1000));
    np.logical_and (np.greater dnbr_array (binary64.literal 100 1000))
                   (np.less_equal dnbr_array (binary64.literal 270 1000));
    np.logical_and (np.greater dnbr_array (binary64.literal 270 1000))
                   (np.less_equal dnbr_array (binary64.literal 440 1000));
    np.logical_and (np.greater dnbr_array (binary64.literal 440 1000))
                   (np.less_equal dnbr_array (binary64.literal 660 1000));
    np.greater dnbr_array (binary64.literal 660 1000) ].

Definition classes : list Z := [1; 2; 3; 4; 5; 6; 7].

(** Line 57. *)
Definition classified_array (dnbr_array : ndarray spec_float) : ndarray Z :=
  np.astype_uint8 (np.select (conditions dnbr_array) classes 0).

Definition classify_severity (dnbr_tif_path output_classified_path : string)
    : io string :=
  src ← rasterio.open dnbr_tif_path;
  let profile := profile src in
  match read1 src with
  | Float32Band dnbr_array =>
      let classified_array := classified_array dnbr_array in
      let profile := profile_update profile uint8 1 "lzw" in
      rasterio.write output_classified_path profile
        (UInt8Samples (data classified_array));;
      mret output_classified_path
  | _ => outside_model
  end.

(** ** [calculate_area] *)

(** The arithmetic of Python floats that [calculate_area] uses. *)
Class PyFloat (F : Type) := {
  of_int : Z → F;
  fadd : F → F → F;
  fmul : F → F → F;
  fdiv : F → F → F;
  fabs : F → F;
  round : F → Z → F
}.

(** The arithmetic the interpreter runs: binary64. *)
#[global] Instance binary64_float : PyFloat spec_float := {|
  of_int := binary64.of_Z;
  fadd := binary64.add;
  fmul := binary64.mul;
  fdiv := binary64.div;
  fabs := SFabs;
  round := binary64.round
|}.

Record area_entry (F : Type) := mk_entry {
  class_id : option Z;
  area_hectares : F
}.
Arguments mk_entry {F} _ _.
Arguments class_id {F} _.
Arguments area_hectares {F} _.

Definition class_labels : gmap Z string :=
  list_to_map
    [ (1, "Enhanced Regrowth, High");
      (2, "Enhanced Regrowth, Moderate");
      (3, "Unburned");
      (4, "Low-Severity Burn");
      (5, "Moderate-Severity Burn");
      (6, "High-Severity Burn");
      (7, "Extreme-Severity Burn") ]%string.

Inductive Resampling := nearest | bilinear | cubic.

Record BoundingBox := mk_bounds {
  left : spec_float; bottom : spec_float; right : spec_float; top : spec_float
}.

Section calculate_area.
Context {F : Type} {arith : PyFloat F}.

(** Lines 116-124: one round of the loop over the classes found. *)
Definition area_step (pixel_area_m2 : F)
    (st : gmap string (area_entry F) * F) (vc : Z * nat)
    : gmap string (area_entry F) * F :=
  let '(area_stats, total_area_m2) := st in
  let '(value, count) := vc in
  match class_labels !! value with
  | Some label =>
      let area_m2 := fmul (of_int (Z.of_nat count)) pixel_area_m2 in
      (<[label := mk_entry (Some value)
                    (round (fdiv area_m2 (of_int 10000)) 2)]> area_stats,
       fadd total_area_m2 area_m2)
  | None => (area_stats, total_area_m2)
  end.

(** Lines 111-126. *)
Definition area_stats (classified_array : ndarray Z) (pixel_area_m2 : F)
    : gmap string (area_entry F) :=
  let '(area_stats, total_area_m2) :=
    foldl (area_step pixel_area_m2) (∅, of_int 0) (np.unique classified_array) in
  <["Total_Analyzed_Area" :=
      mk_entry None (round (fdiv total_area_m2 (of_int 10000)) 2)]> area_stats.

(** rasterio's dataset bounds and warp functions.  Both warp calls can
    raise.  The array that [reproject] fills and the [kwargs] of lines
    88-94 are not read afterwards. *)
Variable bounds : Profile → BoundingBox.
Variable calculate_default_transform :
  string → string → nat → nat → BoundingBox → exn + (Affine.t F * nat * nat).
Variable reproject :
  ndarray Z → nat * nat → Affine.t spec_float → string →
  Affine.t F → string → Resampling → exn + ndarray Z.

Definition calculate_area (classified_tif_path : string)
    : io (gmap string (area_entry F)) :=
  src ← rasterio.open classified_tif_path;
  match read1 src with
  | UInt8Band classified_array =>
      match calculate_default_transform (crs (profile src)) "EPSG:3857"
              (width (profile src)) (height (profile src))
              (bounds (profile src)) with
      | inl err => raise err
      | inr (transform', width', height') =>
          match reproject classified_array (height', width')
                  (transform (profile src)) (crs (profile src))
                  transform' "EPSG:3857" nearest with
          | inl err => raise err
          | inr reprojected_array =>
              let pixel_size_x := Affine.a transform' in
              let pixel_size_y := fabs (Affine.e transform') in
              let pixel_area_m2 := fmul pixel_size_x pixel_size_y in
              mret (area_stats classified_array pixel_area_m2)
          end
      end
  | _ => outside_model
  end.
End calculate_area.

(** ** Reading aids for the statements below *)

(** The six cut points as the comparisons see them: float32 values. *)
Definition cut_m0251 := binary32.of_binary64 (SFopp (binary64.literal 251 1000)).
Definition cut_m0101 := binary32.of_binary64 (SFopp (binary64.literal 101 1000)).
Definition cut_0100 := binary32.of_binary64 (binary64.literal 100 1000).
Definition cut_0270 := binary32.of_binary64 (binary64.literal 270 1000).
Definition cut_0440 := binary32.of_binary64 (binary64.literal 440 1000).
Definition cut_0660 := binary32.of_binary64 (binary64.literal 660 1000).

(** [x <= y] and [x < y] on floats, as NumPy evaluates them. *)
Definition fle (x y : spec_float) : Prop := SFleb x y = true.
Definition flt (x y : spec_float) : Prop := SFltb x y = true.

(** What line 57 computes at one pixel. *)
Definition class_of (v : spec_float) : Z :=
  (if SFleb v cut_m0251 then 1
   else if SFltb cut_m0251 v && SFleb v cut_m0101 then 2
   else if SFltb cut_m0101 v && SFleb v cut_0100 then 3
   else if SFltb cut_0100 v && SFleb v cut_0270 then 4
   else if SFltb cut_0270 v && SFleb v cut_0440 then 5
   else if SFltb cut_0440 v && SFleb v cut_0660 then 6
   else if SFltb cut_0660 v then 7
   else 0) mod 256.

(** Floats without NaN are ordered like these triples, lexicographically. *)
Definition SFkey (x : spec_float) : Z * Z * Z :=
  match x with
  | S754_infinity true => (-2, 0, 0)
  | S754_finite true m e => (-1, - e, Zneg m)
  | S754_zero _ => (0, 0, 0)
  | S754_finite false m e => (1, e, Zpos m)
  | S754_infinity false => (2, 0, 0)
  | S754_nan => (3, 0, 0)
  end.

Definition lex_lt (p q : Z * Z * Z) : Prop :=
  p.1.1 < q.1.1 ∨ (p.1.1 = q.1.1 ∧ (p.1.2 < q.1.2 ∨ (p.1.2 = q.1.2 ∧ p.2 < q.2))).

Definition lex_le (p q : Z * Z * Z) : Prop := lex_lt p q ∨ p = q.

Definition samples_length (s : samples) : nat :=
  match s with
  | Float32Samples l => length l
  | UInt8Samples l => length l
  end.

(** A dataset holds height * width samples. *)
Definition well_formed (src : GeoTiff) : Prop :=
  samples_length (band1 src) = (height (profile src) * width (profile src))%nat.

(** ** Sample rasters *)

Definition zero : spec_float := S754_zero false.

(** A north-up geotransform with square pixels of the given size. *)
Definition north_up (pixel : spec_float) : Affine.t spec_float :=
  Affine.mk pixel zero zero zero (SFopp pixel) zero.

Definition sample_profile (dt : dtype) (w h : nat) : Profile :=
  mk_profile "GTiff" dt None w h 1 "EPSG:32611"
    (north_up (binary64.of_Z 10)) None.

(** Constant NBR rasters, as in the scenarios of the specification. *)
Definition constant_nbr (w h : nat) (v : spec_float) : GeoTiff :=
  mk_tif (sample_profile float32 w h) (Float32Samples (replicate (h * w) v)).

Definition half : spec_float := binary32.of_binary64 (binary64.literal 5 10).

(** A 100 x 100 pre-fire raster and a 50 x 50 post-fire raster. *)
Definition fs_mismatch : FS :=
  {[ "pre_nbr.tif" := constant_nbr 100 100 half;
     "post_nbr.tif" := constant_nbr 50 50 half ]}.

(** Two 2 x 2 rasters that hold no data at all. *)
Definition fs_nodata : FS :=
  {[ "pre_nbr.tif" := constant_nbr 2 2 S754_nan;
     "post_nbr.tif" := constant_nbr 2 2 S754_nan ]}.

(** A dNBR raster with a NaN pixel. *)
Definition fs_dnbr : FS :=
  {[ "dnbr.tif" :=
       mk_tif (sample_profile float32 3 1)
         (Float32Samples [S754_nan; zero; cut_0660]) ]}.

(** The number of pixels that hold the value [v]. *)
Definition count_of (v : Z) (l : list Z) : nat :=
  length (filter (λ x, x = v) l).

(** The order of the pairs of [np.unique]: by value. *)
Definition by_value (p q : Z * nat) : Prop := p.1 < q.1.

(** ** The area report in closed form *)

Section area_report.
Context {F : Type} {arith : PyFloat F}.

(** The entry of class [k] when [c] pixels hold it (lines 119-123). *)
Definition class_entry (pixel_area_m2 : F) (k : Z) (c : nat) : area_entry F :=
  mk_entry (Some k)
    (round (fdiv (fmul (of_int (Z.of_nat c)) pixel_area_m2) (of_int 10000)) 2).

(** The square metres summed by the loop: the classes 1 to 7 that occur,
    in ascending order. *)
Definition total_area_m2 (pixels : list Z) (pixel_area_m2 : F) : F :=
  foldl (λ acc k,
           if decide (count_of k pixels = 0%nat) then acc
           else fadd acc (fmul (of_int (Z.of_nat (count_of k pixels)))
                               pixel_area_m2))
        (of_int 0) [1; 2; 3; 4; 5; 6; 7].

(** The per-class [area_hectares] values that a report holds. *)
Definition class_areas (report : gmap string (area_entry F)) : list F :=
  omap (λ k : Z, label ← class_labels !! k;
                 area_hectares <$> report !! label)
       [1; 2; 3; 4; 5; 6; 7].

(** Python's [sum]: from 0, left to right. *)
Definition fsum (l : list F) : F := foldl fadd (of_int 0) l.
End area_report.

(** [abs(x - y) <= tol] on binary64. *)
Definition within (tol x y : spec_float) : bool :=
  SFleb (SFabs (binary64.sub x y)) tol.

(** ** Stand-ins for rasterio's warp functions in the examples

    A reprojection that keeps the grid and reports square pixels of a
    given size in metres. *)

Definition sample_bounds (p : Profile) : BoundingBox :=
  let t := transform p in
  mk_bounds (Affine.c t)
    (binary64.add (Affine.f t)
       (binary64.mul (Affine.e t) (binary64.of_Z (Z.of_nat (height p)))))
    (binary64.add (Affine.c t)
       (binary64.mul (Affine.a t) (binary64.of_Z (Z.of_nat (width p)))))
    (Affine.f t).

Definition sample_default_transform (pixel : spec_float)
    (src_crs dst_crs : string) (w h : nat) (b : BoundingBox)
    : exn + (Affine.t spec_float * nat * nat) :=
  inr (Affine.mk pixel zero (left b) zero (SFopp pixel) (top b), w, h).

Definition sample_reproject (source : ndarray Z) (dst_shape : nat * nat)
    (src_transform : Affine.t spec_float) (src_crs : string)
    (dst_transform : Affine.t spec_float) (dst_crs : string)
    (resampling : Resampling) : exn + ndarray Z :=
  inr (mk_ndarray dst_shape (data source)).

(** [calculate_area] as the interpreter runs it, on pixels of [m] metres. *)
Definition calculate_area_on (m : Z) : string → io (gmap string (area_entry spec_float)) :=
  calculate_area (arith := binary64_float) sample_bounds
    (sample_default_transform (binary64.of_Z m)) sample_reproject.

Definition classified (w h : nat) (pixels : list Z) : GeoTiff :=
  mk_tif (sample_profile uint8 w h) (UInt8Samples pixels).

(** Scenario 1 after classification: 100 x 100 pixels of class 3. *)
Definition fs_unburned : FS :=
  {[ "classified.tif" := classified 100 100 (replicate (100 * 100) 3) ]}.

(** Five pixels of 6 m, one of each of the classes 1 to 5. *)
Definition fs_five_classes : FS :=
  {[ "classified.tif" := classified 5 1 [1; 2; 3; 4; 5] ]}.

(** Unclassified pixels next to classes 3 and 7. *)
Definition fs_mixed : FS :=
  {[ "classified.tif" := classified 3 2 [0; 3; 7; 7; 0; 3] ]}.


(** ** The pipeline as the test fixture runs it *)

Definition pipeline (m : Z) (pre_fire_path post_fire_path : string)
    : io (gmap string (area_entry spec_float)) :=
  dnbr_output_path ← calculate_dnbr pre_fire_path post_fire_path
                        "test_dnbr_output.tif";
  classified_output_path ← classify_severity dnbr_output_path
                              "test_classified_output.tif";
  calculate_area_on m classified_output_path.

(** Scenario 1 of the specification: both rasters 0.5 everywhere,
    100 x 100 pixels of 10 m. *)
Definition fs_scenario_1 : FS :=
  {[ "pre_nbr.tif" := constant_nbr 100 100 half;
     "post_nbr.tif" := constant_nbr 100 100 half ]}.

(** Scenario 2: pre-fire 0.8, post-fire 0.1, 50 x 50 pixels of 10 m. *)
Definition fs_scenario_2 : FS :=
  {[ "pre_nbr.tif" :=
       constant_nbr 50 50 (binary32.of_binary64 (binary64.literal 8 10));
     "post_nbr.tif" :=
       constant_nbr 50 50 (binary32.of_binary64 (binary64.literal 1 10)) ]}.

(** ** The whole analysis, as the tests call it

    [test_analysis.py] runs [calculate_dnbr], hands its path to
    [classify_severity] and that one's path to [calculate_area]. *)

Section analysis.
Context {F : Type} {arith : PyFloat F}.
Variable bounds : Profile → BoundingBox.
Variable calculate_default_transform :
  string → string → nat → nat → BoundingBox → exn + (Affine.t F * nat * nat).
Variable reproject :
  ndarray Z → nat * nat → Affine.t spec_float → string →
  Affine.t F → string → Resampling → exn + ndarray Z.

Definition analysis (PRE_TIF POST_TIF OUTPUT_DNBR OUTPUT_CLASSIFIED : string)
    : io (gmap string (area_entry F)) :=
  dnbr_output_path ← calculate_dnbr PRE_TIF POST_TIF OUTPUT_DNBR;
  classified_output_path ← classify_severity dnbr_output_path OUTPUT_CLASSIFIED;
  calculate_area bounds calculate_default_transform reproject
    classified_output_path.
End analysis.

(** ** The fixture [setup_files] of [test_analysis.py] *)

Definition os_path_exists (path : string) (fs : FS) : bool :=
  bool_decide (is_Some (fs !! path)).

Definition os_remove (path : string) (fs : FS) : FS := delete path fs.

(** How the set-up part of the fixture ends. *)
Inductive setup_result :=
  | Yields (dnbr_path classified_path : string)
  | AssertionFails
  | SetupRaises (e : exn)
  | SetupOutsideModel.

Section fixture.
Variables PRE_TIF POST_TIF OUTPUT_DNBR OUTPUT_CLASSIFIED : string.

(** Lines 29-47: up to the [yield]. *)
Definition setup_files (fs : FS) : setup_result * FS :=
  if negb (os_path_exists PRE_TIF fs) then (AssertionFails, fs)
  else if negb (os_path_exists POST_TIF fs) then (AssertionFails, fs)
  else
    match calculate_dnbr PRE_TIF POST_TIF OUTPUT_DNBR fs with
    | (Raises e, fs1) => (SetupRaises e, fs1)
    | (OutsideModel, fs1) => (SetupOutsideModel, fs1)
    | (Returns dnbr_output_path, fs1) =>
        match classify_severity dnbr_output_path OUTPUT_CLASSIFIED fs1 with
        | (Raises e, fs2) => (SetupRaises e, fs2)
        | (OutsideModel, fs2) => (SetupOutsideModel, fs2)
        | (Returns classified_output_path, fs2) =>
            if negb (os_path_exists OUTPUT_DNBR fs2) then (AssertionFails, fs2)
            else if negb (os_path_exists OUTPUT_CLASSIFIED fs2)
                 then (AssertionFails, fs2)
                 else (Yields dnbr_output_path classified_output_path, fs2)
        end
    end.

(** Lines 49-57: the clean-up after the tests; [false] when one of its two
    closing assertions fails. *)
Definition cleanup (fs : FS) : bool * FS :=
  let fs1 := if os_path_exists OUTPUT_DNBR fs
             then os_remove OUTPUT_DNBR fs else fs in
  let fs2 := if os_path_exists OUTPUT_CLASSIFIED fs1
             then os_remove OUTPUT_CLASSIFIED fs1 else fs1 in
  (negb (os_path_exists OUTPUT_DNBR fs2)
   && negb (os_path_exists OUTPUT_CLASSIFIED fs2), fs2).
End fixture.

(** ** [gee_interface._maskS2clouds], at one pixel

    A pixel of a Sentinel-2 image: the QA60 band, the other bands and
    whether the pixel is unmasked.  Earth Engine's [divide] on a band value
    is a parameter. *)

Record s2_pixel (V : Type) := mk_s2 {
  QA60 : V;
  bands : list V;
  unmasked : bool
}.
Arguments mk_s2 {V} _ _ _.
Arguments QA60 {V} _.
Arguments bands {V} _.
Arguments unmasked {V} _.

Module ee.
(** [a.bitwiseAnd(b)], [a.eq(b)] and [a.And(b)] on integer pixel values. *)
Definition bitwiseAnd (a b : Z) : Z := Z.land a b.
Definition eq (a b : Z) : Z := if a =? b then 1 else 0.
Definition And (a b : Z) : Z := if (a =? 0) || (b =? 0) then 0 else 1.
(** [image.updateMask(mask)]: a pixel stays unmasked where it was and the
    mask is not zero. *)
Definition updateMask {V} (image : s2_pixel V) (mask : Z) : s2_pixel V :=
  mk_s2 (QA60 image) (bands image) (unmasked image && negb (mask =? 0)).
End ee.

Section maskS2clouds.
Context {V : Type}.
Variable divide : Z → Z → V.

Definition _maskS2clouds (image : s2_pixel Z) : s2_pixel V :=
  let qa := QA60 image in
  let cloudBitMask := Z.shiftl 1 10 in
  let cirrusBitMask := Z.shiftl 1 11 in
  let mask := ee.And (ee.eq (ee.bitwiseAnd qa cloudBitMask) 0)
                     (ee.eq (ee.bitwiseAnd qa cirrusBitMask) 0) in
  let masked := ee.updateMask image mask in
  mk_s2 (divide (QA60 masked) 10000)
        ((λ v, divide v 10000) <$> bands masked)
        (unmasked masked).
End maskS2clouds.

(** ** Reading aids for the further properties *)

(** Every path but [path] holds in [fs'] what it holds in [fs]. *)
Definition unchanged_except (path : string) (fs fs' : FS) : Prop :=
  ∀ q, q ≠ path → fs' !! q = fs !! q.

(** The values that [class_labels] knows. *)
Definition is_class (v : Z) : Prop := 1 ≤ v ≤ 7.

#[global] Instance is_class_dec (v : Z) : Decision (is_class v) :=
  and_dec (decide (1 ≤ v)) (decide (v ≤ 7)).

(** Two NaN rasters with different georeferencing, for the examples. *)
Definition other_profile (w h : nat) : Profile :=
  mk_profile "GTiff" float32 (Some (binary64.of_Z (-9999))) w h 3 "EPSG:4326"
    (north_up (binary64.of_Z 30)) (Some "deflate"%string).

Definition fs_two_grids : FS :=
  {[ "pre_nbr.tif" :=
       mk_tif (sample_profile float32 2 1)
         (Float32Samples [half; S754_infinity false]);
     "post_nbr.tif" :=
       mk_tif (other_profile 2 1)
         (Float32Samples [S754_nan; S754_infinity true]) ]}.

(** ** The value of a float, and the size of rounding errors

    The error bounds on the area report are stated on the rationals that
    the returned binary64 values hold. *)

(** [2^e] as a rational. *)
Definition pow2 (e : Z) : Q := (2 ^ e)%Q.

(** The rational that a finite float holds, and 0 for the others. *)
Definition SF2Q (x : spec_float) : Q :=
  match x with
  | S754_finite s m e =>
      ((if s then -1 else 1) * (inject_Z (Zpos m) * pow2 e))%Q
  | _ => 0%Q
  end.

(** A zero or a positive finite float: no NaN, no infinity. *)
Definition nonneg_finite (x : spec_float) : bool :=
  match x with
  | S754_zero _ | S754_finite false _ _ => true
  | _ => false
  end.

(** [x] lies between the mantissa [m] and its successor at exponent [e]. *)
Definition bracket (m e : Z) (x : Q) : Prop :=
  (inject_Z m * pow2 e <= x ∧ x <= (inject_Z m + 1) * pow2 e)%Q.

Section rounding_unit.
Variables prec emax : Z.

(** The spacing of the format at [x], at most. *)
Definition unit_at (x : Q) : Q :=
  (pow2 (emin prec emax) + pow2 (1 - prec) * x)%Q.

(** The bound on the error of one rounding that the proofs below use:
    four units. *)
Definition round_err (x : Q) : Q := (4 * unit_at x)%Q.
End rounding_unit.

(** The error of one binary64 operation whose exact result is [x]:
    [2^-60 + 2^-50 * x]. *)
Definition fl_err (x : Q) : Q :=
  ((1 # 1152921504606846976) + (1 # 1125899906842624) * x)%Q.

(** Exact results up to [2^64] do not overflow. *)
Definition fl_max : Q := 18446744073709551616 # 1.

(** The exact sum of rationals. *)
Definition Qsum (l : list Q) : Q := foldr Qplus 0%Q l.

(** The square metres of [c] pixels (line 119), in binary64. *)
Definition area_m2_of (pixel_area_m2 : spec_float) (c : nat) : spec_float :=
  binary64.mul (binary64.of_Z (Z.of_nat c)) pixel_area_m2.

(** The hectares of an area in square metres (lines 122 and 126). *)
Definition hectares (area_m2 : spec_float) : spec_float :=
  binary64.round (binary64.div area_m2 (binary64.of_Z 10000)) 2.

(** The counts of the classes 1 to 7 that occur, in ascending order of
    the class. *)
Definition class_counts (pixels : list Z) : list nat :=
  omap (λ k, if decide (count_of k pixels = 0%nat) then None
             else Some (count_of k pixels))
       [1; 2; 3; 4; 5; 6; 7].

(** ** Rasters whose metadata declares a no-data value *)

Definition nodata_profile (nd : Z) (w h : nat) : Profile :=
  mk_profile "GTiff" float32 (Some (binary64.of_Z nd)) w h 1 "EPSG:32611"
    (north_up (binary64.of_Z 10)) None.

(** An integer as a float32 pixel. *)
Definition float32_of_Z (z : Z) : spec_float :=
  binary32.of_binary64 (binary64.of_Z z).

(** Two 2 x 1 rasters with the no-data value -9999: a no-data pixel over
    0.27, and 0.44 over a no-data pixel. *)
Definition fs_sentinel : FS :=
  {[ "pre_nbr.tif" :=
       mk_tif (nodata_profile (-9999) 2 1)
         (Float32Samples [float32_of_Z (-9999); cut_0440]);
     "post_nbr.tif" :=
       mk_tif (nodata_profile (-9999) 2 1)
         (Float32Samples [cut_0270; float32_of_Z (-9999)]) ]}.

(** Two 2 x 2 rasters that hold nothing but their no-data values, -9999
    and -32768. *)
Definition fs_all_sentinel : FS :=
  {[ "pre_nbr.tif" :=
       mk_tif (nodata_profile (-9999) 2 2)
         (Float32Samples (replicate 4 (float32_of_Z (-9999))));
     "post_nbr.tif" :=
       mk_tif (nodata_profile (-32768) 2 2)
         (Float32Samples (replicate 4 (float32_of_Z (-32768)))) ]}.

(** 222 pixels of 5 m: 34, 50, 58, 42, 34, 2 and 2 of the classes 1 to 7. *)
Definition pixels_222 : list Z :=
  replicate 34 1 ++ replicate 50 2 ++ replicate 58 3 ++ replicate 42 4
  ++ replicate 34 5 ++ replicate 2 6 ++ replicate 2 7.

Definition fs_222 : FS :=
  {[ "classified.tif" := classified 222 1 pixels_222 ]}.

(** * Rounding errors of the binary64 operations

    [SF2Q] of the result of an operation on finite, non-negative floats
    against its exact result: a bound of four units of the format, which
    is enough for the error bounds on the area report. *)


Section pow2_facts.
Local Open Scope Q_scope.

Lemma pow2_pos e : 0 < pow2 e.
Proof. apply Qpower_0_lt. reflexivity. Qed.

Lemma pow2_add a b : pow2 (a + b) == pow2 a * pow2 b.
Proof. apply Qpower_plus. discriminate. Qed.

Lemma pow2_succ a : pow2 (a + 1) == 2 * pow2 a.
Proof. rewrite pow2_add. change (pow2 1) with 2. ring. Qed.

Lemma pow2_le a b : (a <= b)%Z → pow2 a <= pow2 b.
Proof. intros H. apply Qpower_le_compat_l; [exact H|discriminate]. Qed.

Lemma pow2_lt_inv a b : pow2 a < pow2 b → (a < b)%Z.
Proof. intros H. apply (Qpower_lt_compat_l_inv 2); [exact H|reflexivity]. Qed.

Lemma pow2_Z n : (0 <= n)%Z → pow2 n == inject_Z (2 ^ n).
Proof. intros H. unfold pow2. now rewrite Zpower_Qpower. Qed.

Lemma inject_Z_le_pow2 m n :
  (0 <= n)%Z → (m <= 2 ^ n)%Z → inject_Z m <= pow2 n.
Proof. intros Hn H. rewrite pow2_Z by exact Hn. now rewrite <- Zle_Qle. Qed.

Lemma pow2_le_inject_Z m n :
  (0 <= n)%Z → (2 ^ n <= m)%Z → pow2 n <= inject_Z m.
Proof. intros Hn H. rewrite pow2_Z by exact Hn. now rewrite <- Zle_Qle. Qed.
End pow2_facts.

Lemma digits2_pos_size m : digits2_pos m = Pos.size m.
Proof. induction m as [m IH|m IH|]; cbn; now rewrite ?IH. Qed.

Lemma digits2_pos_lower m : 2 ^ (Zpos (digits2_pos m) - 1) <= Zpos m.
Proof.
  rewrite digits2_pos_size.
  pose proof (Pos.size_le m) as H.
  assert (Hp : (2 ^ Zpos (Pos.size m) <= 2 * Zpos m)).
  { change (2 * Zpos m) with (Zpos m~0). rewrite <- Pos2Z.inj_pow.
    now apply Pos2Z.pos_le_pos. }
  replace (Zpos (Pos.size m)) with (Zpos (Pos.size m) - 1 + 1) in Hp by lia.
  rewrite Z.pow_add_r in Hp by lia. lia.
Qed.

Lemma digits2_pos_upper m : Zpos m < 2 ^ Zpos (digits2_pos m).
Proof.
  rewrite digits2_pos_size. rewrite <- Pos2Z.inj_pow.
  apply Pos2Z.pos_lt_pos, Pos.size_gt.
Qed.

Section round_bounds.
Variables prec emax : Z.
Hypothesis Hprec : 1 < prec.
Local Open Scope Q_scope.

Local Abbreviation emin := (emin prec emax).
Local Abbreviation fexp := (fexp prec emax).

Lemma shr_1_bracket mrs e x :
  (0 <= shr_m mrs)%Z → bracket (shr_m mrs) e x →
  (0 <= shr_m (shr_1 mrs))%Z ∧ bracket (shr_m (shr_1 mrs)) (e + 1) x.
Proof.
  destruct mrs as [m r s]. unfold bracket. cbn [shr_m]. intros Hm [H1 H2].
  rewrite pow2_succ. pose proof (pow2_pos e) as Hp.
  destruct m as [|[p|p|]|p]; cbn [shr_1 shr_m]; try lia.
  - split; [lia|]. change (inject_Z 0) with 0 in *. split; lra.
  - split; [lia|]. rewrite (Pos2Z.inj_xI p), inject_Z_plus, inject_Z_mult in H1, H2.
    change (inject_Z 2) with 2 in *. change (inject_Z 1) with 1 in *.
    split; lra.
  - split; [lia|]. rewrite (Pos2Z.inj_xO p), inject_Z_mult in H1, H2.
    change (inject_Z 2) with 2 in *. split; lra.
  - split; [lia|]. change (inject_Z 1) with 1 in *. change (inject_Z 0) with 0.
    split; lra.
Qed.

Lemma iter_shr_1_bracket p mrs e x :
  (0 <= shr_m mrs)%Z → bracket (shr_m mrs) e x →
  (0 <= shr_m (SpecFloat.iter_pos shr_1 p mrs))%Z ∧
  bracket (shr_m (SpecFloat.iter_pos shr_1 p mrs)) (e + Zpos p) x.
Proof.
  revert mrs e. induction p as [p IH|p IH|]; intros mrs e Hm B;
    cbn [SpecFloat.iter_pos].
  - destruct (shr_1_bracket mrs e x Hm B) as [H1 B1].
    destruct (IH _ _ H1 B1) as [H2 B2]. destruct (IH _ _ H2 B2) as [H3 B3].
    split; [exact H3|]. now replace (e + Zpos p~1)%Z with (e + 1 + Zpos p + Zpos p)%Z by lia.
  - destruct (IH _ _ Hm B) as [H2 B2]. destruct (IH _ _ H2 B2) as [H3 B3].
    split; [exact H3|]. now replace (e + Zpos p~0)%Z with (e + Zpos p + Zpos p)%Z by lia.
  - now apply shr_1_bracket.
Qed.

Lemma shr_m_of_loc m l : shr_m (shr_record_of_loc m l) = m.
Proof. now destruct l as [|[]]. Qed.

Lemma shr_fexp_bracket m e l x :
  (0 <= m)%Z → bracket m e x →
  (0 <= shr_m (shr_fexp prec emax m e l).1)%Z ∧
  bracket (shr_m (shr_fexp prec emax m e l).1) (shr_fexp prec emax m e l).2 x ∧
  (shr_fexp prec emax m e l = (shr_record_of_loc m l, e)
   ∨ (e < (shr_fexp prec emax m e l).2)%Z ∧
     (shr_fexp prec emax m e l).2 = fexp (Zdigits2 m + e)).
Proof.
  intros Hm B. unfold shr_fexp, shr.
  destruct (fexp (Zdigits2 m + e) - e)%Z as [|p|p] eqn:E; cbn [fst snd].
  - rewrite shr_m_of_loc. auto.
  - destruct (iter_shr_1_bracket p (shr_record_of_loc m l) e x) as [H1 B1];
      rewrite ?shr_m_of_loc; auto.
    split; [exact H1|]. split; [exact B1|]. right. lia.
  - rewrite shr_m_of_loc. auto.
Qed.

Lemma round_nearest_even_range m l :
  (m <= round_nearest_even m l <= m + 1)%Z.
Proof. destruct l as [|[]]; cbn; try destruct (Z.even m); lia. Qed.

Lemma fexp_unit m e x :
  (0 <= m)%Z → bracket m e x → (e < fexp (Zdigits2 m + e))%Z →
  pow2 (fexp (Zdigits2 m + e)) <= unit_at prec emax x.
Proof.
  intros Hm [B1 B2] He. unfold unit_at.
  pose proof (pow2_pos emin) as P1. pose proof (pow2_pos (1 - prec)) as P2.
  pose proof (pow2_pos e) as P3.
  assert (Hx : 0 <= x).
  { apply Qle_trans with (2 := B1). apply Qmult_le_0_compat; [|lra].
    change 0 with (inject_Z 0). now rewrite <- Zle_Qle. }
  assert (Hpx : 0 <= pow2 (1 - prec) * x) by (apply Qmult_le_0_compat; lra).
  unfold SpecFloat.fexp in *.
  destruct (Z.max_spec (Zdigits2 m + e - prec) emin) as [[Hlt ->]|[Hge ->]];
    [lra|].
  destruct m as [|p|p]; [cbn in He, Hge; lia| |lia].
  cbn [Zdigits2] in *.
  replace (Zpos (digits2_pos p) + e - prec)%Z
    with ((1 - prec) + ((Zpos (digits2_pos p) - 1) + e))%Z by lia.
  rewrite pow2_add. apply Qle_trans with (pow2 (1 - prec) * x); [|lra].
  rewrite Qmult_le_l by exact P2.
  apply Qle_trans with (2 := B1). rewrite pow2_add.
  apply Qmult_le_compat_r; [|lra].
  apply pow2_le_inject_Z; [lia|apply digits2_pos_lower].
Qed.

Lemma bracket_round m m1 e x :
  bracket m e x → (m <= m1 <= m + 1)%Z →
  inject_Z m1 * pow2 e - x <= pow2 e ∧ x - inject_Z m1 * pow2 e <= pow2 e.
Proof.
  intros [B1 B2] [R1 R2]. pose proof (pow2_pos e) as P.
  rewrite Zle_Qle in R1, R2. rewrite inject_Z_plus in R2.
  change (inject_Z 1) with 1 in R2.
  apply (Qmult_le_compat_r _ _ (pow2 e)) in R1, R2; try lra.
Qed.

Lemma bracket_self m e : bracket m e (inject_Z m * pow2 e).
Proof. pose proof (pow2_pos e). unfold bracket. split; lra. Qed.

Lemma pow2_half : pow2 (1 - prec) <= 1 # 2.
Proof. change (1 # 2) with (pow2 (-1)). apply pow2_le. lia. Qed.

Lemma unit_at_nonneg x : 0 <= x → 0 <= unit_at prec emax x.
Proof.
  intros Hx. unfold unit_at. pose proof (pow2_pos emin).
  pose proof (pow2_pos (1 - prec)).
  assert (0 <= pow2 (1 - prec) * x) by (apply Qmult_le_0_compat; lra). lra.
Qed.

Lemma bracket_nonneg m e x : (0 <= m)%Z → bracket m e x → 0 <= x.
Proof.
  intros Hm [B1 _]. apply Qle_trans with (2 := B1).
  apply Qmult_le_0_compat; [|pose proof (pow2_pos e); lra].
  change 0 with (inject_Z 0). now rewrite <- Zle_Qle.
Qed.

#[global] Instance unit_at_proper : Proper (Qeq ==> Qeq) (unit_at prec emax).
Proof. intros x y H. unfold unit_at. now rewrite H. Qed.

#[global] Instance round_err_proper : Proper (Qeq ==> Qeq) (round_err prec emax).
Proof. intros x y H. unfold round_err. now rewrite H. Qed.

Lemma binary_round_aux_bound m e l x K :
  (0 <= m)%Z → bracket m e x →
  (l = loc_Exact ∧ x == inject_Z m * pow2 e) ∨ pow2 e <= unit_at prec emax x →
  x <= pow2 K → (emin <= K)%Z → (K + 2 <= emax - prec)%Z →
  nonneg_finite (binary_round_aux prec emax false m e l) = true ∧
  SF2Q (binary_round_aux prec emax false m e l) - x <= round_err prec emax x ∧
  x - SF2Q (binary_round_aux prec emax false m e l) <= round_err prec emax x.
Proof.
  intros Hm B Hside HK HKmin HKmax.
  pose proof (bracket_nonneg m e x Hm B) as Hx.
  pose proof (unit_at_nonneg x Hx) as HU.
  unfold binary_round_aux.
  destruct (shr_fexp_bracket m e l x Hm B) as (H1 & B1 & C1).
  destruct (shr_fexp prec emax m e l) as [mrs' e'] eqn:E1. cbn [fst snd] in *.
  set (m1 := round_nearest_even (shr_m mrs') (loc_of_shr_record mrs')).
  pose proof (round_nearest_even_range (shr_m mrs') (loc_of_shr_record mrs'))
    as R1. fold m1 in R1.
  assert (Hm1 : (0 <= m1)%Z) by lia.
  set (x1 := inject_Z m1 * pow2 e').
  assert (X1 : x1 - x <= unit_at prec emax x ∧ x - x1 <= unit_at prec emax x).
  { destruct (bracket_round _ m1 _ _ B1 R1) as [D1 D2]. fold x1 in D1, D2.
    destruct C1 as [C1|[C1a C1b]].
    - injection C1 as -> ->. destruct Hside as [[-> Hxe]|Hu]; [|lra].
      unfold x1, m1. cbn [shr_record_of_loc shr_m loc_of_shr_record
                          round_nearest_even]. lra.
    - pose proof (fexp_unit m e x Hm B) as F. rewrite <- C1b in F.
      specialize (F C1a). lra. }
  destruct (shr_fexp_bracket m1 e' loc_Exact x1 Hm1 (bracket_self m1 e'))
    as (H2 & B2 & C2).
  destruct (shr_fexp prec emax m1 e' loc_Exact) as [mrs'' e''] eqn:E2.
  cbn [fst snd] in *.
  assert (Hx1 : 0 <= x1) by (apply (bracket_nonneg m1 e'); [exact Hm1|apply bracket_self]).
  set (v := inject_Z (shr_m mrs'') * pow2 e'') in *.
  assert (V : v <= x1 ∧ x1 - v <= unit_at prec emax x1).
  { destruct B2 as [B2 B2']. fold v in B2. split; [exact B2|].
    destruct C2 as [C2|[C2a C2b]].
    - injection C2 as -> ->. unfold v, x1. cbn [shr_record_of_loc shr_m].
      pose proof (unit_at_nonneg _ Hx1). fold x1. lra.
    - pose proof (fexp_unit m1 e' x1 Hm1 (bracket_self m1 e')) as F.
      rewrite <- C2b in F. specialize (F C2a).
      assert ((inject_Z (shr_m mrs'') + 1) * pow2 e'' == v + pow2 e'')
        as Ev by (unfold v; ring).
      rewrite Ev in B2'. lra. }
  pose proof pow2_half as Hh. pose proof (pow2_pos (1 - prec)) as Hp.
  pose proof (pow2_pos emin) as He.
  assert (U1 : unit_at prec emax x1 <= unit_at prec emax x + (1 # 2) * unit_at prec emax x).
  { assert (A1 : pow2 (1 - prec) * x1 <= pow2 (1 - prec) * (x + unit_at prec emax x))
      by (rewrite Qmult_le_l by exact Hp; lra).
    assert (A2 : pow2 (1 - prec) * unit_at prec emax x <= (1 # 2) * unit_at prec emax x)
      by (apply Qmult_le_compat_r; lra).
    assert (pow2 (1 - prec) * (x + unit_at prec emax x)
            == pow2 (1 - prec) * x + pow2 (1 - prec) * unit_at prec emax x) as Er by ring.
    rewrite Er in A1.
    assert (E1' : unit_at prec emax x1 == pow2 emin + pow2 (1 - prec) * x1) by reflexivity.
    assert (E2' : unit_at prec emax x == pow2 emin + pow2 (1 - prec) * x) by reflexivity.
    generalize dependent (unit_at prec emax x1). generalize dependent (unit_at prec emax x).
    intros; lra. }
  assert (Hv : SF2Q (match shr_m mrs'' with
                     | 0%Z => S754_zero false
                     | Zpos p => S754_finite false p e''
                     | Zneg _ => S754_nan
                     end) == v).
  { unfold v. destruct (shr_m mrs'') as [|p|p]; cbn [SF2Q]; try ring. lia. }
  assert (Hfin : match shr_m mrs'' with
                 | 0%Z => S754_zero false
                 | Zpos m0 =>
                     if (e'' <=? emax - prec)%Z then S754_finite false m0 e''
                     else S754_infinity false
                 | Zneg _ => S754_nan
                 end
                 = match shr_m mrs'' with
                   | 0%Z => S754_zero false
                   | Zpos p => S754_finite false p e''
                   | Zneg _ => S754_nan
                   end).
  { destruct (shr_m mrs'') as [|p|p] eqn:Em; try reflexivity.
    destruct (Z.leb_spec e'' (emax - prec)) as [_|Hgt]; [reflexivity|].
    exfalso.
    assert (pow2 e'' <= v).
    { unfold v. rewrite <- (Qmult_1_l (pow2 e'')) at 1.
      apply Qmult_le_compat_r; [|pose proof (pow2_pos e''); lra].
      change 1 with (inject_Z 1). rewrite <- Zle_Qle. lia. }
    assert (pow2 emin <= pow2 K) by now apply pow2_le.
    assert (pow2 (1 - prec) * x <= (1 # 2) * pow2 K).
    { apply Qle_trans with (pow2 (1 - prec) * pow2 K).
      - rewrite Qmult_le_l by exact Hp. exact HK.
      - apply Qmult_le_compat_r; [exact Hh|pose proof (pow2_pos K); lra]. }
    assert (Hlt : pow2 e'' < pow2 (K + 2)).
    { replace (K + 2)%Z with (K + 1 + 1)%Z by lia. rewrite !pow2_succ.
      pose proof (pow2_pos K). unfold unit_at in *. lra. }
    apply pow2_lt_inv in Hlt. lia. }
  rewrite Hfin. split.
  - destruct (shr_m mrs'') as [|p|p]; try reflexivity. lia.
  - rewrite Hv. unfold round_err. lra.
Qed.
End round_bounds.

Section operation_bounds.
Variables prec emax : Z.
Hypothesis Hprec : 1 < prec.
Local Open Scope Q_scope.

Local Abbreviation emin := (emin prec emax).
Local Abbreviation fexp := (fexp prec emax).

Lemma round_err_nonneg x : 0 <= x → 0 <= round_err prec emax x.
Proof.
  intros H. pose proof (unit_at_nonneg prec emax x H). unfold round_err. lra.
Qed.

Lemma shl_align_le mx ex ex' :
  (ex' <= ex)%Z →
  inject_Z (Zpos (shl_align mx ex ex').1) * pow2 ex'
  == inject_Z (Zpos mx) * pow2 ex.
Proof.
  intros H. unfold shl_align.
  destruct (ex' - ex)%Z as [|d|d] eqn:E; cbn [fst]; try lia.
  - now replace ex' with ex by lia.
  - change (Pos.iter xO mx d) with (shift_pos d mx).
    rewrite shift_pos_correct, inject_Z_mult, Z.pow_pos_fold.
    rewrite <- pow2_Z by lia.
    assert (Hex : ex = (Zpos d + ex')%Z) by lia.
    rewrite Hex, pow2_add. ring.
Qed.

Lemma shl_align_value mx ex ex' :
  inject_Z (Zpos (shl_align mx ex ex').1) * pow2 (shl_align mx ex ex').2
  == inject_Z (Zpos mx) * pow2 ex.
Proof.
  destruct (Z.le_gt_cases ex' ex) as [H|H].
  - rewrite <- (shl_align_le mx ex ex' H). unfold shl_align.
    destruct (ex' - ex)%Z as [|d|d] eqn:E; cbn [fst snd]; try reflexivity.
    + now replace ex' with ex by lia.
    + lia.
  - unfold shl_align. destruct (ex' - ex)%Z as [|d|d] eqn:E; cbn [fst snd];
      try reflexivity. lia.
Qed.

Lemma binary_round_bound m e K :
  inject_Z (Zpos m) * pow2 e <= pow2 K →
  (emin <= K)%Z → (K + 2 <= emax - prec)%Z →
  nonneg_finite (binary_round prec emax false m e) = true ∧
  SF2Q (binary_round prec emax false m e) - inject_Z (Zpos m) * pow2 e
    <= round_err prec emax (inject_Z (Zpos m) * pow2 e) ∧
  inject_Z (Zpos m) * pow2 e - SF2Q (binary_round prec emax false m e)
    <= round_err prec emax (inject_Z (Zpos m) * pow2 e).
Proof.
  intros HK H1 H2. unfold binary_round.
  pose proof (shl_align_value m e (fexp (Zpos (digits2_pos m) + e))) as E.
  destruct (shl_align m e (fexp (Zpos (digits2_pos m) + e))) as [mz ez].
  cbn [fst snd] in E.
  set (x := inject_Z (Zpos m) * pow2 e) in *.
  apply (binary_round_aux_bound prec emax Hprec (Zpos mz) ez loc_Exact x K);
    try assumption; try lia.
  - unfold bracket. rewrite E. pose proof (pow2_pos ez). split; lra.
  - left. split; [reflexivity|]. now rewrite E.
Qed.

Lemma binary_normalize_bound z e sz K :
  (0 <= z)%Z →
  inject_Z z * pow2 e <= pow2 K →
  (emin <= K)%Z → (K + 2 <= emax - prec)%Z →
  nonneg_finite (binary_normalize prec emax z e sz) = true ∧
  SF2Q (binary_normalize prec emax z e sz) - inject_Z z * pow2 e
    <= round_err prec emax (inject_Z z * pow2 e) ∧
  inject_Z z * pow2 e - SF2Q (binary_normalize prec emax z e sz)
    <= round_err prec emax (inject_Z z * pow2 e).
Proof.
  intros Hz HK H1 H2.
  destruct z as [|p|p]; [|now apply (binary_round_bound p e K)|lia].
  cbn [binary_normalize SF2Q nonneg_finite]. split; [reflexivity|].
  change (inject_Z 0) with 0.
  pose proof (round_err_nonneg (0 * pow2 e) ltac:(lra)) as U.
  split; lra.
Qed.

Lemma SF2Q_nonneg x : nonneg_finite x = true → 0 <= SF2Q x.
Proof.
  destruct x as [s|s| |[] m e]; try discriminate; intros _; cbn [SF2Q]; try lra.
  pose proof (pow2_pos e).
  assert (0 <= inject_Z (Zpos m)) by (change 0 with (inject_Z 0); now rewrite <- Zle_Qle).
  assert (0 <= inject_Z (Zpos m) * pow2 e) by (apply Qmult_le_0_compat; lra).
  lra.
Qed.

Lemma SFmul_bound x y K :
  nonneg_finite x = true → nonneg_finite y = true →
  SF2Q x * SF2Q y <= pow2 K →
  (emin <= K)%Z → (K + 2 <= emax - prec)%Z →
  nonneg_finite (SFmul prec emax x y) = true ∧
  SF2Q (SFmul prec emax x y) - SF2Q x * SF2Q y <= round_err prec emax (SF2Q x * SF2Q y) ∧
  SF2Q x * SF2Q y - SF2Q (SFmul prec emax x y) <= round_err prec emax (SF2Q x * SF2Q y).
Proof.
  intros Nx Ny HK H1 H2.
  pose proof (SF2Q_nonneg x Nx) as Px. pose proof (SF2Q_nonneg y Ny) as Py.
  pose proof (round_err_nonneg (SF2Q x * SF2Q y)
                (Qmult_le_0_compat _ _ Px Py)) as R.
  destruct x as [sx|sx| |[] mx ex]; try discriminate;
    destruct y as [sy|sy| |[] my ey]; try discriminate.
  - cbn [SFmul SF2Q nonneg_finite] in *. split; [reflexivity|split; lra].
  - cbn [SFmul SF2Q nonneg_finite] in *. split; [reflexivity|split; lra].
  - cbn [SFmul SF2Q nonneg_finite] in *. split; [reflexivity|split; lra].
  - cbn [SFmul xorb]. cbn [SF2Q] in HK, R |- *.
    assert (E : 1 * (inject_Z (Zpos mx) * pow2 ex)
                * (1 * (inject_Z (Zpos my) * pow2 ey))
                == inject_Z (Zpos (mx * my)) * pow2 (ex + ey)).
    { rewrite Pos2Z.inj_mul, inject_Z_mult, pow2_add. ring. }
    apply (binary_round_aux_bound prec emax Hprec (Zpos (mx * my)) (ex + ey)
             loc_Exact _ K); try assumption; try lia.
    + unfold bracket. rewrite E. apply bracket_self.
    + left. split; [reflexivity|exact E].
Qed.

Lemma SFadd_bound x y K :
  nonneg_finite x = true → nonneg_finite y = true →
  SF2Q x + SF2Q y <= pow2 K →
  (emin <= K)%Z → (K + 2 <= emax - prec)%Z →
  nonneg_finite (SFadd prec emax x y) = true ∧
  SF2Q (SFadd prec emax x y) - (SF2Q x + SF2Q y) <= round_err prec emax (SF2Q x + SF2Q y) ∧
  SF2Q x + SF2Q y - SF2Q (SFadd prec emax x y) <= round_err prec emax (SF2Q x + SF2Q y).
Proof.
  intros Nx Ny HK H1 H2.
  pose proof (SF2Q_nonneg x Nx) as Px. pose proof (SF2Q_nonneg y Ny) as Py.
  pose proof (round_err_nonneg (SF2Q x + SF2Q y) ltac:(lra)) as R.
  destruct x as [sx|sx| |[] mx ex]; try discriminate;
    destruct y as [sy|sy| |[] my ey]; try discriminate.
  - cbn [SFadd]. destruct sx, sy; cbn [SF2Q nonneg_finite] in *;
      (split; [reflexivity|split; lra]).
  - cbn [SFadd]. split; [reflexivity|]. cbn [SF2Q] in *. split; lra.
  - cbn [SFadd]. split; [reflexivity|]. cbn [SF2Q] in *. split; lra.
  - cbn [SFadd cond_Zopp]. cbn [SF2Q] in HK, R |- *.
    assert (E : 1 * (inject_Z (Zpos mx) * pow2 ex)
                + 1 * (inject_Z (Zpos my) * pow2 ey)
                == inject_Z (Zpos (shl_align mx ex (Z.min ex ey)).1
                             + Zpos (shl_align my ey (Z.min ex ey)).1)
                   * pow2 (Z.min ex ey)).
    { rewrite inject_Z_plus, Qmult_plus_distr_l.
      rewrite !shl_align_le by lia. ring. }
    rewrite E in *.
    apply (binary_normalize_bound _ _ _ K); try assumption; lia.
Qed.
End operation_bounds.

Section division_bounds.
Variables prec emax : Z.
Hypothesis Hprec : 1 < prec.
Local Open Scope Q_scope.

Local Abbreviation emin := (emin prec emax).
Local Abbreviation fexp := (fexp prec emax).

Lemma inject_Z_pos p : 0 < inject_Z (Zpos p).
Proof. change 0 with (inject_Z 0). now rewrite <- Zlt_Qlt. Qed.

Lemma SFdiv_core_bracket mx ex my ey :
  let '(q, e', l) := SFdiv_core_binary prec emax (Zpos mx) ex (Zpos my) ey in
  let X := inject_Z (Zpos mx) * pow2 ex in
  let Y := inject_Z (Zpos my) * pow2 ey in
  (0 <= q)%Z ∧ bracket q e' (X / Y) ∧ pow2 e' <= unit_at prec emax (X / Y).
Proof.
  unfold SFdiv_core_binary. cbn [Zdigits2].
  set (d1 := Zpos (digits2_pos mx)). set (d2 := Zpos (digits2_pos my)).
  set (D := (d1 + ex - (d2 + ey))%Z).
  set (e' := Z.min (fexp D) (ex - ey)).
  set (s := (ex - ey - e')%Z).
  assert (Hs : (0 <= s)%Z) by (unfold s, e'; lia).
  set (m' := match s with
             | 0%Z => Zpos mx
             | Zpos _ => Z.shiftl (Zpos mx) s
             | Zneg _ => 0%Z
             end).
  assert (Hm' : m' = (Zpos mx * 2 ^ s)%Z).
  { unfold m'. destruct s as [|p|p]; [lia| |lia].
    now rewrite Z.shiftl_mul_pow2 by lia. }
  pose proof (Z_div_mod m' (Zpos my) ltac:(lia)) as Hdiv.
  destruct (Z.div_eucl m' (Zpos my)) as [q r]. destruct Hdiv as [Hq Hr].
  set (a := inject_Z (Zpos mx)). set (b := inject_Z (Zpos my)).
  pose proof (inject_Z_pos mx) as Ha. pose proof (inject_Z_pos my) as Hb.
  fold a in Ha. fold b in Hb.
  pose proof (pow2_pos ex) as P1. pose proof (pow2_pos ey) as P2.
  pose proof (pow2_pos e') as Pe. pose proof (pow2_pos s) as Ps.
  assert (E1 : pow2 ex == pow2 ey * pow2 e' * pow2 s).
  { rewrite <- !pow2_add. now replace (ey + e' + s)%Z with ex by (unfold s; lia). }
  assert (Em : inject_Z m' == a * pow2 s).
  { rewrite Hm', inject_Z_mult, pow2_Z by exact Hs. reflexivity. }
  assert (EQ : a * pow2 ex / (b * pow2 ey) == inject_Z m' * pow2 e' / b).
  { rewrite Em, E1. field. split; lra. }
  assert (Hq0 : (0 <= q)%Z) by nia.
  split; [exact Hq0|]. split.
  - unfold bracket. rewrite EQ.
    assert (L1 : inject_Z q * b <= inject_Z m').
    { unfold b. rewrite <- inject_Z_mult, <- Zle_Qle. lia. }
    assert (L2 : inject_Z m' <= (inject_Z q + 1) * b).
    { unfold b. change 1 with (inject_Z 1).
      rewrite <- inject_Z_plus, <- inject_Z_mult, <- Zle_Qle. lia. }
    split.
    + apply Qle_shift_div_l; [exact Hb|].
      apply (Qmult_le_compat_r _ _ (pow2 e')) in L1; lra.
    + apply Qle_shift_div_r; [exact Hb|].
      apply (Qmult_le_compat_r _ _ (pow2 e')) in L2; lra.
  - unfold unit_at.
    pose proof (pow2_pos emin) as Pm. pose proof (pow2_pos (1 - prec)) as Pp.
    assert (Hfe : pow2 e' <= pow2 (fexp D)) by (apply pow2_le; unfold e'; lia).
    apply Qle_trans with (1 := Hfe).
    assert (HQ : pow2 (D - 1) <= a * pow2 ex / (b * pow2 ey)).
    { apply Qle_shift_div_l; [apply Qmult_lt_0_compat; lra|].
      assert (Hb2 : b <= pow2 d2).
      { apply inject_Z_le_pow2; [unfold d2; lia|].
        pose proof (digits2_pos_upper my). unfold d2. lia. }
      assert (Ha2 : pow2 (d1 - 1) <= a).
      { apply pow2_le_inject_Z; [unfold d1; lia|apply digits2_pos_lower]. }
      apply Qle_trans with (pow2 (D - 1) * (pow2 d2 * pow2 ey)).
      - rewrite Qmult_le_l by apply pow2_pos.
        apply Qmult_le_compat_r; lra.
      - rewrite <- !pow2_add.
        replace (D - 1 + (d2 + ey))%Z with (d1 - 1 + ex)%Z by (unfold D; lia).
        rewrite pow2_add. apply Qmult_le_compat_r; lra. }
    assert (HQ0 : 0 <= pow2 (1 - prec) * (a * pow2 ex / (b * pow2 ey))).
    { apply Qmult_le_0_compat; [lra|]. pose proof (pow2_pos (D - 1)). lra. }
    unfold SpecFloat.fexp.
    destruct (Z.max_spec (D - prec) emin) as [[_ ->]|[_ ->]]; [lra|].
    replace (D - prec)%Z with (1 - prec + (D - 1))%Z by lia. rewrite pow2_add.
    apply Qle_trans with (pow2 (1 - prec) * (a * pow2 ex / (b * pow2 ey))); [|lra].
    now rewrite Qmult_le_l by exact Pp.
Qed.

Lemma SFdiv_bound x my ey K :
  nonneg_finite x = true →
  SF2Q x / SF2Q (S754_finite false my ey) <= pow2 K →
  (emin <= K)%Z → (K + 2 <= emax - prec)%Z →
  nonneg_finite (SFdiv prec emax x (S754_finite false my ey)) = true ∧
  SF2Q (SFdiv prec emax x (S754_finite false my ey))
    - SF2Q x / SF2Q (S754_finite false my ey)
    <= round_err prec emax (SF2Q x / SF2Q (S754_finite false my ey)) ∧
  SF2Q x / SF2Q (S754_finite false my ey)
    - SF2Q (SFdiv prec emax x (S754_finite false my ey))
    <= round_err prec emax (SF2Q x / SF2Q (S754_finite false my ey)).
Proof.
  intros Nx HK H1 H2.
  destruct x as [sx|sx| |[] mx ex]; try discriminate.
  - cbn [SFdiv nonneg_finite]. split; [reflexivity|].
    assert (E : SF2Q (S754_zero sx) / SF2Q (S754_finite false my ey) == 0)
      by (cbn [SF2Q]; unfold Qdiv; ring).
    rewrite E. pose proof (round_err_nonneg prec emax 0 ltac:(lra)).
    cbn [SF2Q]. split; lra.
  - cbn [SFdiv xorb]. cbn [SF2Q] in *.
    pose proof (SFdiv_core_bracket mx ex my ey) as C.
    destruct (SFdiv_core_binary prec emax (Zpos mx) ex (Zpos my) ey)
      as [[q e'] l].
    cbv zeta in C. destruct C as (Hq & B & U).
    assert (E : 1 * (inject_Z (Zpos mx) * pow2 ex)
                / (1 * (inject_Z (Zpos my) * pow2 ey))
                == inject_Z (Zpos mx) * pow2 ex
                   / (inject_Z (Zpos my) * pow2 ey)).
    { pose proof (inject_Z_pos my). pose proof (pow2_pos ey).
      field. split; lra. }
    rewrite E in *.
    apply (binary_round_aux_bound prec emax Hprec q e' l _ K);
      try assumption; try lia. now right.
Qed.
End division_bounds.

Section rint_bounds.
Local Open Scope Q_scope.

Lemma binary64_prec : (1 < binary64.prec)%Z.
Proof. reflexivity. Qed.

Lemma nearest_integer m k :
  (0 < k)%Z →
  let q := (Zpos m / 2 ^ k)%Z in
  let r := (Zpos m mod 2 ^ k)%Z in
  let n := match (2 * r ?= 2 ^ k)%Z with
           | Lt => q
           | Gt => (q + 1)%Z
           | Eq => if Z.even q then q else (q + 1)%Z
           end in
  (0 <= n)%Z ∧
  inject_Z n - inject_Z (Zpos m) * pow2 (- k) <= 1 # 2 ∧
  inject_Z (Zpos m) * pow2 (- k) - inject_Z n <= 1 # 2.
Proof.
  intros Hk q r n.
  assert (Hp : (0 < 2 ^ k)%Z) by (apply Z.pow_pos_nonneg; lia).
  pose proof (Z.div_mod (Zpos m) (2 ^ k) ltac:(lia)) as Hd.
  pose proof (Z.mod_pos_bound (Zpos m) (2 ^ k) Hp) as Hr.
  fold q r in Hd, Hr.
  assert (Hq : (0 <= q)%Z) by (apply Z.div_pos; lia).
  assert (Hn : (0 <= n ∧ 2 * (n * 2 ^ k) <= 2 ^ k + 2 * Zpos m
                ∧ 2 * Zpos m <= 2 ^ k + 2 * (n * 2 ^ k))%Z).
  { unfold n. destruct (Z.compare_spec (2 * r) (2 ^ k)) as [E|L|G];
      [destruct (Z.even q)|..]; nia. }
  destruct Hn as (N0 & N1 & N2). split; [exact N0|].
  assert (E : pow2 (- k) * pow2 k == 1).
  { rewrite <- pow2_add. now replace (- k + k)%Z with 0%Z by lia. }
  pose proof (pow2_pos k) as Pk. pose proof (pow2_pos (- k)) as Pk'.
  rewrite Zle_Qle in N1, N2.
  rewrite !inject_Z_plus, !inject_Z_mult in N1, N2.
  rewrite <- !pow2_Z in N1, N2 by lia. change (inject_Z 2) with 2 in *.
  set (a := inject_Z (Zpos m)) in *. set (b := inject_Z n) in *.
  assert (A1 : (b - a * pow2 (- k)) * pow2 k == b * pow2 k - a)
    by (rewrite <- (Qmult_1_r a) at 2; rewrite <- E; ring).
  split.
  - apply (Qmult_le_r _ _ (pow2 k)); [exact Pk|]. rewrite A1. lra.
  - apply (Qmult_le_r _ _ (pow2 k)); [exact Pk|].
    assert (A2 : (a * pow2 (- k) - b) * pow2 k == a - b * pow2 k)
      by (rewrite <- (Qmult_1_r a) at 2; rewrite <- E; ring).
    rewrite A2. lra.
Qed.

Lemma rint_bound x K :
  nonneg_finite x = true →
  SF2Q x + 1 <= pow2 K →
  (emin binary64.prec binary64.emax <= K)%Z →
  (K + 2 <= binary64.emax - binary64.prec)%Z →
  ∃ n : Z,
    (0 <= n)%Z ∧
    inject_Z n - SF2Q x <= 1 # 2 ∧ SF2Q x - inject_Z n <= 1 # 2 ∧
    nonneg_finite (binary64.rint x) = true ∧
    SF2Q (binary64.rint x) - inject_Z n
      <= round_err binary64.prec binary64.emax (inject_Z n) ∧
    inject_Z n - SF2Q (binary64.rint x)
      <= round_err binary64.prec binary64.emax (inject_Z n).
Proof.
  intros Nx HK H1 H2.
  destruct x as [sx|sx| |[] m e]; try discriminate.
  - exists 0%Z. cbn [binary64.rint SF2Q nonneg_finite].
    change (inject_Z 0) with 0.
    pose proof (round_err_nonneg binary64.prec binary64.emax 0 ltac:(lra)).
    repeat split; try lra; lia.
  - cbn [binary64.rint]. destruct (Z.leb_spec 0 e) as [He|He].
    + exists (Zpos m * 2 ^ e)%Z. cbn [SF2Q nonneg_finite].
      assert (E : inject_Z (Zpos m * 2 ^ e) == 1 * (inject_Z (Zpos m) * pow2 e))
        by (rewrite inject_Z_mult, pow2_Z by exact He; ring).
      assert (0 <= inject_Z (Zpos m * 2 ^ e)).
      { change 0 with (inject_Z 0). rewrite <- Zle_Qle.
        apply Z.mul_nonneg_nonneg; [lia|]. apply Z.pow_nonneg. lia. }
      pose proof (round_err_nonneg binary64.prec binary64.emax _ H).
      split; [apply Z.mul_nonneg_nonneg; [lia|apply Z.pow_nonneg; lia]|].
      repeat split; try lra.
    + destruct (nearest_integer m (- e) ltac:(lia)) as (N0 & N1 & N2).
      cbv zeta in N0, N1, N2. rewrite Z.opp_involutive in N1, N2.
      set (n := match (2 * (Zpos m mod 2 ^ (- e)) ?= 2 ^ (- e))%Z with
                | Lt => (Zpos m / 2 ^ (- e))%Z
                | Gt => (Zpos m / 2 ^ (- e) + 1)%Z
                | Eq => if Z.even (Zpos m / 2 ^ (- e))
                        then (Zpos m / 2 ^ (- e))%Z
                        else (Zpos m / 2 ^ (- e) + 1)%Z
                end) in *.
      exists n. cbn [SF2Q cond_Zopp] in *.
      split; [exact N0|]. split; [lra|]. split; [lra|].
      assert (En : inject_Z n * pow2 0 == inject_Z n)
        by (change (pow2 0) with 1; ring).
      rewrite <- En.
      apply (binary_normalize_bound binary64.prec binary64.emax binary64_prec
               n 0 false K); try assumption. rewrite En. lra.
Qed.
End rint_bounds.

Section binary64_bounds.
Local Open Scope Q_scope.

#[global] Instance fl_err_proper : Proper (Qeq ==> Qeq) fl_err.
Proof. intros x y H. unfold fl_err. now rewrite H. Qed.

Lemma round_err64_le x :
  0 <= x → round_err binary64.prec binary64.emax x <= fl_err x.
Proof.
  intros Hx. unfold round_err, unit_at, fl_err.
  assert (E1 : 4 * pow2 (emin binary64.prec binary64.emax) <= 1 # 1152921504606846976)
    by (apply Qle_bool_iff; vm_compute; reflexivity).
  assert (E2 : 4 * pow2 (1 - binary64.prec) == 1 # 1125899906842624)
    by (vm_compute; reflexivity).
  rewrite <- E2.
  set (p := pow2 (1 - binary64.prec)) in *.
  set (q := pow2 (emin binary64.prec binary64.emax)) in *. lra.
Qed.

Lemma fl_max_pow2 x : x <= fl_max → x <= pow2 969.
Proof.
  intros H. apply Qle_trans with (1 := H). unfold fl_max.
  change (18446744073709551616 # 1) with (inject_Z (2 ^ 64)).
  rewrite <- pow2_Z by lia. apply pow2_le. lia.
Qed.

Lemma exponent_969_ok :
  (emin binary64.prec binary64.emax <= 969)%Z ∧
  (969 + 2 <= binary64.emax - binary64.prec)%Z.
Proof. vm_compute. split; discriminate. Qed.

Lemma mul64 x y :
  nonneg_finite x = true → nonneg_finite y = true →
  SF2Q x * SF2Q y <= fl_max →
  nonneg_finite (binary64.mul x y) = true ∧
  SF2Q (binary64.mul x y) - SF2Q x * SF2Q y <= fl_err (SF2Q x * SF2Q y) ∧
  SF2Q x * SF2Q y - SF2Q (binary64.mul x y) <= fl_err (SF2Q x * SF2Q y).
Proof.
  intros Nx Ny H. destruct exponent_969_ok as [K1 K2].
  destruct (SFmul_bound binary64.prec binary64.emax binary64_prec x y 969
              Nx Ny (fl_max_pow2 _ H) K1 K2) as (N & B1 & B2).
  pose proof (round_err64_le (SF2Q x * SF2Q y)
                (Qmult_le_0_compat _ _ (SF2Q_nonneg _ Nx) (SF2Q_nonneg _ Ny))).
  split; [exact N|]. unfold binary64.mul. split; lra.
Qed.

Lemma add64 x y :
  nonneg_finite x = true → nonneg_finite y = true →
  SF2Q x + SF2Q y <= fl_max →
  nonneg_finite (binary64.add x y) = true ∧
  SF2Q (binary64.add x y) - (SF2Q x + SF2Q y) <= fl_err (SF2Q x + SF2Q y) ∧
  SF2Q x + SF2Q y - SF2Q (binary64.add x y) <= fl_err (SF2Q x + SF2Q y).
Proof.
  intros Nx Ny H. destruct exponent_969_ok as [K1 K2].
  destruct (SFadd_bound binary64.prec binary64.emax binary64_prec x y 969
              Nx Ny (fl_max_pow2 _ H) K1 K2) as (N & B1 & B2).
  pose proof (SF2Q_nonneg _ Nx). pose proof (SF2Q_nonneg _ Ny).
  pose proof (round_err64_le (SF2Q x + SF2Q y) ltac:(lra)).
  split; [exact N|]. unfold binary64.add. split; lra.
Qed.

Lemma of_Z64 z :
  (0 <= z)%Z → inject_Z z <= fl_max →
  nonneg_finite (binary64.of_Z z) = true ∧
  SF2Q (binary64.of_Z z) - inject_Z z <= fl_err (inject_Z z) ∧
  inject_Z z - SF2Q (binary64.of_Z z) <= fl_err (inject_Z z).
Proof.
  intros Hz H. destruct exponent_969_ok as [K1 K2].
  assert (E : inject_Z z * pow2 0 == inject_Z z)
    by (change (pow2 0) with 1; ring).
  destruct (binary_normalize_bound binary64.prec binary64.emax binary64_prec
              z 0 false 969 Hz) as (N & B1 & B2); try assumption.
  { rewrite E. now apply fl_max_pow2. }
  rewrite E in B1, B2.
  assert (0 <= inject_Z z) by (change 0 with (inject_Z 0); now rewrite <- Zle_Qle).
  pose proof (round_err64_le (inject_Z z) H0).
  split; [exact N|]. unfold binary64.of_Z. split; lra.
Qed.

(** Division by a constant. *)
Lemma div64 x my ey (c : Q) :
  nonneg_finite x = true →
  SF2Q (S754_finite false my ey) == c →
  SF2Q x / c <= fl_max →
  nonneg_finite (binary64.div x (S754_finite false my ey)) = true ∧
  SF2Q (binary64.div x (S754_finite false my ey)) - SF2Q x / c
    <= fl_err (SF2Q x / c) ∧
  SF2Q x / c - SF2Q (binary64.div x (S754_finite false my ey))
    <= fl_err (SF2Q x / c).
Proof.
  intros Nx Hc H. destruct exponent_969_ok as [K1 K2]. rewrite <- Hc in H |- *.
  destruct (SFdiv_bound binary64.prec binary64.emax binary64_prec x my ey 969
              Nx (fl_max_pow2 _ H) K1 K2) as (N & B1 & B2).
  assert (0 <= SF2Q x / SF2Q (S754_finite false my ey)).
  { apply Qle_shift_div_l.
    - cbn [SF2Q]. pose proof (inject_Z_pos my). pose proof (pow2_pos ey).
      assert (0 < inject_Z (Zpos my) * pow2 ey) by (apply Qmult_lt_0_compat; lra).
      lra.
    - rewrite Qmult_0_l. apply (SF2Q_nonneg _ Nx). }
  pose proof (round_err64_le _ H0).
  split; [exact N|]. unfold binary64.div. split; lra.
Qed.

Lemma rint64 x :
  nonneg_finite x = true → SF2Q x + 1 <= fl_max →
  ∃ n : Z,
    (0 <= n)%Z ∧
    inject_Z n - SF2Q x <= 1 # 2 ∧ SF2Q x - inject_Z n <= 1 # 2 ∧
    nonneg_finite (binary64.rint x) = true ∧
    SF2Q (binary64.rint x) - inject_Z n <= fl_err (inject_Z n) ∧
    inject_Z n - SF2Q (binary64.rint x) <= fl_err (inject_Z n).
Proof.
  intros Nx H. destruct exponent_969_ok as [K1 K2].
  destruct (rint_bound x 969 Nx (fl_max_pow2 _ H) K1 K2)
    as (n & N0 & N1 & N2 & N & B1 & B2).
  exists n.
  assert (0 <= inject_Z n) by (change 0 with (inject_Z 0); now rewrite <- Zle_Qle).
  pose proof (round_err64_le (inject_Z n) H0).
  repeat split; try assumption; lra.
Qed.
End binary64_bounds.

Section area_bounds.
Local Open Scope Q_scope.

Lemma of_Z_100 : binary64.of_Z 100 = S754_finite false 7036874417766400 (-46).
Proof. vm_compute. reflexivity. Qed.

Lemma of_Z_10000 : binary64.of_Z 10000 = S754_finite false 5497558138880000 (-39).
Proof. vm_compute. reflexivity. Qed.

Lemma SF2Q_100 : SF2Q (S754_finite false 7036874417766400 (-46)) == 100.
Proof. vm_compute. reflexivity. Qed.

Lemma SF2Q_10000 : SF2Q (S754_finite false 5497558138880000 (-39)) == 10000.
Proof. vm_compute. reflexivity. Qed.

Lemma round2_bound (h : spec_float) :
  nonneg_finite h = true → SF2Q h <= inject_Z (2 ^ 27) →
  ∃ n : Z,
    (0 <= n)%Z ∧
    inject_Z n * (1 # 100) - SF2Q h <= (5 # 1000) + (2 # 10000000) ∧
    SF2Q h - inject_Z n * (1 # 100) <= (5 # 1000) + (2 # 10000000) ∧
    nonneg_finite (binary64.round h 2) = true ∧
    SF2Q (binary64.round h 2) - inject_Z n * (1 # 100) <= 3 # 10000000 ∧
    inject_Z n * (1 # 100) - SF2Q (binary64.round h 2) <= 3 # 10000000.
Proof.
  intros Nh Hh. unfold binary64.round. change (10 ^ 2)%Z with 100%Z.
  rewrite of_Z_100.
  pose proof (SF2Q_nonneg _ Nh) as Ph.
  assert (N100 : nonneg_finite (S754_finite false 7036874417766400 (-46)) = true)
    by reflexivity.
  change (inject_Z (2 ^ 27)) with (134217728 # 1) in Hh.
  destruct (mul64 h _ Nh N100) as (Ny & Y1 & Y2).
  { rewrite SF2Q_100. unfold fl_max. lra. }
  rewrite SF2Q_100 in Y1, Y2. unfold fl_err in Y1, Y2.
  set (y := binary64.mul h (S754_finite false 7036874417766400 (-46))) in *.
  destruct (rint64 y Ny) as (n & N0 & R1 & R2 & Nr & R3 & R4).
  { unfold fl_max. lra. }
  unfold fl_err in R3, R4.
  set (r := binary64.rint y) in *.
  destruct (div64 r 7036874417766400 (-46) 100 Nr SF2Q_100) as (Nv & V1 & V2).
  { change (SF2Q r / 100) with (SF2Q r * (1 # 100)). unfold fl_max.
    lra. }
  change (SF2Q r / 100) with (SF2Q r * (1 # 100)) in V1, V2.
  unfold fl_err in V1, V2.
  exists n. split; [exact N0|].
  set (v := binary64.div r (S754_finite false 7036874417766400 (-46))) in *.
  repeat split; try assumption; lra.
Qed.

Lemma hectares_bound (area_m2 : spec_float) :
  nonneg_finite area_m2 = true → SF2Q area_m2 <= inject_Z (2 ^ 40) →
  ∃ n : Z,
    (0 <= n)%Z ∧
    inject_Z n * (1 # 100) - SF2Q area_m2 * (1 # 10000)
      <= (5 # 1000) + (4 # 10000000) ∧
    SF2Q area_m2 * (1 # 10000) - inject_Z n * (1 # 100)
      <= (5 # 1000) + (4 # 10000000) ∧
    nonneg_finite (hectares area_m2) = true ∧
    SF2Q (hectares area_m2) - inject_Z n * (1 # 100) <= 3 # 10000000 ∧
    inject_Z n * (1 # 100) - SF2Q (hectares area_m2) <= 3 # 10000000.
Proof.
  intros NA HA. unfold hectares. rewrite of_Z_10000.
  pose proof (SF2Q_nonneg _ NA) as PA.
  change (inject_Z (2 ^ 40)) with (1099511627776 # 1) in HA.
  destruct (div64 area_m2 5497558138880000 (-39) 10000 NA SF2Q_10000)
    as (Nh & H1 & H2).
  { change (SF2Q area_m2 / 10000) with (SF2Q area_m2 * (1 # 10000)).
    unfold fl_max.
    lra. }
  change (SF2Q area_m2 / 10000) with (SF2Q area_m2 * (1 # 10000)) in H1, H2.
  unfold fl_err in H1, H2.
  set (h := binary64.div area_m2 (S754_finite false 5497558138880000 (-39))) in *.
  destruct (round2_bound h Nh) as (n & N0 & R1 & R2 & Nv & R3 & R4).
  { change (inject_Z (2 ^ 27)) with (134217728 # 1). lra. }
  exists n. repeat split; try assumption; lra.
Qed.
End area_bounds.

Section report_bounds.
Local Open Scope Q_scope.

Lemma inject_nat_nonneg (n : nat) : 0 <= inject_Z (Z.of_nat n).
Proof. change 0 with (inject_Z 0). rewrite <- Zle_Qle. lia. Qed.

Lemma area_m2_of_bound pa c :
  (1 <= c)%nat → (Z.of_nat c <= 2 ^ 63)%Z →
  nonneg_finite pa = true →
  inject_Z (Z.of_nat c) * SF2Q pa <= 1000000000000 # 1 →
  nonneg_finite (area_m2_of pa c) = true ∧
  SF2Q (area_m2_of pa c) - inject_Z (Z.of_nat c) * SF2Q pa <= 1 # 512 ∧
  inject_Z (Z.of_nat c) * SF2Q pa - SF2Q (area_m2_of pa c) <= 1 # 512.
Proof.
  intros Hc Hc63 Npa HA. unfold area_m2_of.
  pose proof (SF2Q_nonneg _ Npa) as Ppa.
  assert (C1 : 1 <= inject_Z (Z.of_nat c))
    by (change 1 with (inject_Z 1); rewrite <- Zle_Qle; lia).
  assert (C2 : inject_Z (Z.of_nat c) <= 9223372036854775808 # 1)
    by (change (9223372036854775808 # 1) with (inject_Z (2 ^ 63));
        now rewrite <- Zle_Qle).
  destruct (of_Z64 (Z.of_nat c)) as (Nc & D1 & D2); [lia|unfold fl_max; lra|].
  unfold fl_err in D1, D2.
  set (c' := binary64.of_Z (Z.of_nat c)) in *.
  set (n := inject_Z (Z.of_nat c)) in *. set (p := SF2Q pa) in *.
  assert (P1 : (n - 1) * p >= 0)
    by (apply Qle_ge, Qmult_le_0_compat; lra).
  assert (M1 : (SF2Q c' - n) * p
               <= ((1 # 1152921504606846976) + (1 # 1125899906842624) * n) * p)
    by (apply Qmult_le_compat_r; lra).
  assert (M2 : (n - SF2Q c') * p
               <= ((1 # 1152921504606846976) + (1 # 1125899906842624) * n) * p)
    by (apply Qmult_le_compat_r; lra).
  destruct (mul64 c' pa Nc Npa) as (NA & A1 & A2).
  { fold p. unfold fl_max. lra. }
  fold p in A1, A2. unfold fl_err in A1, A2.
  split; [exact NA|]. split; lra.
Qed.

Lemma Qsum_cons x l : Qsum (x :: l) = x + Qsum l.
Proof. reflexivity. Qed.

Lemma Qsum_nonneg l : Forall (λ x, 0 <= x) l → 0 <= Qsum l.
Proof.
  induction 1 as [|x l Hx _ IH]; [cbn; lra|]. rewrite Qsum_cons. lra.
Qed.

Lemma areas_bound pa (cs : list nat) :
  Forall (λ c, (1 <= c)%nat) cs →
  (Z.of_nat (sum_list cs) <= 2 ^ 63)%Z →
  nonneg_finite pa = true →
  inject_Z (Z.of_nat (sum_list cs)) * SF2Q pa <= 1000000000000 # 1 →
  Forall (λ A, nonneg_finite A = true) (area_m2_of pa <$> cs) ∧
  Qsum (SF2Q <$> (area_m2_of pa <$> cs))
    - inject_Z (Z.of_nat (sum_list cs)) * SF2Q pa
    <= inject_Z (Z.of_nat (length cs)) * (1 # 512) ∧
  inject_Z (Z.of_nat (sum_list cs)) * SF2Q pa
    - Qsum (SF2Q <$> (area_m2_of pa <$> cs))
    <= inject_Z (Z.of_nat (length cs)) * (1 # 512).
Proof.
  intros H1 H63 Npa HA. pose proof (SF2Q_nonneg _ Npa) as Ppa.
  induction H1 as [|c cs Hc _ IH].
  { cbn. change (inject_Z (Z.of_nat 0)) with 0. split; [constructor|]. split; lra. }
  change (sum_list (c :: cs)) with (c + sum_list cs)%nat in *.
  rewrite Nat2Z.inj_add, inject_Z_plus in HA.
  pose proof (inject_nat_nonneg c) as Pc.
  pose proof (inject_nat_nonneg (sum_list cs)) as Ps.
  assert (Q1 : 0 <= inject_Z (Z.of_nat c) * SF2Q pa)
    by (apply Qmult_le_0_compat; lra).
  assert (Q2 : 0 <= inject_Z (Z.of_nat (sum_list cs)) * SF2Q pa)
    by (apply Qmult_le_0_compat; lra).
  destruct IH as (F & I1 & I2); [lia|lra|].
  destruct (area_m2_of_bound pa c Hc) as (NA & A1 & A2); [lia|exact Npa|lra|].
  rewrite !fmap_cons, Qsum_cons. cbn [length].
  rewrite Nat2Z.inj_succ, <- Z.add_1_r, !Nat2Z.inj_add, !inject_Z_plus.
  change (inject_Z 1) with 1.
  split; [now constructor|]. split; lra.
Qed.

Lemma foldl_add_bound (l : list spec_float) (acc : spec_float) :
  Forall (λ A, nonneg_finite A = true) l →
  nonneg_finite acc = true →
  SF2Q acc + Qsum (SF2Q <$> l) + inject_Z (Z.of_nat (length l)) * (1 # 1000)
    <= 1099511627776 # 1 →
  nonneg_finite (foldl binary64.add acc l) = true ∧
  SF2Q (foldl binary64.add acc l) - (SF2Q acc + Qsum (SF2Q <$> l))
    <= inject_Z (Z.of_nat (length l)) * (1 # 1000) ∧
  SF2Q acc + Qsum (SF2Q <$> l) - SF2Q (foldl binary64.add acc l)
    <= inject_Z (Z.of_nat (length l)) * (1 # 1000).
Proof.
  intros Hl. revert acc. induction Hl as [|A l NA Hl IH]; intros acc Nacc H.
  { cbn. change (inject_Z (Z.of_nat 0)) with 0. split; [exact Nacc|]. split; lra. }
  rewrite fmap_cons, Qsum_cons in H |- *. cbn [length foldl] in *.
  rewrite Nat2Z.inj_succ, <- Z.add_1_r, inject_Z_plus in H |- *.
  change (inject_Z 1) with 1 in *.
  pose proof (SF2Q_nonneg _ Nacc) as Pacc. pose proof (SF2Q_nonneg _ NA) as PA.
  pose proof (inject_nat_nonneg (length l)) as Pn.
  assert (Ps : 0 <= Qsum (SF2Q <$> l)).
  { apply Qsum_nonneg, Forall_fmap. eapply Forall_impl; [exact Hl|].
    intros x Hx. now apply SF2Q_nonneg. }
  destruct (add64 acc A Nacc NA) as (N1 & D1 & D2); [unfold fl_max; lra|].
  unfold fl_err in D1, D2.
  destruct (IH (binary64.add acc A) N1) as (N2 & I1 & I2); [lra|].
  split; [exact N2|]. split; lra.
Qed.

Lemma hectares_sum_bound (l : list spec_float) :
  Forall (λ A, nonneg_finite A = true ∧ SF2Q A <= 1099511627776 # 1) l →
  Forall (λ v, nonneg_finite v = true) (hectares <$> l) ∧
  Qsum (SF2Q <$> (hectares <$> l)) - Qsum (SF2Q <$> l) * (1 # 10000)
    <= inject_Z (Z.of_nat (length l)) * ((5 # 1000) + (7 # 10000000)) ∧
  Qsum (SF2Q <$> l) * (1 # 10000) - Qsum (SF2Q <$> (hectares <$> l))
    <= inject_Z (Z.of_nat (length l)) * ((5 # 1000) + (7 # 10000000)).
Proof.
  induction 1 as [|A l [NA HA] _ (F & I1 & I2)].
  { cbn. change (inject_Z (Z.of_nat 0)) with 0. split; [constructor|]. split; lra. }
  destruct (hectares_bound A NA) as (n & N0 & R1 & R2 & Nv & R3 & R4).
  { change (inject_Z (2 ^ 40)) with (1099511627776 # 1). exact HA. }
  rewrite !fmap_cons, !Qsum_cons. cbn [length].
  rewrite Nat2Z.inj_succ, <- Z.add_1_r, inject_Z_plus.
  change (inject_Z 1) with 1.
  split; [now constructor|]. split; lra.
Qed.
End report_bounds.
(** * Properties *)

(** ** The order of floats *)

Local Ltac compare_case :=
  eexists; (split; [reflexivity | simpl; first [reflexivity | lia]]).

Lemma SFcompare_key x y :
  isnan x = false → isnan y = false →
  ∃ c, SFcompare x y = Some c ∧
       match c with
       | Lt => lex_lt (SFkey x) (SFkey y)
       | Eq => SFkey x = SFkey y
       | Gt => lex_lt (SFkey y) (SFkey x)
       end.
Proof.
  intros Hx Hy.
  destruct x as [s1|s1| |s1 m1 e1], y as [s2|s2| |s2 m2 e2];
    try discriminate; clear Hx Hy; unfold lex_lt.
  1-8: destruct s1, s2; compare_case.
  destruct s1, s2; try compare_case; simpl.
  - destruct (Z.compare_spec e1 e2) as [->|?|?]; try compare_case.
    rewrite Pos.compare_cont_spec. simpl.
    destruct (Pos.compare_spec m1 m2) as [->|?|?]; compare_case.
  - destruct (Z.compare_spec e1 e2) as [->|?|?]; try compare_case.
    rewrite Pos.compare_cont_spec. simpl.
    destruct (Pos.compare_spec m1 m2) as [->|?|?]; compare_case.
Qed.

Lemma lex_lt_irrefl p : ¬ lex_lt p p.
Proof. unfold lex_lt. lia. Qed.

Lemma lex_lt_asym p q : lex_lt p q → ¬ lex_lt q p.
Proof. unfold lex_lt. lia. Qed.

Lemma lex_le_trans p q r : lex_le p q → lex_le q r → lex_le p r.
Proof.
  unfold lex_le, lex_lt. intros [H1| ->] [H2| ->]; auto. left. lia.
Qed.

Lemma lex_le_not_lt p q : lex_le p q ↔ ¬ lex_lt q p.
Proof.
  unfold lex_le. split.
  - intros [H| ->]; [now apply lex_lt_asym | apply lex_lt_irrefl].
  - intros H. destruct p as [[a b] c], q as [[a' b'] c'].
    unfold lex_lt in *; simpl in *.
    destruct (decide (a = a' ∧ b = b' ∧ c = c')) as [(-> & -> & ->)|?];
      [now right | left; lia].
Qed.

Lemma SFleb_key x y :
  isnan x = false → isnan y = false →
  (SFleb x y = true ↔ lex_le (SFkey x) (SFkey y)).
Proof.
  intros Hx Hy. destruct (SFcompare_key x y Hx Hy) as (c & Hc & H).
  unfold SFleb. rewrite Hc. rewrite lex_le_not_lt.
  destruct c; split; intros H0; try discriminate; try reflexivity.
  - rewrite H. apply lex_lt_irrefl.
  - now apply lex_lt_asym.
  - contradiction.
Qed.

Lemma SFltb_key x y :
  isnan x = false → isnan y = false →
  (SFltb x y = true ↔ lex_lt (SFkey x) (SFkey y)).
Proof.
  intros Hx Hy. destruct (SFcompare_key x y Hx Hy) as (c & Hc & H).
  unfold SFltb. rewrite Hc.
  destruct c; split; intros H0; try discriminate; try reflexivity; try assumption.
  - rewrite H in H0. now apply lex_lt_irrefl in H0.
  - now apply lex_lt_asym in H.
Qed.

(** On floats that are not NaN, [t < v] is the negation of [v <= t]. *)
Lemma SFltb_negb_leb t v :
  isnan t = false → isnan v = false → SFltb t v = negb (SFleb v t).
Proof.
  intros Ht Hv.
  pose proof (SFltb_key t v Ht Hv) as H1.
  pose proof (SFleb_key v t Hv Ht) as H2.
  rewrite lex_le_not_lt in H2.
  destruct (SFltb t v), (SFleb v t); simpl; try reflexivity; tauto.
Qed.

Lemma SFleb_trans x y z :
  SFleb x y = true → SFleb y z = true → SFleb x z = true.
Proof.
  intros H1 H2.
  assert (isnan x = false ∧ isnan y = false ∧ isnan z = false) as (Hx & Hy & Hz).
  { destruct x, y, z; try discriminate; auto. }
  rewrite SFleb_key in * by assumption. eauto using lex_le_trans.
Qed.

Lemma SFleb_refl x : isnan x = false → SFleb x x = true.
Proof. intros Hx. rewrite SFleb_key by assumption. now right. Qed.

(** ** The float operations on known values *)

(** 0.1 is 0x1.999999999999ap-4; 2.5 and -3.5 round to the even
    neighbour; NumPy rounds 2.675 to 2.68 and 0.125 to 0.12. *)
Example binary64_known_values :
  binary64.literal 1 10 = S754_finite false 7205759403792794 (-56) ∧
  binary64.rint (binary64.literal 5 2) = binary64.of_Z 2 ∧
  binary64.rint (binary64.literal (-7) 2) = binary64.of_Z (-4) ∧
  binary64.round (binary64.literal 2675 1000) 2 = binary64.literal 268 100 ∧
  binary64.round (binary64.literal 125 1000) 2 = binary64.literal 12 100.
Proof. vm_compute. tauto. Qed.

(** ** The class array, pixel by pixel *)

Lemma classified_array_shape a : shape (classified_array a) = shape a.
Proof. reflexivity. Qed.

Lemma classified_array_data a : data (classified_array a) = class_of <$> data a.
Proof.
  destruct a as [sh l]. unfold classified_array, conditions, classes, class_of.
  unfold np.select, np.astype_uint8, np.logical_and, np.less_equal, np.greater,
    np.elementwise2, np.elementwise.
  fold cut_m0251 cut_m0101 cut_0100 cut_0270 cut_0440 cut_0660.
  generalize cut_m0251 cut_m0101 cut_0100 cut_0270 cut_0440 cut_0660.
  intros t1 t2 t3 t4 t5 t6. cbn [zip zip_with foldr fst snd data shape].
  induction l as [|v l IH]; [reflexivity|].
  cbn [fmap list_fmap zip_with data] in *. f_equal. exact IH.
Qed.

Lemma classified_array_lookup a i v :
  data a !! i = Some v → data (classified_array a) !! i = Some (class_of v).
Proof.
  intros H. rewrite classified_array_data, list_lookup_fmap, H. reflexivity.
Qed.

Lemma cuts_not_nan :
  isnan cut_m0251 = false ∧ isnan cut_m0101 = false ∧ isnan cut_0100 = false ∧
  isnan cut_0270 = false ∧ isnan cut_0440 = false ∧ isnan cut_0660 = false.
Proof. vm_compute. tauto. Qed.

(** The cut points increase. *)
Lemma cuts_increase :
  fle cut_m0251 cut_m0101 ∧ fle cut_m0101 cut_0100 ∧ fle cut_0100 cut_0270 ∧
  fle cut_0270 cut_0440 ∧ fle cut_0440 cut_0660.
Proof. vm_compute. tauto. Qed.

Lemma isfinite_not_nan v : isfinite v = true → isnan v = false.
Proof. now destruct v. Qed.

(** On a float that is not NaN the class is one of 1..7 and counts the
    cut points below the value. *)
Lemma class_of_cumulative v :
  isnan v = false →
  1 ≤ class_of v ≤ 7 ∧
  (class_of v ≤ 1 ↔ fle v cut_m0251) ∧
  (class_of v ≤ 2 ↔ fle v cut_m0101) ∧
  (class_of v ≤ 3 ↔ fle v cut_0100) ∧
  (class_of v ≤ 4 ↔ fle v cut_0270) ∧
  (class_of v ≤ 5 ↔ fle v cut_0440) ∧
  (class_of v ≤ 6 ↔ fle v cut_0660).
Proof.
  intros Hv.
  destruct cuts_not_nan as (N1 & N2 & N3 & N4 & N5 & N6).
  destruct cuts_increase as (I1 & I2 & I3 & I4 & I5).
  unfold class_of, fle in *.
  rewrite !SFltb_negb_leb by assumption.
  pose proof (SFleb_trans v) as T.
  destruct (SFleb v cut_m0251) eqn:E1.
  { rewrite (T _ _ E1 I1), (T _ _ (T _ _ E1 I1) I2),
      (T _ _ (T _ _ (T _ _ E1 I1) I2) I3),
      (T _ _ (T _ _ (T _ _ (T _ _ E1 I1) I2) I3) I4),
      (T _ _ (T _ _ (T _ _ (T _ _ (T _ _ E1 I1) I2) I3) I4) I5).
    simpl. change (1 mod 256) with 1. intuition lia. }
  destruct (SFleb v cut_m0101) eqn:E2.
  { rewrite (T _ _ E2 I2), (T _ _ (T _ _ E2 I2) I3),
      (T _ _ (T _ _ (T _ _ E2 I2) I3) I4),
      (T _ _ (T _ _ (T _ _ (T _ _ E2 I2) I3) I4) I5).
    simpl. change (2 mod 256) with 2. intuition (try lia; try discriminate). }
  destruct (SFleb v cut_0100) eqn:E3.
  { rewrite (T _ _ E3 I3), (T _ _ (T _ _ E3 I3) I4),
      (T _ _ (T _ _ (T _ _ E3 I3) I4) I5).
    simpl. change (3 mod 256) with 3. intuition (try lia; try discriminate). }
  destruct (SFleb v cut_0270) eqn:E4.
  { rewrite (T _ _ E4 I4), (T _ _ (T _ _ E4 I4) I5).
    simpl. change (4 mod 256) with 4. intuition (try lia; try discriminate). }
  destruct (SFleb v cut_0440) eqn:E5.
  { rewrite (T _ _ E5 I5).
    simpl. change (5 mod 256) with 5. intuition (try lia; try discriminate). }
  destruct (SFleb v cut_0660) eqn:E6.
  { simpl. change (6 mod 256) with 6. intuition (try lia; try discriminate). }
  simpl. change (7 mod 256) with 7. intuition (try lia; try discriminate).
Qed.

Lemma flt_iff_not_fle t v :
  isnan t = false → isnan v = false → (flt t v ↔ ¬ fle v t).
Proof.
  intros Ht Hv. unfold flt, fle. rewrite SFltb_negb_leb by assumption.
  destruct (SFleb v t); simpl; intuition congruence.
Qed.

(** The float32 values of the six cut points. *)
Example cut_values :
  cut_m0251 = S754_finite true 8422162 (-25) ∧
  cut_m0101 = S754_finite true 13555991 (-27) ∧
  cut_0100 = S754_finite false 13421773 (-27) ∧
  cut_0270 = S754_finite false 9059697 (-25) ∧
  cut_0440 = S754_finite false 14763950 (-25) ∧
  cut_0660 = S754_finite false 11072963 (-24).
Proof. vm_compute. tauto. Qed.

(** C1. For every finite dNBR value [v] at a pixel, [classify_severity]
    (lines 46-57) gives the pixel exactly the class of the seven-row
    table: 1 if v <= -0.251, 2 if -0.251 < v <= -0.101, 3 if
    -0.101 < v <= 0.100, 4 if 0.100 < v <= 0.270, 5 if 0.270 < v <= 0.440,
    6 if 0.440 < v <= 0.660, 7 if v > 0.660, the comparisons being the
    float32 comparisons of the code against its literals.  Upper edges are
    inclusive: the values -0.251, 0.100 and 0.660 get classes 1, 3, 6. *)
Theorem classify_severity_table (dnbr_array : ndarray spec_float) (i : nat)
    (v : spec_float) :
  data dnbr_array !! i = Some v →
  isfinite v = true →
  ∃ c, data (classified_array dnbr_array) !! i = Some c ∧
    (c = 1 ↔ fle v cut_m0251) ∧
    (c = 2 ↔ flt cut_m0251 v ∧ fle v cut_m0101) ∧
    (c = 3 ↔ flt cut_m0101 v ∧ fle v cut_0100) ∧
    (c = 4 ↔ flt cut_0100 v ∧ fle v cut_0270) ∧
    (c = 5 ↔ flt cut_0270 v ∧ fle v cut_0440) ∧
    (c = 6 ↔ flt cut_0440 v ∧ fle v cut_0660) ∧
    (c = 7 ↔ flt cut_0660 v) ∧
    (v = cut_m0251 → c = 1) ∧ (v = cut_0100 → c = 3) ∧ (v = cut_0660 → c = 6).
Proof.
  intros Hi Hfin. exists (class_of v).
  split; [now apply classified_array_lookup|].
  assert (Hv : isnan v = false) by now apply isfinite_not_nan.
  destruct cuts_not_nan as (N1 & N2 & N3 & N4 & N5 & N6).
  destruct (class_of_cumulative v Hv) as (Hr & C1 & C2 & C3 & C4 & C5 & C6).
  assert (B1 : v = cut_m0251 → class_of v = 1) by (intros ->; now vm_compute).
  assert (B3 : v = cut_0100 → class_of v = 3) by (intros ->; now vm_compute).
  assert (B6 : v = cut_0660 → class_of v = 6) by (intros ->; now vm_compute).
  rewrite !flt_iff_not_fle by assumption.
  rewrite <- C1, <- C2, <- C3, <- C4, <- C5, <- C6.
  repeat split; try lia; assumption.
Qed.

Lemma classify_severity_table_witness :
  ∃ c, data (classified_array
               (mk_ndarray (1, 2)%nat
                  [cut_0660; binary32.of_binary64 (binary64.literal 6600001 10000000)]))
         !! 1%nat = Some c ∧
    (c = 1 ↔ fle (S754_finite false 11072964 (-24)) cut_m0251) ∧
    (c = 2 ↔ flt cut_m0251 (S754_finite false 11072964 (-24)) ∧
             fle (S754_finite false 11072964 (-24)) cut_m0101) ∧
    (c = 3 ↔ flt cut_m0101 (S754_finite false 11072964 (-24)) ∧
             fle (S754_finite false 11072964 (-24)) cut_0100) ∧
    (c = 4 ↔ flt cut_0100 (S754_finite false 11072964 (-24)) ∧
             fle (S754_finite false 11072964 (-24)) cut_0270) ∧
    (c = 5 ↔ flt cut_0270 (S754_finite false 11072964 (-24)) ∧
             fle (S754_finite false 11072964 (-24)) cut_0440) ∧
    (c = 6 ↔ flt cut_0440 (S754_finite false 11072964 (-24)) ∧
             fle (S754_finite false 11072964 (-24)) cut_0660) ∧
    (c = 7 ↔ flt cut_0660 (S754_finite false 11072964 (-24))) ∧
    (S754_finite false 11072964 (-24) = cut_m0251 → c = 1) ∧
    (S754_finite false 11072964 (-24) = cut_0100 → c = 3) ∧
    (S754_finite false 11072964 (-24) = cut_0660 → c = 6).
Proof.
  apply (classify_severity_table _ 1%nat (S754_finite false 11072964 (-24)));
    vm_compute; reflexivity.
Defined.

(** The seven conditions at one pixel. *)
Lemma conditions_at a i v :
  data a !! i = Some v →
  (λ c : ndarray bool, data c !! i) <$> conditions a =
  Some <$> [ SFleb v cut_m0251;
             SFltb cut_m0251 v && SFleb v cut_m0101;
             SFltb cut_m0101 v && SFleb v cut_0100;
             SFltb cut_0100 v && SFleb v cut_0270;
             SFltb cut_0270 v && SFleb v cut_0440;
             SFltb cut_0440 v && SFleb v cut_0660;
             SFltb cut_0660 v ].
Proof.
  intros H. unfold conditions, np.logical_and, np.less_equal, np.greater,
    np.elementwise2, np.elementwise.
  fold cut_m0251 cut_m0101 cut_0100 cut_0270 cut_0440 cut_0660.
  generalize cut_m0251 cut_m0101 cut_0100 cut_0270 cut_0440 cut_0660.
  intros t1 t2 t3 t4 t5 t6. cbn [fmap list_fmap data].
  rewrite !lookup_zip_with, !list_lookup_fmap, H. reflexivity.
Qed.

Lemma filter_fmap_length {A B} (f : A → B) (P : B → Prop)
    `{!∀ y, Decision (P y)} (l : list A) :
  length (filter (λ x, P (f x)) l) = length (filter P (f <$> l)).
Proof.
  induction l as [|x l IH]; [reflexivity|].
  rewrite fmap_cons, !filter_cons. destruct (decide (P (f x))); simpl; lia.
Qed.

(** C10. The classification of [classify_severity] is monotone on finite
    values: of two pixels with finite values v1 <= v2, the first gets a
    class no greater than the second's; and a finite value satisfies
    exactly one of the seven conditions. *)
Theorem classify_severity_monotone (dnbr_array : ndarray spec_float)
    (i j : nat) (v1 v2 : spec_float) :
  data dnbr_array !! i = Some v1 →
  data dnbr_array !! j = Some v2 →
  isfinite v1 = true → isfinite v2 = true →
  fle v1 v2 →
  (∃ c1 c2, data (classified_array dnbr_array) !! i = Some c1 ∧
            data (classified_array dnbr_array) !! j = Some c2 ∧
            c1 ≤ c2) ∧
  length (filter (λ cond : ndarray bool, data cond !! i = Some true)
            (conditions dnbr_array)) = 1%nat.
Proof.
  intros Hi Hj F1 F2 Hle.
  apply isfinite_not_nan in F1, F2.
  destruct cuts_not_nan as (N1 & N2 & N3 & N4 & N5 & N6).
  split.
  - exists (class_of v1), (class_of v2).
    split; [now apply classified_array_lookup|].
    split; [now apply classified_array_lookup|].
    destruct (class_of_cumulative v1 F1) as (R1 & A1 & A2 & A3 & A4 & A5 & A6).
    destruct (class_of_cumulative v2 F2) as (R2 & B1 & B2 & B3 & B4 & B5 & B6).
    pose proof (SFleb_trans v1 v2) as T. unfold fle in *.
    assert (class_of v2 ≤ 1 → class_of v1 ≤ 1) by (rewrite A1, B1; eauto).
    assert (class_of v2 ≤ 2 → class_of v1 ≤ 2) by (rewrite A2, B2; eauto).
    assert (class_of v2 ≤ 3 → class_of v1 ≤ 3) by (rewrite A3, B3; eauto).
    assert (class_of v2 ≤ 4 → class_of v1 ≤ 4) by (rewrite A4, B4; eauto).
    assert (class_of v2 ≤ 5 → class_of v1 ≤ 5) by (rewrite A5, B5; eauto).
    assert (class_of v2 ≤ 6 → class_of v1 ≤ 6) by (rewrite A6, B6; eauto).
    lia.
  - etrans; [exact (filter_fmap_length (λ c : ndarray bool, data c !! i)
                      (λ o, o = Some true) _)|].
    rewrite (conditions_at _ _ _ Hi).
    rewrite !SFltb_negb_leb by assumption.
    destruct cuts_increase as (I1 & I2 & I3 & I4 & I5).
    pose proof (SFleb_trans v1) as T. unfold fle in *.
    destruct (SFleb v1 cut_m0251) eqn:E1;
      [pose proof (T _ _ E1 I1) as E2; rewrite E2|
       destruct (SFleb v1 cut_m0101) eqn:E2].
    1,2: pose proof (T _ _ E2 I2) as E3; pose proof (T _ _ E3 I3) as E4;
         pose proof (T _ _ E4 I4) as E5; pose proof (T _ _ E5 I5) as E6;
         rewrite E3, E4, E5, E6; reflexivity.
    destruct (SFleb v1 cut_0100) eqn:E3.
    { pose proof (T _ _ E3 I3) as E4;
      pose proof (T _ _ E4 I4) as E5; pose proof (T _ _ E5 I5) as E6;
      rewrite E4, E5, E6; reflexivity. }
    destruct (SFleb v1 cut_0270) eqn:E4.
    { pose proof (T _ _ E4 I4) as E5; pose proof (T _ _ E5 I5) as E6;
      rewrite E5, E6; reflexivity. }
    destruct (SFleb v1 cut_0440) eqn:E5.
    { pose proof (T _ _ E5 I5) as E6; rewrite E6; reflexivity. }
    destruct (SFleb v1 cut_0660) eqn:E6; reflexivity.
Qed.

Lemma classify_severity_monotone_witness :
  (∃ c1 c2,
     data (classified_array
             (mk_ndarray (1, 2)%nat [S754_zero false; cut_0660]))
       !! 0%nat = Some c1 ∧
     data (classified_array
             (mk_ndarray (1, 2)%nat [S754_zero false; cut_0660]))
       !! 1%nat = Some c2 ∧
     c1 ≤ c2) ∧
  length (filter (λ cond : ndarray bool, data cond !! 0%nat = Some true)
            (conditions (mk_ndarray (1, 2)%nat [S754_zero false; cut_0660])))
  = 1%nat.
Proof.
  apply (classify_severity_monotone _ 0%nat 1%nat (S754_zero false) cut_0660);
    vm_compute; reflexivity.
Defined.

(** ** dNBR, pixel by pixel *)

Lemma dnbr_lookup pre_nbr post_nbr i p q :
  data pre_nbr !! i = Some p → data post_nbr !! i = Some q →
  data (dnbr pre_nbr post_nbr) !! i =
  Some (binary32.sub (np.nan_to_num1 (S754_zero false) p)
                     (np.nan_to_num1 (S754_zero false) q)).
Proof.
  intros Hp Hq. unfold dnbr, np.subtract, np.nan_to_num, np.elementwise2,
    np.elementwise. cbn [data].
  rewrite lookup_zip_with, !list_lookup_fmap, Hp, Hq. reflexivity.
Qed.

Lemma SFeqb_refl x : isnan x = false → SFeqb x x = true.
Proof.
  intros Hx. destruct (SFcompare_key x x Hx Hx) as (c & Hc & H).
  unfold SFeqb. rewrite Hc.
  destruct c; try reflexivity; now apply lex_lt_irrefl in H.
Qed.

(** C2 (amended). At every pixel [calculate_dnbr] (line 26) replaces a NaN
    by 0.0, in the pre-fire and in the post-fire array independently, and
    subtracts afterwards: the output is pre - post of the substituted
    values.  A finite value is never replaced, whatever no-data value the
    metadata declares.  So a NaN paired with a finite value gives that
    value when it is the pre-fire one and its negation when it is the
    post-fire one (for a positive zero the negation is the zero, an equal
    float). *)
Theorem dnbr_nan_as_zero (pre_nbr post_nbr : ndarray spec_float) (i : nat)
    (p q : spec_float) :
  data pre_nbr !! i = Some p →
  data post_nbr !! i = Some q →
  ∃ p' q' d,
    data (np.nan_to_num pre_nbr (S754_zero false)) !! i = Some p' ∧
    data (np.nan_to_num post_nbr (S754_zero false)) !! i = Some q' ∧
    data (dnbr pre_nbr post_nbr) !! i = Some d ∧
    d = binary32.sub p' q' ∧
    (isnan p = true → p' = S754_zero false) ∧
    (isnan q = true → q' = S754_zero false) ∧
    (isfinite p = true → p' = p) ∧
    (isfinite q = true → q' = q) ∧
    (isfinite p = true → isnan q = true → d = p) ∧
    (isnan p = true → isfinite q = true →
       SFeqb d (SFopp q) = true ∧ (q ≠ S754_zero false → d = SFopp q)).
Proof.
  intros Hp Hq.
  exists (np.nan_to_num1 (S754_zero false) p),
         (np.nan_to_num1 (S754_zero false) q),
         (binary32.sub (np.nan_to_num1 (S754_zero false) p)
                       (np.nan_to_num1 (S754_zero false) q)).
  split; [unfold np.nan_to_num, np.elementwise; cbn [data];
          now rewrite list_lookup_fmap, Hp|].
  split; [unfold np.nan_to_num, np.elementwise; cbn [data];
          now rewrite list_lookup_fmap, Hq|].
  split; [now apply dnbr_lookup|].
  split; [reflexivity|].
  repeat split.
  - now destruct p.
  - now destruct q.
  - now destruct p.
  - now destruct q.
  - destruct p as [[]|[]| |[] ? ?], q; try discriminate; reflexivity.
  - destruct p, q as [[]|[]| |[] ? ?]; try discriminate;
      try reflexivity; cbn; now rewrite Z.compare_refl, Pos.compare_cont_refl.
  - intros Hz. destruct p, q as [[]|[]| |[] ? ?]; try discriminate;
      try reflexivity; now destruct Hz.
Qed.

Lemma dnbr_nan_as_zero_witness :
  ∃ p' q' d,
    data (np.nan_to_num (mk_ndarray (1, 2)%nat [S754_nan; cut_0440])
            (S754_zero false)) !! 0%nat = Some p' ∧
    data (np.nan_to_num (mk_ndarray (1, 2)%nat [cut_0270; S754_nan])
            (S754_zero false)) !! 0%nat = Some q' ∧
    data (dnbr (mk_ndarray (1, 2)%nat [S754_nan; cut_0440])
               (mk_ndarray (1, 2)%nat [cut_0270; S754_nan])) !! 0%nat = Some d ∧
    d = binary32.sub p' q' ∧
    (isnan S754_nan = true → p' = S754_zero false) ∧
    (isnan cut_0270 = true → q' = S754_zero false) ∧
    (isfinite S754_nan = true → p' = S754_nan) ∧
    (isfinite cut_0270 = true → q' = cut_0270) ∧
    (isfinite S754_nan = true → isnan cut_0270 = true → d = S754_nan) ∧
    (isnan S754_nan = true → isfinite cut_0270 = true →
       SFeqb d (SFopp cut_0270) = true ∧
       (cut_0270 ≠ S754_zero false → d = SFopp cut_0270)).
Proof.
  apply (dnbr_nan_as_zero _ _ 0%nat S754_nan cut_0270); reflexivity.
Defined.

(** ** The three functions as programs on the file system *)

Lemma calculate_dnbr_returns fs pre_fire_path post_fire_path output_dnbr_path
    src_pre src_post l1 l2 :
  fs !! pre_fire_path = Some src_pre →
  fs !! post_fire_path = Some src_post →
  band1 src_pre = Float32Samples l1 →
  band1 src_post = Float32Samples l2 →
  band_shape (read1 src_pre) = band_shape (read1 src_post) →
  calculate_dnbr pre_fire_path post_fire_path output_dnbr_path fs =
  (Returns output_dnbr_path,
   <[output_dnbr_path :=
       mk_tif (profile_update (profile src_pre) float32 1 "lzw")
         (Float32Samples
            (data (dnbr (mk_ndarray (band_shape (read1 src_pre)) l1)
                        (mk_ndarray (band_shape (read1 src_post)) l2))))]> fs).
Proof.
  intros Hpre Hpost B1 B2 Hsh.
  unfold calculate_dnbr, mbind, io_bind, rasterio.open.
  rewrite Hpre, Hpost.
  destruct (decide _) as [Hne|_]; [contradiction|].
  unfold read1 in *. rewrite B1, B2 in *. reflexivity.
Qed.

Lemma classify_severity_returns fs dnbr_tif_path output_classified_path src l :
  fs !! dnbr_tif_path = Some src →
  band1 src = Float32Samples l →
  classify_severity dnbr_tif_path output_classified_path fs =
  (Returns output_classified_path,
   <[output_classified_path :=
       mk_tif (profile_update (profile src) uint8 1 "lzw")
         (UInt8Samples
            (data (classified_array
                     (mk_ndarray (height (profile src), width (profile src)) l))))]>
     fs).
Proof.
  intros Hsrc B. unfold classify_severity, mbind, io_bind, rasterio.open.
  rewrite Hsrc. unfold read1. rewrite B. reflexivity.
Qed.

Lemma class_of_range v : 0 ≤ class_of v ≤ 7.
Proof.
  unfold class_of.
  repeat match goal with
         | |- context [if ?b then _ else _] => destruct b
         end; now vm_compute.
Qed.

(** C7. A pixel that meets none of the seven conditions, as a NaN does,
    gets class 0 from [classify_severity]; every pixel of the classified
    output is in 0..7; the output has the shape and the geotransform of the
    input and is stored as 8-bit unsigned integers. *)
Theorem classify_severity_output (fs : FS)
    (dnbr_tif_path output_classified_path : string)
    (src : GeoTiff) (l : list spec_float) :
  fs !! dnbr_tif_path = Some src →
  band1 src = Float32Samples l →
  ∃ fs' dst cls,
    classify_severity dnbr_tif_path output_classified_path fs
      = (Returns output_classified_path, fs') ∧
    fs' !! output_classified_path = Some dst ∧
    band1 dst = UInt8Samples cls ∧
    dtype_of (profile dst) = uint8 ∧
    band_shape (read1 dst) = band_shape (read1 src) ∧
    length cls = length l ∧
    transform (profile dst) = transform (profile src) ∧
    crs (profile dst) = crs (profile src) ∧
    (∀ i c, cls !! i = Some c → 0 ≤ c ≤ 7 ∧ c < 2 ^ 8) ∧
    (∀ i, l !! i = Some S754_nan → cls !! i = Some 0) ∧
    (∀ i v, l !! i = Some v →
       Forall (λ cond : ndarray bool, data cond !! i = Some false)
         (conditions (mk_ndarray (height (profile src), width (profile src)) l)) →
       cls !! i = Some 0) ∧
    (∀ i v, l !! i = Some v → isfinite v = true →
       ∃ c, cls !! i = Some c ∧ 1 ≤ c ≤ 7).
Proof.
  intros Hsrc B. eexists _, _, _.
  split; [exact (classify_severity_returns _ _ _ _ _ Hsrc B)|].
  split; [apply lookup_insert_eq|].
  split; [reflexivity|].
  split; [reflexivity|].
  split; [unfold read1; cbn; rewrite B; reflexivity|].
  rewrite classified_array_data. cbn [data].
  split; [apply length_fmap|].
  split; [reflexivity|].
  split; [reflexivity|].
  split; [|split; [|split]].
  - intros i c. rewrite list_lookup_fmap.
    destruct (l !! i) as [v|]; [|discriminate]. intros [= <-].
    pose proof (class_of_range v). lia.
  - intros i Hi. rewrite list_lookup_fmap, Hi. reflexivity.
  - intros i v Hi Hnone. rewrite list_lookup_fmap, Hi. cbn. f_equal.
    apply (Forall_fmap (λ c : ndarray bool, data c !! i)
             (λ o, o = Some false)) in Hnone.
    rewrite (conditions_at (mk_ndarray _ l) i v Hi) in Hnone.
    rewrite !fmap_cons, !Forall_cons in Hnone.
    assert (Hinj : ∀ b : bool, Some b = Some false → b = false)
      by (intros b [= ->]; reflexivity).
    destruct Hnone as (E1 & E2 & E3 & E4 & E5 & E6 & E7 & _).
    apply Hinj in E1, E2, E3, E4, E5, E6, E7.
    unfold class_of. now rewrite E1, E2, E3, E4, E5, E6, E7.
  - intros i v Hi Hfin. exists (class_of v).
    rewrite list_lookup_fmap, Hi. split; [reflexivity|].
    destruct (class_of_cumulative v (isfinite_not_nan v Hfin)) as [Hr _].
    exact Hr.
Qed.

Lemma classify_severity_output_witness :
  ∃ fs' dst cls,
    classify_severity "dnbr.tif" "classified.tif" fs_dnbr
      = (Returns "classified.tif"%string, fs') ∧
    fs' !! "classified.tif" = Some dst ∧
    band1 dst = UInt8Samples cls ∧
    dtype_of (profile dst) = uint8 ∧
    band_shape (read1 dst)
      = band_shape (read1 (mk_tif (sample_profile float32 3 1)
                             (Float32Samples [S754_nan; zero; cut_0660]))) ∧
    length cls = length [S754_nan; zero; cut_0660] ∧
    transform (profile dst) = transform (sample_profile float32 3 1) ∧
    crs (profile dst) = crs (sample_profile float32 3 1) ∧
    (∀ i c, cls !! i = Some c → 0 ≤ c ≤ 7 ∧ c < 2 ^ 8) ∧
    (∀ i, [S754_nan; zero; cut_0660] !! i = Some S754_nan → cls !! i = Some 0) ∧
    (∀ i v, [S754_nan; zero; cut_0660] !! i = Some v →
       Forall (λ cond : ndarray bool, data cond !! i = Some false)
         (conditions (mk_ndarray (1%nat, 3%nat) [S754_nan; zero; cut_0660])) →
       cls !! i = Some 0) ∧
    (∀ i v, [S754_nan; zero; cut_0660] !! i = Some v → isfinite v = true →
       ∃ c, cls !! i = Some c ∧ 1 ≤ c ≤ 7).
Proof.
  apply (classify_severity_output fs_dnbr "dnbr.tif" "classified.tif"
           (mk_tif (sample_profile float32 3 1)
              (Float32Samples [S754_nan; zero; cut_0660]))
           [S754_nan; zero; cut_0660]);
    vm_compute; reflexivity.
Defined.

(** C3 (amended). When the pre-fire and post-fire rasters differ in width
    or height, [calculate_dnbr] raises [ValueError] with the message
    "Image size mismatch." - an exception that is not rasterio's I/O
    error - before anything is written: the file system is unchanged. *)
Theorem calculate_dnbr_shape_mismatch (fs : FS)
    (pre_fire_path post_fire_path output_dnbr_path : string)
    (src_pre src_post : GeoTiff) :
  fs !! pre_fire_path = Some src_pre →
  fs !! post_fire_path = Some src_post →
  width (profile src_pre) ≠ width (profile src_post) ∨
  height (profile src_pre) ≠ height (profile src_post) →
  ∃ e, calculate_dnbr pre_fire_path post_fire_path output_dnbr_path fs
         = (Raises e, fs) ∧
       e = ValueError "Image size mismatch." ∧
       exn_class e ≠ exn_class (RasterioIOError pre_fire_path).
Proof.
  intros Hpre Hpost Hne. eexists. split; [|split; [reflexivity|discriminate]].
  unfold calculate_dnbr, mbind, io_bind, rasterio.open.
  rewrite Hpre, Hpost.
  destruct (decide _) as [_|Heq]; [reflexivity|].
  exfalso. apply Heq. intros Hsh.
  unfold read1 in Hsh.
  destruct (band1 src_pre), (band1 src_post); cbn in Hsh;
    injection Hsh as Hh Hw; destruct Hne; contradiction.
Qed.

Lemma calculate_dnbr_shape_mismatch_witness :
  ∃ e, calculate_dnbr "pre_nbr.tif" "post_nbr.tif" "dnbr.tif" fs_mismatch
         = (Raises e, fs_mismatch) ∧
       e = ValueError "Image size mismatch." ∧
       exn_class e ≠ exn_class (RasterioIOError "pre_nbr.tif").
Proof.
  apply (calculate_dnbr_shape_mismatch fs_mismatch _ _ _
           (constant_nbr 100 100 half) (constant_nbr 50 50 half));
    [reflexivity | reflexivity | left; cbn; lia].
Defined.

(** C3 as stated fails: with a 100 x 100 pre-fire and a 50 x 50 post-fire
    raster the exception raised is a [ValueError]; there is no
    ShapeMismatchError. *)
Lemma calculate_dnbr_no_ShapeMismatchError :
  ¬ ∃ e, (calculate_dnbr "pre_nbr.tif" "post_nbr.tif" "dnbr.tif" fs_mismatch).1
           = Raises e ∧
         exn_class e = "ShapeMismatchError"%string.
Proof.
  intros (e & He & Hc).
  assert (Hrun : (calculate_dnbr "pre_nbr.tif" "post_nbr.tif" "dnbr.tif"
                    fs_mismatch).1
                 = Raises (ValueError "Image size mismatch.")) by reflexivity.
  rewrite Hrun in He. injection He as <-. discriminate Hc.
Qed.

Lemma dnbr_length pre_nbr post_nbr :
  length (data (dnbr pre_nbr post_nbr))
  = (length (data pre_nbr) `min` length (data post_nbr))%nat.
Proof.
  unfold dnbr, np.subtract, np.nan_to_num, np.elementwise2, np.elementwise.
  cbn [data]. now rewrite length_zip_with, !length_fmap.
Qed.

(** C8 (amended). When every pixel of the pre-fire raster and of the
    post-fire raster is NaN, the dNBR raster that [calculate_dnbr] writes
    is exactly 0.0 at every pixel. *)
Theorem calculate_dnbr_all_nodata (fs : FS)
    (pre_fire_path post_fire_path output_dnbr_path : string)
    (src_pre src_post : GeoTiff) (l1 l2 : list spec_float) :
  fs !! pre_fire_path = Some src_pre →
  fs !! post_fire_path = Some src_post →
  band1 src_pre = Float32Samples l1 →
  band1 src_post = Float32Samples l2 →
  well_formed src_pre → well_formed src_post →
  band_shape (read1 src_pre) = band_shape (read1 src_post) →
  Forall (λ x, isnan x = true) l1 →
  Forall (λ x, isnan x = true) l2 →
  ∃ fs' dst out,
    calculate_dnbr pre_fire_path post_fire_path output_dnbr_path fs
      = (Returns output_dnbr_path, fs') ∧
    fs' !! output_dnbr_path = Some dst ∧
    band1 dst = Float32Samples out ∧
    length out = (height (profile src_pre) * width (profile src_pre))%nat ∧
    Forall (λ d, d = S754_zero false) out.
Proof.
  intros Hpre Hpost B1 B2 W1 W2 Hsh N1 N2. eexists _, _, _.
  split; [exact (calculate_dnbr_returns _ _ _ _ _ _ _ _ Hpre Hpost B1 B2 Hsh)|].
  split; [apply lookup_insert_eq|].
  split; [reflexivity|].
  unfold well_formed in *. rewrite B1 in W1. rewrite B2 in W2. cbn in W1, W2.
  assert (Hlen : length l1 = length l2).
  { rewrite W1, W2. unfold read1 in Hsh. rewrite B1, B2 in Hsh. cbn in Hsh.
    now injection Hsh as -> ->. }
  split.
  - rewrite dnbr_length. cbn [data]. lia.
  - apply Forall_lookup. intros i d Hd.
    destruct (lookup_lt_is_Some_2 l1 i) as [p Hp].
    { apply lookup_lt_Some in Hd. rewrite dnbr_length in Hd. cbn [data] in Hd. lia. }
    destruct (lookup_lt_is_Some_2 l2 i) as [q Hq].
    { apply lookup_lt_Some in Hp. lia. }
    rewrite (dnbr_lookup (mk_ndarray _ l1) (mk_ndarray _ l2) i p q Hp Hq) in Hd.
    injection Hd as <-.
    rewrite Forall_lookup in N1, N2.
    specialize (N1 i p Hp). specialize (N2 i q Hq).
    destruct p, q; try discriminate. reflexivity.
Qed.

Lemma calculate_dnbr_all_nodata_witness :
  ∃ fs' dst out,
    calculate_dnbr "pre_nbr.tif" "post_nbr.tif" "dnbr.tif" fs_nodata
      = (Returns "dnbr.tif"%string, fs') ∧
    fs' !! "dnbr.tif" = Some dst ∧
    band1 dst = Float32Samples out ∧
    length out = (height (profile (constant_nbr 2 2 S754_nan))
                  * width (profile (constant_nbr 2 2 S754_nan)))%nat ∧
    Forall (λ d, d = S754_zero false) out.
Proof.
  apply (calculate_dnbr_all_nodata fs_nodata _ _ _
           (constant_nbr 2 2 S754_nan) (constant_nbr 2 2 S754_nan)
           (replicate 4 S754_nan) (replicate 4 S754_nan));
    try reflexivity; repeat constructor.
Defined.

(** C2 as stated fails for a no-data value that the metadata declare:
    with the no-data value -9999, the no-data pixel over the valid pixel
    0.27 gives -9999.27, not -0.27, and the valid pixel 0.44 over the
    no-data pixel gives 9999.44, not 0.44. *)
Lemma calculate_dnbr_keeps_declared_nodata :
  ∃ fs' src_pre src_post dst,
    fs_sentinel !! "pre_nbr.tif" = Some src_pre ∧
    fs_sentinel !! "post_nbr.tif" = Some src_post ∧
    nodata (profile src_pre) = Some (binary64.of_Z (-9999)) ∧
    nodata (profile src_post) = Some (binary64.of_Z (-9999)) ∧
    band1 src_pre = Float32Samples [float32_of_Z (-9999); cut_0440] ∧
    band1 src_post = Float32Samples [cut_0270; float32_of_Z (-9999)] ∧
    calculate_dnbr "pre_nbr.tif" "post_nbr.tif" "dnbr.tif" fs_sentinel
      = (Returns "dnbr.tif"%string, fs') ∧
    fs' !! "dnbr.tif" = Some dst ∧
    band1 dst
    = Float32Samples
        [binary32.of_binary64 (binary64.literal (-999927) 100);
         binary32.of_binary64 (binary64.literal 999944 100)] ∧
    SFeqb (binary32.of_binary64 (binary64.literal (-999927) 100))
          (SFopp cut_0270) = false ∧
    SFeqb (binary32.of_binary64 (binary64.literal 999944 100)) cut_0440
      = false.
Proof.
  eexists _, (mk_tif (nodata_profile (-9999) 2 1)
                (Float32Samples [float32_of_Z (-9999); cut_0440])),
          (mk_tif (nodata_profile (-9999) 2 1)
             (Float32Samples [cut_0270; float32_of_Z (-9999)])), _.
  split; [reflexivity|]. split; [reflexivity|]. split; [reflexivity|].
  split; [reflexivity|]. split; [reflexivity|]. split; [reflexivity|].
  split.
  { apply (calculate_dnbr_returns fs_sentinel _ _ _
             (mk_tif (nodata_profile (-9999) 2 1)
                (Float32Samples [float32_of_Z (-9999); cut_0440]))
             (mk_tif (nodata_profile (-9999) 2 1)
                (Float32Samples [cut_0270; float32_of_Z (-9999)]))
             [float32_of_Z (-9999); cut_0440]
             [cut_0270; float32_of_Z (-9999)]); reflexivity. }
  split; [apply lookup_insert_eq|].
  split; [vm_compute; reflexivity|split; reflexivity].
Qed.

(** C8 as stated fails for the no-data values that the metadata declare:
    two rasters that hold nothing but their no-data values, -9999 and
    -32768, give 22769.0 at every pixel. *)
Lemma calculate_dnbr_declared_nodata_not_zero :
  ∃ fs' src_pre src_post dst,
    fs_all_sentinel !! "pre_nbr.tif" = Some src_pre ∧
    fs_all_sentinel !! "post_nbr.tif" = Some src_post ∧
    nodata (profile src_pre) = Some (binary64.of_Z (-9999)) ∧
    nodata (profile src_post) = Some (binary64.of_Z (-32768)) ∧
    band1 src_pre = Float32Samples (replicate 4 (float32_of_Z (-9999))) ∧
    band1 src_post = Float32Samples (replicate 4 (float32_of_Z (-32768))) ∧
    calculate_dnbr "pre_nbr.tif" "post_nbr.tif" "dnbr.tif" fs_all_sentinel
      = (Returns "dnbr.tif"%string, fs') ∧
    fs' !! "dnbr.tif" = Some dst ∧
    band1 dst = Float32Samples (replicate 4 (float32_of_Z 22769)) ∧
    SFeqb (float32_of_Z 22769) (S754_zero false) = false.
Proof.
  eexists _, (mk_tif (nodata_profile (-9999) 2 2)
                (Float32Samples (replicate 4 (float32_of_Z (-9999))))),
          (mk_tif (nodata_profile (-32768) 2 2)
             (Float32Samples (replicate 4 (float32_of_Z (-32768))))), _.
  split; [reflexivity|]. split; [reflexivity|]. split; [reflexivity|].
  split; [reflexivity|]. split; [reflexivity|]. split; [reflexivity|].
  split.
  { apply (calculate_dnbr_returns fs_all_sentinel _ _ _
             (mk_tif (nodata_profile (-9999) 2 2)
                (Float32Samples (replicate 4 (float32_of_Z (-9999)))))
             (mk_tif (nodata_profile (-32768) 2 2)
                (Float32Samples (replicate 4 (float32_of_Z (-32768)))))
             (replicate 4 (float32_of_Z (-9999)))
             (replicate 4 (float32_of_Z (-32768)))); reflexivity. }
  split; [apply lookup_insert_eq|].
  split; [vm_compute; reflexivity|reflexivity].
Qed.

(** ** [np.unique]: sorted distinct values with their counts *)

Lemma count_of_cons v x l :
  count_of v (x :: l) = if decide (x = v) then S (count_of v l) else count_of v l.
Proof. unfold count_of. rewrite filter_cons. now destruct (decide (x = v)). Qed.

Lemma count_of_zero v l : count_of v l = 0%nat ↔ v ∉ l.
Proof.
  induction l as [|x l IH]; [split; [intros _; apply not_elem_of_nil|done]|].
  rewrite count_of_cons, not_elem_of_cons.
  destruct (decide (x = v)) as [->|Hne]; [split; [discriminate|tauto]|].
  rewrite IH. intuition congruence.
Qed.

Lemma count_of_Permutation v l1 l2 : l1 ≡ₚ l2 → count_of v l1 = count_of v l2.
Proof. intros H. unfold count_of. now rewrite H. Qed.

Lemma run_lengths_head x l :
  ∃ c r, np.run_lengths (x :: l) = (x, c) :: r.
Proof.
  cbn. destruct (np.run_lengths l) as [|[y n] r]; [eauto|].
  destruct (decide (x = y)) as [->|]; eauto.
Qed.

Lemma run_lengths_sorted l :
  StronglySorted Z.le l →
  StronglySorted by_value (np.run_lengths l) ∧
  ∀ v c, (v, c) ∈ np.run_lengths l ↔ c = count_of v l ∧ c ≠ 0%nat.
Proof.
  induction 1 as [|x l Hl IH Hx]; [split; [constructor|]|].
  { intros v c. cbn. rewrite elem_of_nil. unfold count_of. cbn. lia. }
  destruct IH as [Hs Hc].
  assert (Hx0 : count_of x l = 0%nat ∨ ∃ t, l = x :: t).
  { destruct l as [|y t]; [now left|].
    destruct (decide (x = y)) as [->|Hne]; [right; eauto|left].
    apply count_of_zero. intros Hin.
    apply StronglySorted_inv in Hl as [_ Hy].
    rewrite Forall_forall in Hx, Hy.
    apply elem_of_cons in Hin as [->|Hin]; [done|].
    pose proof (Hx y (list_elem_of_here _ _)). pose proof (Hy x Hin). lia. }
  cbn [np.run_lengths]. destruct (np.run_lengths l) as [|[y n] r] eqn:Er.
  - assert (l = []) as ->.
    { destruct l as [|y t]; [done|].
      destruct (run_lengths_head y t) as (c & r & E). congruence. }
    split; [repeat constructor|].
    intros v c. rewrite list_elem_of_singleton, count_of_cons.
    unfold count_of; cbn. destruct (decide (x = v)); split.
    + intros [= -> ->]. lia.
    + intros [-> _]. congruence.
    + intros [= -> ->]. congruence.
    + lia.
  - assert (Hy : ∃ t, l = y :: t).
    { destruct l as [|z t]; [discriminate|].
      destruct (run_lengths_head z t) as (c & r0 & E).
      rewrite E in Er. injection Er as -> _ _. eauto. }
    destruct Hy as [t ->].
    assert (Hxy : x ≤ y) by (rewrite Forall_forall in Hx; apply Hx; left).
    pose proof (proj1 (Hc y n) (list_elem_of_here _ _)) as [Hn Hn0].
    apply StronglySorted_inv in Hs as [Hr Hyr].
    assert (Hkeys : ∀ v c, (v, c) ∈ r → y < v).
    { intros v c Hin. rewrite Forall_forall in Hyr. apply (Hyr _ Hin). }
    destruct (decide (x = y)) as [->|Hne].
    + split.
      { constructor; [done|]. rewrite Forall_forall in *.
        intros p Hp. apply (Hyr p Hp). }
      intros v c. rewrite elem_of_cons, (count_of_cons v y (y :: t)).
      specialize (Hc v c). rewrite elem_of_cons in Hc.
      destruct (decide (y = v)) as [<-|Hv].
      * split.
        -- intros [[= ->]|Hin]; [lia|]. apply Hkeys in Hin. lia.
        -- intros [-> _]. left. congruence.
      * split.
        -- intros [[= -> _]|Hin]; [done|]. apply Hc. now right.
        -- intros Hcv. apply Hc in Hcv as [[= -> _]|Hin]; [done|now right].
    + assert (x < y) by lia. split.
      { constructor; [constructor; done|].
        constructor; [unfold by_value; cbn; lia|].
        rewrite Forall_forall. intros [v c] Hin.
        apply Hkeys in Hin. unfold by_value; cbn. lia. }
      destruct Hx0 as [Hx0|[t0 [= ? _]]]; [|done].
      intros v c. rewrite elem_of_cons, (count_of_cons v x (y :: t)).
      specialize (Hc v c).
      destruct (decide (x = v)) as [<-|Hv].
      * rewrite Hx0. split.
        -- intros [[= ->]|Hin]; [lia|].
           apply elem_of_cons in Hin as [[= -> _]|Hin]; [lia|].
           apply Hkeys in Hin. lia.
        -- intros [-> _]. now left.
      * rewrite <- Hc. split.
        -- intros [[= -> _]|Hin]; done.
        -- intros Hin. now right.
Qed.

Lemma unique_spec (a : ndarray Z) :
  StronglySorted by_value (np.unique a) ∧
  ∀ v c, (v, c) ∈ np.unique a ↔ c = count_of v (data a) ∧ c ≠ 0%nat.
Proof.
  unfold np.unique.
  destruct (run_lengths_sorted (merge_sort Z.le (data a))) as [Hs Hc].
  { apply StronglySorted_merge_sort; apply _. }
  split; [exact Hs|]. intros v c. rewrite Hc.
  now rewrite (count_of_Permutation v _ _ (merge_sort_Permutation Z.le (data a))).
Qed.

(** ** The class labels *)

Lemma class_labels_cases k label :
  class_labels !! k = Some label →
  (k, label) ∈ [ (1, "Enhanced Regrowth, High");
                 (2, "Enhanced Regrowth, Moderate");
                 (3, "Unburned");
                 (4, "Low-Severity Burn");
                 (5, "Moderate-Severity Burn");
                 (6, "High-Severity Burn");
                 (7, "Extreme-Severity Burn") ]%string.
Proof. intros H. now apply elem_of_list_to_map_2 in H. Qed.

Local Ltac label_cases H :=
  apply class_labels_cases in H;
  repeat (apply elem_of_cons in H as [H|H]);
  [simplify_eq..|now apply elem_of_nil in H].

Lemma class_labels_range k label :
  class_labels !! k = Some label → 1 ≤ k ≤ 7.
Proof. intros H. label_cases H; lia. Qed.

Lemma class_labels_inj k1 k2 label :
  class_labels !! k1 = Some label → class_labels !! k2 = Some label → k1 = k2.
Proof. intros H1 H2. label_cases H1; label_cases H2; done. Qed.

Lemma class_labels_not_total k :
  class_labels !! k ≠ Some "Total_Analyzed_Area"%string.
Proof. intros H. label_cases H. Qed.

Lemma class_labels_is_Some k : 1 ≤ k ≤ 7 → is_Some (class_labels !! k).
Proof.
  intros Hk.
  assert (k = 1 ∨ k = 2 ∨ k = 3 ∨ k = 4 ∨ k = 5 ∨ k = 6 ∨ k = 7)
    as [->|[->|[->|[->|[->|[->| ->]]]]]] by lia; eexists; reflexivity.
Qed.

Lemma class_labels_dec key :
  (∃ k, class_labels !! k = Some key) ∨ (∀ k, class_labels !! k ≠ Some key).
Proof.
  destruct (decide (Exists (λ k, class_labels !! k = Some key)
                      [1; 2; 3; 4; 5; 6; 7])) as [H|H].
  - left. apply Exists_exists in H as (k & _ & Hk). eauto.
  - right. intros k Hl. apply H, Exists_exists. exists k. split; [|exact Hl].
    apply class_labels_range in Hl.
    assert (k = 1 ∨ k = 2 ∨ k = 3 ∨ k = 4 ∨ k = 5 ∨ k = 6 ∨ k = 7)
      as [->|[->|[->|[->|[->|[->| ->]]]]]] by lia;
      repeat first [apply list_elem_of_here | apply list_elem_of_further].
Qed.

(** ** The loop of [calculate_area] *)

Section area_loop.
Context {F : Type} {arith : PyFloat F}.
Implicit Types (st : gmap string (area_entry F) * F) (U : list (Z * nat)).

Lemma area_fold_absent pixel_area_m2 U st label :
  (∀ k c, (k, c) ∈ U → class_labels !! k ≠ Some label) →
  (foldl (area_step pixel_area_m2) st U).1 !! label = st.1 !! label.
Proof.
  revert st. induction U as [|[v n] U IH]; intros st HU; [reflexivity|].
  cbn [foldl]. rewrite IH by (intros k c Hin; apply (HU k c); now right).
  destruct st as [stats total]. unfold area_step.
  destruct (class_labels !! v) as [l|] eqn:El; [|reflexivity].
  cbn [fst]. apply lookup_insert_ne. intros ->.
  now apply (HU v n (list_elem_of_here _ _)).
Qed.

Lemma area_fold_present pixel_area_m2 U st k c label :
  NoDup U.*1 → (k, c) ∈ U → class_labels !! k = Some label →
  (foldl (area_step pixel_area_m2) st U).1 !! label
  = Some (class_entry pixel_area_m2 k c).
Proof.
  revert st. induction U as [|[v n] U IH]; intros st Hnd Hin Hl.
  { now apply elem_of_nil in Hin. }
  rewrite fmap_cons in Hnd. apply NoDup_cons in Hnd as [Hv Hnd].
  cbn [foldl]. apply elem_of_cons in Hin as [[= -> ->]|Hin]; [|now apply IH].
  rewrite area_fold_absent.
  - destruct st as [stats total]. unfold area_step. rewrite Hl.
    cbn [fst]. apply lookup_insert_eq.
  - intros k' c' Hin' Hl'. apply Hv.
    rewrite (class_labels_inj _ _ _ Hl Hl').
    apply list_elem_of_fmap. now exists (k', c').
Qed.

Lemma area_fold_total pixel_area_m2 U st :
  (foldl (area_step pixel_area_m2) st U).2
  = foldl (λ acc (vc : Z * nat),
             fadd acc (fmul (of_int (Z.of_nat vc.2)) pixel_area_m2))
          st.2 (filter (λ vc : Z * nat, is_Some (class_labels !! vc.1)) U).
Proof.
  revert st. induction U as [|[v n] U IH]; intros st; [reflexivity|].
  cbn [foldl]. rewrite IH, filter_cons. destruct st as [stats total].
  unfold area_step. cbn [fst snd].
  destruct (class_labels !! v) as [l|] eqn:El.
  - destruct (decide _) as [_|Hn]; [reflexivity|]. destruct Hn. eauto.
  - destruct (decide _) as [[? [=]]|_]. reflexivity.
Qed.
End area_loop.

(** ** Lists sorted by value *)

Lemma by_value_NoDup_fst (U : list (Z * nat)) :
  StronglySorted by_value U → NoDup U.*1.
Proof.
  induction 1 as [|p U HU IH Hp]; [constructor|].
  rewrite fmap_cons. apply NoDup_cons. split; [|exact IH].
  intros Hin. apply list_elem_of_fmap in Hin as (q & Hq & Hin).
  rewrite Forall_forall in Hp. specialize (Hp q Hin).
  unfold by_value in Hp. lia.
Qed.

Lemma by_value_NoDup (U : list (Z * nat)) :
  StronglySorted by_value U → NoDup U.
Proof. intros H. eapply NoDup_fmap_1, by_value_NoDup_fst, H. Qed.

Lemma by_value_filter (P : Z * nat → Prop) `{!∀ p, Decision (P p)} U :
  StronglySorted by_value U → StronglySorted by_value (filter P U).
Proof.
  induction 1 as [|p U HU IH Hp]; [constructor|].
  rewrite filter_cons. destruct (decide (P p)); [|exact IH].
  constructor; [exact IH|]. rewrite Forall_forall in *.
  intros q Hq. apply list_elem_of_filter in Hq as [_ Hq]. now apply Hp.
Qed.

Lemma by_value_omap (h : Z → option (Z * nat)) (ks : list Z) :
  (∀ k p, h k = Some p → p.1 = k) →
  StronglySorted Z.lt ks → StronglySorted by_value (omap h ks).
Proof.
  intros Hh. induction 1 as [|k ks Hks IH Hk]; [constructor|].
  cbn [omap list_omap]. destruct (h k) as [p|] eqn:Ep; [|exact IH].
  constructor; [exact IH|]. apply Forall_forall.
  intros q Hq. apply list_elem_of_omap in Hq as (k' & Hin & Hq).
  unfold by_value. rewrite (Hh _ _ Ep), (Hh _ _ Hq).
  revert Hin. now apply Forall_forall.
Qed.

(** The pairs of [np.unique] that the loop keeps are those of the classes
    1 to 7 that occur, in ascending order. *)
Lemma unique_labelled (a : ndarray Z) :
  filter (λ vc : Z * nat, is_Some (class_labels !! vc.1)) (np.unique a)
  = omap (λ k, if decide (count_of k (data a) = 0%nat) then None
               else Some (k, count_of k (data a)))
         [1; 2; 3; 4; 5; 6; 7].
Proof.
  destruct (unique_spec a) as [Hs Hc].
  assert (Hh : ∀ k p,
             (if decide (count_of k (data a) = 0%nat) then None
              else Some (k, count_of k (data a))) = Some p → p.1 = k).
  { intros k p. destruct (decide _); [discriminate|]. now intros [= <-]. }
  assert (S1 : StronglySorted by_value
                 (filter (λ vc : Z * nat, is_Some (class_labels !! vc.1))
                    (np.unique a))) by now apply by_value_filter.
  assert (S2 : StronglySorted by_value
                 (omap (λ k, if decide (count_of k (data a) = 0%nat) then None
                             else Some (k, count_of k (data a)))
                    [1; 2; 3; 4; 5; 6; 7])).
  { apply by_value_omap; [exact Hh|]. repeat constructor. }
  apply (StronglySorted_unique_strong by_value); try assumption.
  { unfold by_value. intros. lia. }
  apply NoDup_Permutation; [now apply by_value_NoDup..|].
  intros [v c]. rewrite list_elem_of_filter, list_elem_of_omap, Hc. cbn [fst].
  split.
  - intros ([label Hl] & -> & Hne). exists v. split.
    + apply class_labels_range in Hl.
      assert (v = 1 ∨ v = 2 ∨ v = 3 ∨ v = 4 ∨ v = 5 ∨ v = 6 ∨ v = 7)
        as [->|[->|[->|[->|[->|[->| ->]]]]]] by lia;
        repeat first [apply list_elem_of_here | apply list_elem_of_further].
    + now destruct (decide _).
  - intros (k & Hk & Hp). destruct (decide _) as [|Hne]; [discriminate|].
    injection Hp as -> <-. split; [|done].
    apply class_labels_is_Some.
    repeat (apply elem_of_cons in Hk as [->|Hk]; [lia|]).
    now apply elem_of_nil in Hk.
Qed.

Lemma foldl_omap {A B C} (g : A → C → A) (h : B → option C) (l : list B) a :
  foldl g a (omap h l)
  = foldl (λ acc x, match h x with Some y => g acc y | None => acc end) a l.
Proof.
  revert a. induction l as [|x l IH]; intros a; [reflexivity|].
  cbn [omap list_omap foldl]. destruct (h x); cbn [foldl]; apply IH.
Qed.

Lemma foldl_pointwise {A B} (f g : A → B → A) (l : list B) a :
  (∀ acc x, f acc x = g acc x) → foldl f a l = foldl g a l.
Proof.
  intros Hfg. revert a. induction l as [|x l IH]; intros a; [reflexivity|].
  cbn [foldl]. now rewrite Hfg, IH.
Qed.

(** ** The report in closed form *)

Section area_stats_spec.
Context {F : Type} {arith : PyFloat F}.
Variables (a : ndarray Z) (pixel_area_m2 : F).

Lemma area_stats_unfold :
  area_stats a pixel_area_m2
  = <["Total_Analyzed_Area"%string :=
        mk_entry None
          (round (fdiv (foldl (area_step pixel_area_m2) (∅, of_int 0)
                          (np.unique a)).2 (of_int 10000)) 2)]>
      (foldl (area_step pixel_area_m2) (∅, of_int 0) (np.unique a)).1.
Proof.
  unfold area_stats.
  now destruct (foldl (area_step pixel_area_m2) (∅, of_int 0) (np.unique a)).
Qed.

Lemma area_stats_class k label :
  class_labels !! k = Some label →
  area_stats a pixel_area_m2 !! label
  = if decide (count_of k (data a) = 0%nat) then None
    else Some (class_entry pixel_area_m2 k (count_of k (data a))).
Proof.
  intros Hl. rewrite area_stats_unfold.
  rewrite lookup_insert_ne
    by (intros <-; now apply (class_labels_not_total k)).
  destruct (unique_spec a) as [Hs Hc].
  destruct (decide _) as [H0|Hn].
  - rewrite area_fold_absent; [apply lookup_empty|].
    intros k' c Hin Hl'. apply Hc in Hin as [-> Hne].
    now rewrite (class_labels_inj _ _ _ Hl' Hl) in Hne.
  - apply area_fold_present; [now apply by_value_NoDup_fst| |exact Hl].
    now apply Hc.
Qed.

Lemma area_stats_total :
  area_stats a pixel_area_m2 !! "Total_Analyzed_Area"
  = Some (mk_entry None
            (round (fdiv (total_area_m2 (data a) pixel_area_m2)
                         (of_int 10000)) 2)).
Proof.
  rewrite area_stats_unfold, lookup_insert_eq. do 4 f_equal.
  rewrite area_fold_total, unique_labelled, foldl_omap. cbn [snd].
  unfold total_area_m2. apply foldl_pointwise. intros acc k.
  now destruct (decide _).
Qed.

Lemma area_stats_other key :
  key ≠ "Total_Analyzed_Area"%string →
  (∀ k, class_labels !! k ≠ Some key) →
  area_stats a pixel_area_m2 !! key = None.
Proof.
  intros Hk Hl. rewrite area_stats_unfold, lookup_insert_ne by done.
  rewrite area_fold_absent; [apply lookup_empty|]. intros k c _. apply Hl.
Qed.
End area_stats_spec.

(** ** [calculate_area] on the file system *)

Section calculate_area_spec.
Context {F : Type} {arith : PyFloat F}.
Variable bounds : Profile → BoundingBox.
Variable calculate_default_transform :
  string → string → nat → nat → BoundingBox → exn + (Affine.t F * nat * nat).
Variable reproject :
  ndarray Z → nat * nat → Affine.t spec_float → string →
  Affine.t F → string → Resampling → exn + ndarray Z.

Lemma calculate_area_returns (fs : FS) classified_tif_path src pixels
    transform' width' height' reprojected_array :
  fs !! classified_tif_path = Some src →
  band1 src = UInt8Samples pixels →
  calculate_default_transform (crs (profile src)) "EPSG:3857"
    (width (profile src)) (height (profile src)) (bounds (profile src))
    = inr (transform', width', height') →
  reproject (mk_ndarray (height (profile src), width (profile src)) pixels)
    (height', width') (transform (profile src)) (crs (profile src))
    transform' "EPSG:3857" nearest
    = inr reprojected_array →
  calculate_area bounds calculate_default_transform reproject
    classified_tif_path fs
  = (Returns
       (area_stats
          (mk_ndarray (height (profile src), width (profile src)) pixels)
          (fmul (Affine.a transform') (fabs (Affine.e transform')))),
     fs).
Proof.
  intros Hsrc B Ht Hr. unfold calculate_area, mbind, io_bind, rasterio.open.
  rewrite Hsrc. unfold read1. rewrite B, Ht, Hr. reflexivity.
Qed.

(** The entry of a class that occurs, as the loop computes it: from the
    count of the value in the array as read (not reprojected) and the
    pixel area of the transform computed for EPSG:3857. *)
Lemma calculate_area_class_entry (fs : FS) (classified_tif_path : string)
    (src : GeoTiff) (pixels : list Z)
    (transform' : Affine.t F) (width' height' : nat)
    (reprojected_array : ndarray Z)
    (k : Z) (label : string) :
  fs !! classified_tif_path = Some src →
  band1 src = UInt8Samples pixels →
  calculate_default_transform (crs (profile src)) "EPSG:3857"
    (width (profile src)) (height (profile src)) (bounds (profile src))
    = inr (transform', width', height') →
  reproject (mk_ndarray (height (profile src), width (profile src)) pixels)
    (height', width') (transform (profile src)) (crs (profile src))
    transform' "EPSG:3857" nearest
    = inr reprojected_array →
  class_labels !! k = Some label →
  count_of k pixels ≠ 0%nat →
  ∃ report,
    calculate_area bounds calculate_default_transform reproject
      classified_tif_path fs = (Returns report, fs) ∧
    report !! label
    = Some (mk_entry (Some k)
              (round
                 (fdiv
                    (fmul (of_int (Z.of_nat (count_of k pixels)))
                          (fmul (Affine.a transform')
                                (fabs (Affine.e transform'))))
                    (of_int 10000))
                 2)).
Proof.
  intros Hsrc B Ht Hr Hl Hc. eexists.
  split; [exact (calculate_area_returns _ _ _ _ _ _ _ _ Hsrc B Ht Hr)|].
  rewrite (area_stats_class _ _ k label Hl). cbn [data].
  now destruct (decide _).
Qed.

Lemma count_of_filter (P : Z → Prop) `{!∀ x, Decision (P x)} k l :
  P k → count_of k (filter P l) = count_of k l.
Proof.
  intros Hk. unfold count_of. rewrite list_filter_filter. f_equal.
  apply list_filter_iff. intros x. split; [tauto|]. now intros ->.
Qed.

Lemma total_area_m2_filter (P : Z → Prop) `{!∀ x, Decision (P x)}
    (l : list Z) (pixel_area_m2 : F) :
  (∀ k, 1 ≤ k ≤ 7 → P k) →
  total_area_m2 (filter P l) pixel_area_m2 = total_area_m2 l pixel_area_m2.
Proof.
  intros HP. unfold total_area_m2. cbn [foldl].
  now rewrite !count_of_filter by (apply HP; lia).
Qed.

(** C9. The report of [calculate_area] has a per-class entry exactly for
    the class values 1 to 7 that occur in the array, and nothing besides
    these and the total.  Pixels of value 0 add to no entry and not to
    the total, which sums the pixels of the classes 1 to 7: the report is
    the one of the array without its 0 pixels. *)
Theorem calculate_area_present_classes (fs : FS)
    (classified_tif_path : string) (src : GeoTiff) (pixels : list Z)
    (transform' : Affine.t F) (width' height' : nat)
    (reprojected_array : ndarray Z) :
  fs !! classified_tif_path = Some src →
  band1 src = UInt8Samples pixels →
  calculate_default_transform (crs (profile src)) "EPSG:3857"
    (width (profile src)) (height (profile src)) (bounds (profile src))
    = inr (transform', width', height') →
  reproject (mk_ndarray (height (profile src), width (profile src)) pixels)
    (height', width') (transform (profile src)) (crs (profile src))
    transform' "EPSG:3857" nearest
    = inr reprojected_array →
  ∃ report,
    calculate_area bounds calculate_default_transform reproject
      classified_tif_path fs = (Returns report, fs) ∧
    (∀ k label, class_labels !! k = Some label →
       (is_Some (report !! label) ↔ count_of k pixels ≠ 0%nat)) ∧
    (∀ key, is_Some (report !! key) →
       key = "Total_Analyzed_Area"%string ∨
       ∃ k, 1 ≤ k ≤ 7 ∧ class_labels !! k = Some key ∧
            count_of k pixels ≠ 0%nat) ∧
    report !! "Total_Analyzed_Area"
    = Some (mk_entry None
              (round
                 (fdiv
                    (total_area_m2 pixels
                       (fmul (Affine.a transform') (fabs (Affine.e transform'))))
                    (of_int 10000))
                 2)) ∧
    report
    = area_stats
        (mk_ndarray (height (profile src), width (profile src))
           (filter (λ v, v ≠ 0) pixels))
        (fmul (Affine.a transform') (fabs (Affine.e transform'))).
Proof.
  intros Hsrc B Ht Hr. eexists.
  split; [exact (calculate_area_returns _ _ _ _ _ _ _ _ Hsrc B Ht Hr)|].
  set (pa := fmul (Affine.a transform') (fabs (Affine.e transform'))).
  set (sh := (height (profile src), width (profile src))).
  assert (Hclass : ∀ k label, class_labels !! k = Some label →
            (is_Some (area_stats (mk_ndarray sh pixels) pa !! label)
             ↔ count_of k pixels ≠ 0%nat)).
  { intros k label Hl. rewrite (area_stats_class _ _ k label Hl). cbn [data].
    destruct (decide _) as [->|Hn]; split; intros H; try done;
      now apply is_Some_None in H. }
  split; [exact Hclass|]. split; [|split].
  - intros key Hkey.
    destruct (decide (key = "Total_Analyzed_Area"%string)) as [|Hne];
      [now left|right].
    destruct (class_labels_dec key) as [[k Hl]|Hno].
    + exists k. split; [now apply class_labels_range in Hl|].
      split; [exact Hl|]. now apply (Hclass k key Hl).
    + rewrite area_stats_other in Hkey by done.
      now apply is_Some_None in Hkey.
  - apply area_stats_total.
  - apply map_eq. intros key.
    destruct (decide (key = "Total_Analyzed_Area"%string)) as [->|Hne].
    { rewrite !area_stats_total. cbn [data].
      now rewrite total_area_m2_filter by (intros; lia). }
    destruct (class_labels_dec key) as [[k Hl]|Hno].
    + rewrite !(area_stats_class _ _ k key Hl). cbn [data].
      apply class_labels_range in Hl.
      now rewrite count_of_filter by lia.
    + now rewrite !area_stats_other.
Qed.
Lemma count_of_all v (l : list Z) :
  Forall (λ x, x = v) l → count_of v l = length l.
Proof.
  intros H. unfold count_of. f_equal. clear -H.
  induction H as [|x l -> _ IH]; [reflexivity|].
  rewrite filter_cons. destruct (decide (v = v)); [now rewrite IH|done].
Qed.

Lemma count_of_none v k (l : list Z) :
  Forall (λ x, x = v) l → k ≠ v → count_of k l = 0%nat.
Proof.
  intros H Hk. apply count_of_zero. intros Hin.
  rewrite Forall_forall in H. now apply H in Hin.
Qed.

(** C6 (amended). When every pixel of a non-empty classified raster is of
    class 3, the report of [calculate_area] has two entries and no other:
    "Unburned", with the area of all the pixels, and the total, which is
    the rounding of that same area added to 0 (the same figure whenever
    adding the area to 0 gives the area back).  The other class labels
    have no entry. *)
Theorem calculate_area_all_unburned (fs : FS) (classified_tif_path : string)
    (src : GeoTiff) (pixels : list Z)
    (transform' : Affine.t F) (width' height' : nat)
    (reprojected_array : ndarray Z) :
  fs !! classified_tif_path = Some src →
  band1 src = UInt8Samples pixels →
  calculate_default_transform (crs (profile src)) "EPSG:3857"
    (width (profile src)) (height (profile src)) (bounds (profile src))
    = inr (transform', width', height') →
  reproject (mk_ndarray (height (profile src), width (profile src)) pixels)
    (height', width') (transform (profile src)) (crs (profile src))
    transform' "EPSG:3857" nearest
    = inr reprojected_array →
  Forall (λ v, v = 3) pixels →
  pixels ≠ [] →
  let area_m2 :=
    fmul (of_int (Z.of_nat (length pixels)))
         (fmul (Affine.a transform') (fabs (Affine.e transform'))) in
  ∃ report,
    calculate_area bounds calculate_default_transform reproject
      classified_tif_path fs = (Returns report, fs) ∧
    report !! "Unburned"
    = Some (mk_entry (Some 3) (round (fdiv area_m2 (of_int 10000)) 2)) ∧
    report !! "Total_Analyzed_Area"
    = Some (mk_entry None
              (round (fdiv (fadd (of_int 0) area_m2) (of_int 10000)) 2)) ∧
    (∀ key, key ≠ "Unburned"%string → key ≠ "Total_Analyzed_Area"%string →
       report !! key = None) ∧
    (fadd (of_int 0) area_m2 = area_m2 →
       area_hectares <$> report !! "Unburned"
       = area_hectares <$> report !! "Total_Analyzed_Area").
Proof.
  intros Hsrc B Ht Hr Hall Hne area_m2. eexists.
  split; [exact (calculate_area_returns _ _ _ _ _ _ _ _ Hsrc B Ht Hr)|].
  set (pa := fmul (Affine.a transform') (fabs (Affine.e transform'))) in *.
  assert (H3 : count_of 3 pixels = length pixels) by now apply count_of_all.
  assert (Hlen : length pixels ≠ 0%nat) by now destruct pixels.
  assert (Hunb : area_stats
                   (mk_ndarray (height (profile src), width (profile src)) pixels)
                   pa !! "Unburned"
                 = Some (mk_entry (Some 3) (round (fdiv area_m2 (of_int 10000)) 2))).
  { rewrite (area_stats_class _ _ 3 "Unburned" eq_refl). cbn [data].
    rewrite H3. now destruct (decide _). }
  assert (Htot : area_stats
                   (mk_ndarray (height (profile src), width (profile src)) pixels)
                   pa !! "Total_Analyzed_Area"
                 = Some (mk_entry None
                           (round (fdiv (fadd (of_int 0) area_m2)
                                        (of_int 10000)) 2))).
  { rewrite area_stats_total. cbn [data]. unfold total_area_m2. cbn [foldl].
    rewrite H3, !(count_of_none 3 _ pixels Hall) by lia.
    repeat (destruct (decide _); try done). }
  split; [exact Hunb|]. split; [exact Htot|]. split.
  - intros key Hk1 Hk2.
    destruct (class_labels_dec key) as [[k Hl]|Hno];
      [|now apply area_stats_other].
    rewrite (area_stats_class _ _ k key Hl). cbn [data].
    destruct (decide (k = 3)) as [->|Hk]; [now injection Hl as <-|].
    rewrite (count_of_none 3 k pixels Hall Hk). now destruct (decide _).
  - intros H0. rewrite Hunb, Htot. cbn. now rewrite H0.
Qed.
End calculate_area_spec.

Lemma calculate_area_present_classes_witness :
  ∃ report,
    calculate_area_on 10 "classified.tif" fs_mixed = (Returns report, fs_mixed) ∧
    (∀ k label, class_labels !! k = Some label →
       (is_Some (report !! label) ↔ count_of k [0; 3; 7; 7; 0; 3] ≠ 0%nat)) ∧
    (∀ key, is_Some (report !! key) →
       key = "Total_Analyzed_Area"%string ∨
       ∃ k, 1 ≤ k ≤ 7 ∧ class_labels !! k = Some key ∧
            count_of k [0; 3; 7; 7; 0; 3] ≠ 0%nat) ∧
    report !! "Total_Analyzed_Area"
    = Some (mk_entry None
              (binary64.round
                 (binary64.div
                    (total_area_m2 [0; 3; 7; 7; 0; 3]
                       (binary64.mul (binary64.of_Z 10)
                          (SFabs (SFopp (binary64.of_Z 10)))))
                    (binary64.of_Z 10000))
                 2)) ∧
    report
    = area_stats (mk_ndarray (2%nat, 3%nat) (filter (λ v, v ≠ 0) [0; 3; 7; 7; 0; 3]))
        (binary64.mul (binary64.of_Z 10) (SFabs (SFopp (binary64.of_Z 10)))).
Proof.
  apply (calculate_area_present_classes (arith := binary64_float)
           sample_bounds (sample_default_transform (binary64.of_Z 10))
           sample_reproject fs_mixed "classified.tif"
           (classified 3 2 [0; 3; 7; 7; 0; 3]) [0; 3; 7; 7; 0; 3]
           (north_up (binary64.of_Z 10)) 3 2
           (mk_ndarray (2, 3)%nat [0; 3; 7; 7; 0; 3]));
    reflexivity.
Defined.

Lemma calculate_area_all_unburned_witness :
  ∃ report,
    calculate_area_on 10 "classified.tif" fs_unburned
      = (Returns report, fs_unburned) ∧
    report !! "Unburned"
    = Some (mk_entry (Some 3) (binary64.of_Z 100)) ∧
    report !! "Total_Analyzed_Area"
    = Some (mk_entry None (binary64.of_Z 100)) ∧
    (∀ key, key ≠ "Unburned"%string → key ≠ "Total_Analyzed_Area"%string →
       report !! key = None) ∧
    area_hectares <$> report !! "Unburned"
    = area_hectares <$> report !! "Total_Analyzed_Area".
Proof.
  destruct (calculate_area_all_unburned (arith := binary64_float)
              sample_bounds (sample_default_transform (binary64.of_Z 10))
              sample_reproject fs_unburned "classified.tif"
              (classified 100 100 (replicate (100 * 100) 3))
              (replicate (100 * 100) 3)
              (north_up (binary64.of_Z 10)) 100 100
              (mk_ndarray (100, 100)%nat (replicate (100 * 100) 3)))
    as (report & Hrun & Hu & Ht & Hother & Heq);
    [reflexivity | reflexivity | reflexivity | reflexivity
    | apply Forall_replicate; reflexivity | discriminate |].
  exists report. split; [exact Hrun|].
  split; [exact Hu|]. split; [exact Ht|]. split; [exact Hother|].
  apply Heq. reflexivity.
Defined.

(** C6 as stated fails: for the 100 x 100 raster of class 3 the report
    holds no entry, and so no 0, under "Low-Severity Burn". *)
Lemma calculate_area_unburned_no_zero_entries :
  ∃ report,
    calculate_area_on 10 "classified.tif" fs_unburned
      = (Returns report, fs_unburned) ∧
    report !! "Unburned" = Some (mk_entry (Some 3) (binary64.of_Z 100)) ∧
    report !! "Low-Severity Burn" = None ∧
    ¬ (∀ k label, class_labels !! k = Some label → label ≠ "Unburned"%string →
         ∃ e, report !! label = Some e ∧ area_hectares e = zero).
Proof.
  exists (area_stats
            (mk_ndarray (100, 100)%nat (replicate (100 * 100) 3))
            (binary64.mul (binary64.of_Z 10) (SFabs (SFopp (binary64.of_Z 10))))).
  split; [reflexivity|].
  assert (Hlow : area_stats
                   (mk_ndarray (100, 100)%nat (replicate (100 * 100) 3))
                   (binary64.mul (binary64.of_Z 10)
                      (SFabs (SFopp (binary64.of_Z 10))))
                 !! "Low-Severity Burn" = None) by (vm_compute; reflexivity).
  split; [vm_compute; reflexivity|]. split; [exact Hlow|].
  intros H. destruct (H 4 "Low-Severity Burn"%string eq_refl) as (e & He & _);
    [discriminate|].
  rewrite Hlow in He. discriminate He.
Qed.

(** ** Per-class areas against the total *)

(** C4 as stated fails: five pixels of 6 m by 6 m, one in each of the
    classes 1 to 5.  Each class has 0.0036 ha, reported as 0.0; the total of
    0.018 ha is reported as 0.02, and 0.02 is not within 0.01 of 0.0,
    neither as binary64 computes the difference nor exactly. *)
Lemma calculate_area_sum_misses_total :
  ∃ report total,
    calculate_area_on 6 "classified.tif" fs_five_classes
      = (Returns report, fs_five_classes) ∧
    class_areas report = [zero; zero; zero; zero; zero] ∧
    area_hectares <$> report !! "Total_Analyzed_Area" = Some total ∧
    total = binary64.literal 2 100 ∧
    within (binary64.literal 1 100) (fsum (class_areas report)) total = false ∧
    ¬ (Qabs (Qsum (SF2Q <$> class_areas report) - SF2Q total) <= 1 # 100)%Q.
Proof.
  exists (area_stats
            (mk_ndarray (1, 5)%nat [1; 2; 3; 4; 5])
            (binary64.mul (binary64.of_Z 6) (SFabs (SFopp (binary64.of_Z 6))))),
         (binary64.literal 2 100).
  split; [reflexivity|].
  assert (Hcls : class_areas
                   (area_stats
                      (mk_ndarray (1, 5)%nat [1; 2; 3; 4; 5])
                      (binary64.mul (binary64.of_Z 6)
                         (SFabs (SFopp (binary64.of_Z 6)))))
                 = [zero; zero; zero; zero; zero]) by (vm_compute; reflexivity).
  split; [exact Hcls|]. split; [vm_compute; reflexivity|].
  split; [reflexivity|]. rewrite Hcls.
  split; [vm_compute; reflexivity|].
  intros H. vm_compute in H. now apply H.
Qed.

Lemma omap_pointwise {A B} (f g : A → option B) (l : list A) :
  (∀ x, x ∈ l → f x = g x) → omap f l = omap g l.
Proof.
  induction l as [|x l IH]; intros H; [reflexivity|].
  cbn [omap list_omap]. rewrite (H x) by left.
  rewrite IH by (intros y Hy; apply H; now right). reflexivity.
Qed.

Lemma omap_fmap_pointwise {A B C} (g : B → C) (h : A → option B) (l : list A) :
  omap (λ x, g <$> h x) l = g <$> omap h l.
Proof.
  induction l as [|x l IH]; [reflexivity|].
  cbn [omap list_omap]. destruct (h x); cbn; now rewrite IH.
Qed.

Lemma omap_length_le {A B} (h : A → option B) (l : list A) :
  (length (omap h l) ≤ length l)%nat.
Proof.
  induction l as [|x l IH]; [reflexivity|].
  cbn [omap list_omap]. destruct (h x); cbn [length]; lia.
Qed.

Lemma class_areas_spec {F} {arith : PyFloat F} (a : ndarray Z) (pa : F) :
  class_areas (area_stats a pa)
  = omap (λ k, if decide (count_of k (data a) = 0%nat) then None
               else Some (area_hectares
                            (class_entry pa k (count_of k (data a)))))
         [1; 2; 3; 4; 5; 6; 7].
Proof.
  unfold class_areas. apply omap_pointwise. intros k Hk.
  destruct (class_labels_is_Some k) as [label Hl].
  { repeat (apply elem_of_cons in Hk as [->|Hk]; [lia|]).
    now apply elem_of_nil in Hk. }
  rewrite Hl. cbn. rewrite (area_stats_class _ _ k label Hl).
  now destruct (decide _).
Qed.


(** ** The report in binary64 *)

Lemma class_counts_sum (l : list Z) :
  foldr (λ k s, count_of k l + s)%nat 0%nat [1; 2; 3; 4; 5; 6; 7]
  = length (filter is_class l).
Proof.
  cbn [foldr]. induction l as [|x l IH]; [reflexivity|].
  rewrite !count_of_cons, filter_cons.
  destruct (decide (is_class x)) as [Hx|Hx]; unfold is_class in Hx;
    cbn [length]; rewrite <- IH;
    repeat match goal with
           | |- context [decide (x = ?k)] => destruct (decide (x = k))
           end; lia.
Qed.

Lemma class_counts_positive pixels :
  Forall (λ c, (1 ≤ c)%nat) (class_counts pixels).
Proof.
  unfold class_counts. apply Forall_forall. intros c Hc.
  apply list_elem_of_omap in Hc as (k & _ & Hk).
  destruct (decide _); [discriminate|]. injection Hk as <-. lia.
Qed.

Lemma sum_list_omap_nonzero (f : Z → nat) (ks : list Z) :
  sum_list (omap (λ k, if decide (f k = 0%nat) then None else Some (f k)) ks)
  = foldr (λ k s, (f k + s)%nat) 0%nat ks.
Proof.
  induction ks as [|k ks IH]; [reflexivity|].
  cbn [omap list_omap foldr]. destruct (decide (f k = 0%nat)) as [E|E].
  - rewrite IH, E. reflexivity.
  - cbn [mbind option_bind mret option_ret]. cbn. now rewrite <- IH.
Qed.

Lemma class_counts_sum_list pixels :
  sum_list (class_counts pixels) = length (filter is_class pixels).
Proof.
  unfold class_counts.
  rewrite (sum_list_omap_nonzero (λ k, count_of k pixels)).
  apply class_counts_sum.
Qed.

Lemma class_counts_length pixels : (length (class_counts pixels) ≤ 7)%nat.
Proof. apply (omap_length_le _ [1; 2; 3; 4; 5; 6; 7]). Qed.

(** The per-class values and the total of a report, from the counts. *)
Lemma class_areas_hectares (a : ndarray Z) (pa : spec_float) :
  class_areas (area_stats (arith := binary64_float) a pa)
  = hectares <$> (area_m2_of pa <$> class_counts (data a)).
Proof.
  rewrite class_areas_spec. unfold class_counts.
  rewrite <- list_fmap_compose, <- omap_fmap_pointwise.
  apply omap_pointwise. intros k _. now destruct (decide _).
Qed.

Lemma total_area_m2_fold (pixels : list Z) (pa : spec_float) :
  total_area_m2 (arith := binary64_float) pixels pa
  = foldl binary64.add (binary64.of_Z 0) (area_m2_of pa <$> class_counts pixels).
Proof.
  unfold class_counts. rewrite <- omap_fmap_pointwise, foldl_omap.
  unfold total_area_m2. apply foldl_pointwise. intros acc k.
  now destruct (decide _).
Qed.

Section report_error.
Local Open Scope Q_scope.

Lemma areas_each pa (cs : list nat) :
  Forall (λ c, (1 <= c)%nat) cs →
  (Z.of_nat (sum_list cs) <= 2 ^ 63)%Z →
  nonneg_finite pa = true →
  inject_Z (Z.of_nat (sum_list cs)) * SF2Q pa <= 1000000000000 # 1 →
  Forall (λ A, nonneg_finite A = true ∧ SF2Q A <= 1099511627776 # 1)
    (area_m2_of pa <$> cs).
Proof.
  intros H1 H63 Npa HA. pose proof (SF2Q_nonneg _ Npa) as Ppa.
  induction H1 as [|c cs Hc _ IH]; [constructor|].
  change (sum_list (c :: cs)) with (c + sum_list cs)%nat in *.
  rewrite Nat2Z.inj_add, inject_Z_plus in HA.
  pose proof (inject_nat_nonneg c) as Pc.
  pose proof (inject_nat_nonneg (sum_list cs)) as Ps.
  assert (Q1 : 0 <= inject_Z (Z.of_nat c) * SF2Q pa)
    by (apply Qmult_le_0_compat; lra).
  assert (Q2 : 0 <= inject_Z (Z.of_nat (sum_list cs)) * SF2Q pa)
    by (apply Qmult_le_0_compat; lra).
  rewrite fmap_cons. constructor; [|apply IH; [lia|lra]].
  destruct (area_m2_of_bound pa c Hc) as (NA & A1 & A2); [lia|exact Npa|lra|].
  split; [exact NA|lra].
Qed.

(** The total of a raster of at most 10^12 square metres against the area
    of its pixels of the classes 1 to 7, and the per-class values
    against the total. *)
Lemma area_stats_errors (a : ndarray Z) (pa : spec_float) :
  nonneg_finite pa = true →
  (Z.of_nat (length (data a)) <= 2 ^ 63)%Z →
  inject_Z (Z.of_nat (length (data a))) * SF2Q pa <= 1000000000000 # 1 →
  ∃ total,
    area_stats (arith := binary64_float) a pa !! "Total_Analyzed_Area"
      = Some (mk_entry None total) ∧
    Forall (λ v, nonneg_finite v = true)
      (total :: class_areas (area_stats (arith := binary64_float) a pa)) ∧
    (length (class_areas (area_stats (arith := binary64_float) a pa)) ≤ 7)%nat ∧
    Qabs (Qsum (SF2Q <$> class_areas (area_stats (arith := binary64_float) a pa))
          - SF2Q total)
    <= (inject_Z (Z.of_nat (length (class_areas
                                      (area_stats (arith := binary64_float) a pa))))
        + 1) * (5 # 1000) + (1 # 100000) ∧
    Qabs (SF2Q total
          - inject_Z (Z.of_nat (length (filter is_class (data a)))) * SF2Q pa
            * (1 # 10000))
    <= (5 # 1000) + (1 # 100000).
Proof.
  intros Npa H63 HA. pose proof (SF2Q_nonneg _ Npa) as Ppa.
  rewrite area_stats_total, class_areas_hectares, total_area_m2_fold.
  rewrite <- class_counts_sum_list.
  set (cs := class_counts (data a)).
  pose proof (class_counts_positive (data a)) as C1. fold cs in C1.
  pose proof (class_counts_length (data a)) as C7. fold cs in C7.
  assert (Cs : (sum_list cs ≤ length (data a))%nat).
  { unfold cs. rewrite class_counts_sum_list. apply length_filter. }
  assert (HS : inject_Z (Z.of_nat (sum_list cs)) * SF2Q pa <= 1000000000000 # 1).
  { apply Qle_trans with (2 := HA). apply Qmult_le_compat_r; [|exact Ppa].
    rewrite <- Zle_Qle. lia. }
  destruct (areas_bound pa cs C1) as (F & S1 & S2); [lia|exact Npa|exact HS|].
  pose proof (areas_each pa cs C1 ltac:(lia) Npa HS) as Each.
  set (As := area_m2_of pa <$> cs) in *.
  assert (Hlen : length As = length cs) by apply length_fmap.
  assert (L7 : inject_Z (Z.of_nat (length cs)) <= 7).
  { change 7 with (inject_Z 7). rewrite <- Zle_Qle. lia. }
  pose proof (inject_nat_nonneg (length cs)) as L0.
  destruct (foldl_add_bound As (binary64.of_Z 0) F eq_refl) as (NT & T1 & T2).
  { rewrite Hlen. change (SF2Q (binary64.of_Z 0)) with 0. lra. }
  rewrite Hlen in T1, T2. change (SF2Q (binary64.of_Z 0)) with 0 in T1, T2.
  set (T := foldl binary64.add (binary64.of_Z 0) As) in *.
  destruct (hectares_bound T NT) as (n & N0 & R1 & R2 & Nv & R3 & R4).
  { change (inject_Z (2 ^ 40)) with (1099511627776 # 1). lra. }
  destruct (hectares_sum_bound As Each) as (Fv & V1 & V2).
  rewrite Hlen in V1, V2.
  exists (hectares T). split; [reflexivity|].
  split; [constructor; assumption|].
  rewrite length_fmap, Hlen. split; [exact C7|].
  split; apply Qabs_Qle_condition; split; lra.
Qed.

(** One per-class value: up to floating-point error a whole number of
    hundredths, the nearest to count * pixel area / 10000. *)
Lemma class_hectares_bound pa c :
  (1 <= c)%nat → (Z.of_nat c <= 2 ^ 63)%Z →
  nonneg_finite pa = true →
  inject_Z (Z.of_nat c) * SF2Q pa <= 1000000000000 # 1 →
  ∃ n : Z,
    (0 <= n)%Z ∧
    nonneg_finite (hectares (area_m2_of pa c)) = true ∧
    Qabs (SF2Q (hectares (area_m2_of pa c)) - inject_Z n * (1 # 100))
      <= 3 # 10000000 ∧
    Qabs (inject_Z n * (1 # 100)
          - inject_Z (Z.of_nat c) * SF2Q pa * (1 # 10000))
      <= (5 # 1000) + (1 # 1000000).
Proof.
  intros Hc H63 Npa HA.
  destruct (area_m2_of_bound pa c Hc H63 Npa HA) as (NA & A1 & A2).
  destruct (hectares_bound (area_m2_of pa c) NA)
    as (n & N0 & R1 & R2 & Nv & R3 & R4).
  { change (inject_Z (2 ^ 40)) with (1099511627776 # 1). lra. }
  exists n. split; [exact N0|]. split; [exact Nv|].
  split; apply Qabs_Qle_condition; split; lra.
Qed.
End report_error.

Section binary64_report.
Variable bounds : Profile → BoundingBox.
Variable calculate_default_transform :
  string → string → nat → nat → BoundingBox →
  exn + (Affine.t spec_float * nat * nat).
Variable reproject :
  ndarray Z → nat * nat → Affine.t spec_float → string →
  Affine.t spec_float → string → Resampling → exn + ndarray Z.

(** C5. [calculate_area] gets the area of a class that occurs by counting
    the pixels of that value in the array as read (not reprojected),
    multiplying the count by one pixel area - the pixel width times the
    absolute pixel height of the transform computed for EPSG:3857 -,
    dividing by 10,000 and rounding to two decimals.  The rounding is
    NumPy's, in binary64: when the count is at most 2^63 and the area at
    most 10^12 square metres, of a pixel area that is a finite float and
    not negative, the value returned is, up to 0.0000003 of
    floating-point error, a whole number of hundredths, and that number
    of hundredths is within 0.005 (and 0.000001 of floating-point error)
    of count * pixel area / 10000. *)
Theorem calculate_area_per_class (fs : FS) (classified_tif_path : string)
    (src : GeoTiff) (pixels : list Z)
    (transform' : Affine.t spec_float) (width' height' : nat)
    (reprojected_array : ndarray Z)
    (k : Z) (label : string) :
  fs !! classified_tif_path = Some src →
  band1 src = UInt8Samples pixels →
  calculate_default_transform (crs (profile src)) "EPSG:3857"
    (width (profile src)) (height (profile src)) (bounds (profile src))
    = inr (transform', width', height') →
  reproject (mk_ndarray (height (profile src), width (profile src)) pixels)
    (height', width') (transform (profile src)) (crs (profile src))
    transform' "EPSG:3857" nearest
    = inr reprojected_array →
  class_labels !! k = Some label →
  count_of k pixels ≠ 0%nat →
  ∃ report v,
    calculate_area (arith := binary64_float) bounds calculate_default_transform
      reproject classified_tif_path fs = (Returns report, fs) ∧
    report !! label = Some (mk_entry (Some k) v) ∧
    v = binary64.round
          (binary64.div
             (binary64.mul
                (binary64.of_Z (Z.of_nat (count_of k pixels)))
                (binary64.mul (Affine.a transform')
                   (SFabs (Affine.e transform'))))
             (binary64.of_Z 10000))
          2 ∧
    (nonneg_finite (binary64.mul (Affine.a transform')
                      (SFabs (Affine.e transform'))) = true →
     Z.of_nat (count_of k pixels) ≤ 2 ^ 63 →
     (inject_Z (Z.of_nat (count_of k pixels))
      * SF2Q (binary64.mul (Affine.a transform')
                (SFabs (Affine.e transform')))
      <= 1000000000000 # 1)%Q →
     ∃ n,
       nonneg_finite v = true ∧
       0 ≤ n ∧
       (Qabs (SF2Q v - inject_Z n * (1 # 100)) <= 3 # 10000000)%Q ∧
       (Qabs (inject_Z n * (1 # 100)
              - inject_Z (Z.of_nat (count_of k pixels))
                * SF2Q (binary64.mul (Affine.a transform')
                          (SFabs (Affine.e transform')))
                * (1 # 10000))
        <= (5 # 1000) + (1 # 1000000))%Q).
Proof.
  intros Hsrc B Ht Hr Hl Hc.
  destruct (calculate_area_class_entry (arith := binary64_float)
              bounds calculate_default_transform reproject fs
              classified_tif_path src pixels transform' width' height'
              reprojected_array k label Hsrc B Ht Hr Hl Hc)
    as (report & Hrun & Hentry).
  eexists report, _. split; [exact Hrun|]. split; [exact Hentry|].
  split; [reflexivity|]. intros Npa H63 HA.
  destruct (class_hectares_bound
              (binary64.mul (Affine.a transform') (SFabs (Affine.e transform')))
              (count_of k pixels) ltac:(lia) H63 Npa HA)
    as (n & N0 & Nv & E1 & E2).
  exists n. split; [exact Nv|]. split; [exact N0|].
  split; [exact E1|exact E2].
Qed.

(** C4 (amended). For a raster of at most 10^12 square metres (and 2^63
    pixels, of a pixel area that is a finite float and not negative) the
    values of the report are finite and not negative, and the exact sum
    of the per-class [area_hectares] and the Total_Analyzed_Area differ
    by at most 0.005 ha for each per-class entry plus 0.005 ha for the
    total plus 0.00001 ha of binary64 rounding error, so by at most
    0.04001 ha: every value is rounded to two decimals on its own, the
    total from the unrounded sum of the square metres. *)
Theorem calculate_area_sum_near_total (fs : FS) (classified_tif_path : string)
    (src : GeoTiff) (pixels : list Z)
    (transform' : Affine.t spec_float) (width' height' : nat)
    (reprojected_array : ndarray Z) :
  fs !! classified_tif_path = Some src →
  band1 src = UInt8Samples pixels →
  calculate_default_transform (crs (profile src)) "EPSG:3857"
    (width (profile src)) (height (profile src)) (bounds (profile src))
    = inr (transform', width', height') →
  reproject (mk_ndarray (height (profile src), width (profile src)) pixels)
    (height', width') (transform (profile src)) (crs (profile src))
    transform' "EPSG:3857" nearest
    = inr reprojected_array →
  nonneg_finite (binary64.mul (Affine.a transform')
                   (SFabs (Affine.e transform'))) = true →
  Z.of_nat (length pixels) ≤ 2 ^ 63 →
  (inject_Z (Z.of_nat (length pixels))
   * SF2Q (binary64.mul (Affine.a transform') (SFabs (Affine.e transform')))
   <= 1000000000000 # 1)%Q →
  ∃ report total,
    calculate_area (arith := binary64_float) bounds calculate_default_transform
      reproject classified_tif_path fs = (Returns report, fs) ∧
    report !! "Total_Analyzed_Area" = Some (mk_entry None total) ∧
    Forall (λ v, nonneg_finite v = true) (total :: class_areas report) ∧
    (length (class_areas report) ≤ 7)%nat ∧
    (Qabs (Qsum (SF2Q <$> class_areas report) - SF2Q total)
     <= (inject_Z (Z.of_nat (length (class_areas report))) + 1) * (5 # 1000)
        + (1 # 100000))%Q ∧
    (Qabs (Qsum (SF2Q <$> class_areas report) - SF2Q total)
     <= 4001 # 100000)%Q.
Proof.
  intros Hsrc B Ht Hr Npa H63 HA.
  destruct (area_stats_errors
              (mk_ndarray (height (profile src), width (profile src)) pixels)
              _ Npa H63 HA) as (total & Htot & Hfin & H7 & Hsum & _).
  eexists _, total.
  split; [exact (calculate_area_returns (arith := binary64_float)
                   _ _ _ _ _ _ _ _ _ _ _ Hsrc B Ht Hr)|].
  split; [exact Htot|]. split; [exact Hfin|]. split; [exact H7|].
  split; [exact Hsum|].
  apply Qle_trans with (1 := Hsum).
  assert (Hn : (inject_Z (Z.of_nat (length (class_areas
                  (area_stats (arith := binary64_float)
                     (mk_ndarray (height (profile src), width (profile src))
                        pixels)
                     (binary64.mul (Affine.a transform')
                        (SFabs (Affine.e transform'))))))) <= 7)%Q).
  { change 7%Q with (inject_Z 7). rewrite <- Zle_Qle. lia. }
  cbn [fmul fabs binary64_float] in *. lra.
Qed.
End binary64_report.

Lemma calculate_area_per_class_witness :
  ∃ report v n,
    calculate_area_on 6 "classified.tif" fs_mixed = (Returns report, fs_mixed) ∧
    report !! "Extreme-Severity Burn" = Some (mk_entry (Some 7) v) ∧
    v = binary64.literal 1 100 ∧
    nonneg_finite v = true ∧
    0 ≤ n ∧
    (Qabs (SF2Q v - inject_Z n * (1 # 100)) <= 3 # 10000000)%Q ∧
    (Qabs (inject_Z n * (1 # 100)
           - inject_Z (Z.of_nat (count_of 7 [0; 3; 7; 7; 0; 3]%Z))
             * SF2Q (binary64.mul (binary64.of_Z 6)
                       (SFabs (SFopp (binary64.of_Z 6))))
             * (1 # 10000))
     <= (5 # 1000) + (1 # 1000000))%Q.
Proof.
  destruct (calculate_area_per_class
              sample_bounds (sample_default_transform (binary64.of_Z 6))
              sample_reproject fs_mixed "classified.tif"
              (classified 3 2 [0; 3; 7; 7; 0; 3]) [0; 3; 7; 7; 0; 3]
              (north_up (binary64.of_Z 6)) 3 2
              (mk_ndarray (2, 3)%nat [0; 3; 7; 7; 0; 3])
              7 "Extreme-Severity Burn")
    as (report & v & Hrun & Hentry & Hv & Hround);
    [reflexivity | reflexivity | reflexivity | reflexivity | reflexivity
    | vm_compute; discriminate |].
  destruct Hround as (n & Nv & N0 & E1 & E2);
    [reflexivity | vm_compute; discriminate | vm_compute; discriminate |].
  exists report, v, n. split; [exact Hrun|]. split; [exact Hentry|].
  split; [rewrite Hv; vm_compute; reflexivity|].
  split; [exact Nv|]. split; [exact N0|]. split; [exact E1|exact E2].
Defined.

Lemma calculate_area_sum_near_total_witness :
  ∃ report total,
    calculate_area_on 6 "classified.tif" fs_five_classes
      = (Returns report, fs_five_classes) ∧
    report !! "Total_Analyzed_Area" = Some (mk_entry None total) ∧
    Forall (λ v, nonneg_finite v = true) (total :: class_areas report) ∧
    (length (class_areas report) ≤ 7)%nat ∧
    (Qabs (Qsum (SF2Q <$> class_areas report) - SF2Q total)
     <= (inject_Z (Z.of_nat (length (class_areas report))) + 1) * (5 # 1000)
        + (1 # 100000))%Q ∧
    (Qabs (Qsum (SF2Q <$> class_areas report) - SF2Q total)
     <= 4001 # 100000)%Q.
Proof.
  apply (calculate_area_sum_near_total sample_bounds
           (sample_default_transform (binary64.of_Z 6)) sample_reproject
           fs_five_classes "classified.tif"
           (classified 5 1 [1; 2; 3; 4; 5]) [1; 2; 3; 4; 5]
           (north_up (binary64.of_Z 6)) 5 1
           (mk_ndarray (1, 5)%nat [1; 2; 3; 4; 5]));
    [reflexivity | reflexivity | reflexivity | reflexivity | reflexivity
    | vm_compute; discriminate | vm_compute; discriminate].
Defined.

(** The bound is not 0.04: 222 pixels of 5 m, 34, 50, 58, 42, 34, 2 and 2
    of the classes 1 to 7, give the per-class values 0.08, 0.12, 0.14,
    0.1, 0.08, 0.0 and 0.0 and the total 0.56, binary64 values that
    differ by more than 0.04. *)
Example calculate_area_sum_beyond_004 :
  ∃ report total,
    calculate_area_on 5 "classified.tif" fs_222 = (Returns report, fs_222) ∧
    class_areas report
    = [binary64.literal 8 100; binary64.literal 12 100;
       binary64.literal 14 100; binary64.literal 10 100;
       binary64.literal 8 100; zero; zero] ∧
    report !! "Total_Analyzed_Area"
    = Some (mk_entry None (binary64.literal 56 100)) ∧
    total = binary64.literal 56 100 ∧
    (4 # 100 < Qabs (Qsum (SF2Q <$> class_areas report) - SF2Q total))%Q ∧
    (Qabs (Qsum (SF2Q <$> class_areas report) - SF2Q total) <= 4001 # 100000)%Q.
Proof.
  exists (area_stats
            (mk_ndarray (1, 222)%nat pixels_222)
            (binary64.mul (binary64.of_Z 5) (SFabs (SFopp (binary64.of_Z 5))))),
         (binary64.literal 56 100).
  split; [reflexivity|].
  assert (Hcls : class_areas
                   (area_stats
                      (mk_ndarray (1, 222)%nat pixels_222)
                      (binary64.mul (binary64.of_Z 5)
                         (SFabs (SFopp (binary64.of_Z 5)))))
                 = [binary64.literal 8 100; binary64.literal 12 100;
                    binary64.literal 14 100; binary64.literal 10 100;
                    binary64.literal 8 100; zero; zero])
    by (vm_compute; reflexivity).
  split; [exact Hcls|]. split; [vm_compute; reflexivity|].
  split; [reflexivity|]. rewrite Hcls.
  split; [vm_compute; reflexivity|].
  intros H. vm_compute in H. discriminate H.
Qed.

(** ** The scenarios of the specification, run through the pipeline *)

(** Scenario 1: dNBR is 0 everywhere, every pixel is of class 3, and the
    report holds "Unburned" and the total, 100 ha each, and nothing else. *)
Example scenario_1 :
  match (pipeline 10 "pre_nbr.tif" "post_nbr.tif" fs_scenario_1).1 with
  | Returns report =>
      report !! "Unburned" = Some (mk_entry (Some 3) (binary64.of_Z 100)) ∧
      report !! "Total_Analyzed_Area" = Some (mk_entry None (binary64.of_Z 100)) ∧
      size report = 2%nat
  | _ => False
  end.
Proof. vm_compute. repeat split; reflexivity. Qed.

(** Scenario 2: dNBR is 0.7 everywhere, every pixel is of class 7, and the
    25 ha are under "Extreme-Severity Burn". *)
Example scenario_2 :
  match (pipeline 10 "pre_nbr.tif" "post_nbr.tif" fs_scenario_2).1 with
  | Returns report =>
      report !! "Extreme-Severity Burn"
        = Some (mk_entry (Some 7) (binary64.of_Z 25)) ∧
      report !! "Total_Analyzed_Area" = Some (mk_entry None (binary64.of_Z 25)) ∧
      size report = 2%nat
  | _ => False
  end.
Proof. vm_compute. repeat split; reflexivity. Qed.

(** * Further properties *)

(** ** Rounding never gives NaN and commutes with the sign *)

Section rounding.
Variables prec emax : Z.

Lemma shr_1_nonneg mrs : 0 ≤ shr_m mrs → 0 ≤ shr_m (shr_1 mrs).
Proof.
  destruct mrs as [m r s]. cbn [shr_m shr_1].
  destruct m as [|[p|p|]|[p|p|]]; cbn [shr_m]; lia.
Qed.

Lemma iter_shr_1_nonneg p mrs :
  0 ≤ shr_m mrs → 0 ≤ shr_m (SpecFloat.iter_pos shr_1 p mrs).
Proof.
  revert mrs. induction p as [p IH|p IH|]; intros mrs H; cbn [SpecFloat.iter_pos].
  - apply IH, IH, shr_1_nonneg, H.
  - apply IH, IH, H.
  - apply shr_1_nonneg, H.
Qed.

Lemma shr_fexp_nonneg m e l :
  0 ≤ m → 0 ≤ shr_m (shr_fexp prec emax m e l).1.
Proof.
  intros Hm. unfold shr_fexp, shr.
  assert (H0 : 0 ≤ shr_m (shr_record_of_loc m l)).
  { destruct l as [|[]]; exact Hm. }
  destruct (fexp prec emax (Zdigits2 m + e) - e); cbn [fst]; try exact H0.
  now apply iter_shr_1_nonneg.
Qed.

Lemma round_nearest_even_nonneg m l : 0 ≤ m → 0 ≤ round_nearest_even m l.
Proof.
  intros Hm. destruct l as [|[]]; cbn; try lia. destruct (Z.even m); lia.
Qed.

Lemma binary_round_aux_not_nan s m e l :
  0 ≤ m → isnan (binary_round_aux prec emax s m e l) = false.
Proof.
  intros Hm. unfold binary_round_aux.
  pose proof (shr_fexp_nonneg m e l Hm) as H1.
  destruct (shr_fexp prec emax m e l) as [mrs' e'] eqn:E1. cbn [fst] in H1.
  pose proof (shr_fexp_nonneg _ e' loc_Exact
                (round_nearest_even_nonneg _ (loc_of_shr_record mrs') H1)) as H2.
  destruct (shr_fexp prec emax
              (round_nearest_even (shr_m mrs') (loc_of_shr_record mrs')) e'
              loc_Exact) as [mrs'' e''] eqn:E2.
  cbn [fst] in H2. destruct (shr_m mrs''); [reflexivity| |lia].
  now destruct (_ <=? _).
Qed.

Lemma binary_round_aux_opp s m e l :
  binary_round_aux prec emax (negb s) m e l
  = SFopp (binary_round_aux prec emax s m e l).
Proof.
  unfold binary_round_aux.
  destruct (shr_fexp prec emax m e l) as [mrs' e'].
  destruct (shr_fexp prec emax _ e' loc_Exact) as [mrs'' e''].
  destruct (shr_m mrs''); [reflexivity| |reflexivity].
  now destruct (_ <=? _).
Qed.

Lemma binary_round_not_nan s m e : isnan (binary_round prec emax s m e) = false.
Proof.
  unfold binary_round. destruct (shl_align _ _ _) as [mz ez].
  now apply binary_round_aux_not_nan.
Qed.

Lemma binary_round_opp s m e :
  binary_round prec emax (negb s) m e = SFopp (binary_round prec emax s m e).
Proof.
  unfold binary_round. destruct (shl_align _ _ _) as [mz ez].
  apply binary_round_aux_opp.
Qed.

Lemma binary_normalize_not_nan m e sz :
  isnan (binary_normalize prec emax m e sz) = false.
Proof. destruct m; cbn; [reflexivity|apply binary_round_not_nan..]. Qed.

Lemma binary_normalize_opp m e :
  m ≠ 0 →
  binary_normalize prec emax (- m) e false
  = SFopp (binary_normalize prec emax m e false).
Proof.
  intros Hm. destruct m as [|p|p]; [done| |]; cbn [Z.opp binary_normalize].
  - apply (binary_round_opp false).
  - apply (binary_round_opp true).
Qed.

Lemma SFsub_not_nan x y :
  isfinite x = true → isfinite y = true → isnan (SFsub prec emax x y) = false.
Proof.
  destruct x as [sx|sx| |sx mx ex], y as [sy|sy| |sy my ey];
    try discriminate; intros _ _; cbn [SFsub].
  - now destruct sx, sy.
  - reflexivity.
  - reflexivity.
  - apply binary_normalize_not_nan.
Qed.

Lemma SFsub_diag x :
  isfinite x = true → SFsub prec emax x x = S754_zero false.
Proof.
  destruct x as [sx|sx| |sx mx ex]; try discriminate; intros _; cbn [SFsub].
  - now destruct sx.
  - now rewrite Z.sub_diag.
Qed.

Lemma SFsub_swap x y :
  SFsub prec emax y x = SFopp (SFsub prec emax x y)
  ∨ (SFsub prec emax x y = S754_zero false
     ∧ SFsub prec emax y x = S754_zero false).
Proof.
  destruct x as [sx|sx| |sx mx ex], y as [sy|sy| |sy my ey]; cbn [SFsub SFopp];
    try (left; reflexivity);
    try (destruct sx, sy; cbn; auto; fail);
    try (destruct sx; cbn; auto; fail);
    try (destruct sy; cbn; auto; fail).
  rewrite (Z.min_comm ey ex).
  set (a := cond_Zopp sx (Z.pos (shl_align mx ex (Z.min ex ey)).1)).
  set (b := cond_Zopp sy (Z.pos (shl_align my ey (Z.min ex ey)).1)).
  destruct (decide (a - b = 0)) as [H0|Hn].
  - right. replace (b - a) with 0 by lia. rewrite H0. split; reflexivity.
  - left. replace (b - a) with (- (a - b)) by lia.
    now apply binary_normalize_opp.
Qed.
End rounding.

(** ** More on [calculate_dnbr] *)

Lemma nan_to_num1_finite x : isfinite (np.nan_to_num1 (S754_zero false) x) = true.
Proof. now destruct x as [?|[]| |? ? ?]. Qed.

Lemma dnbr_data pre_nbr post_nbr :
  data (dnbr pre_nbr post_nbr)
  = zip_with (λ p q, binary32.sub (np.nan_to_num1 (S754_zero false) p)
                                  (np.nan_to_num1 (S754_zero false) q))
      (data pre_nbr) (data post_nbr).
Proof.
  unfold dnbr, np.subtract, np.nan_to_num, np.elementwise2, np.elementwise.
  cbn [data]. now rewrite zip_with_fmap_l, zip_with_fmap_r.
Qed.

Lemma dnbr_pixel_not_nan pre_nbr post_nbr i d :
  data (dnbr pre_nbr post_nbr) !! i = Some d → isnan d = false.
Proof.
  rewrite dnbr_data. intros Hd.
  apply lookup_zip_with_Some in Hd as (p & q & -> & _ & _).
  apply SFsub_not_nan; apply nan_to_num1_finite.
Qed.

Lemma dnbr_same_data sh1 sh2 (l : list spec_float) :
  data (dnbr (mk_ndarray sh1 l) (mk_ndarray sh2 l))
  = replicate (length l) (S754_zero false).
Proof.
  rewrite dnbr_data. cbn [data]. induction l as [|x l IH]; [reflexivity|].
  cbn [zip_with length replicate]. rewrite IH. f_equal.
  apply SFsub_diag, nan_to_num1_finite.
Qed.

(** X1. Whatever the two arrays hold - NaN and infinities included - no
    pixel of the dNBR array of line 26 is NaN. *)
Theorem dnbr_never_nan (pre_nbr post_nbr : ndarray spec_float) :
  Forall (λ d, isnan d = false) (data (dnbr pre_nbr post_nbr)).
Proof.
  apply Forall_lookup. intros i d. apply dnbr_pixel_not_nan.
Qed.

(** X2. Exchanging the pre-fire and the post-fire array negates the dNBR:
    the pixel of the exchanged difference equals, as a float, the negated
    pixel of the difference. *)
Theorem dnbr_swap (pre_nbr post_nbr : ndarray spec_float) (i : nat)
    (d : spec_float) :
  data (dnbr pre_nbr post_nbr) !! i = Some d →
  ∃ d', data (dnbr post_nbr pre_nbr) !! i = Some d' ∧
        SFeqb d' (SFopp d) = true.
Proof.
  rewrite !dnbr_data. intros Hd.
  apply lookup_zip_with_Some in Hd as (p & q & -> & Hp & Hq).
  eexists. split; [rewrite lookup_zip_with, Hq, Hp; reflexivity|].
  set (p' := np.nan_to_num1 (S754_zero false) p).
  set (q' := np.nan_to_num1 (S754_zero false) q).
  assert (Hn : isnan (binary32.sub p' q') = false)
    by (apply SFsub_not_nan; apply nan_to_num1_finite).
  destruct (SFsub_swap binary32.prec binary32.emax p' q') as [E|[E1 E2]].
  - unfold binary32.sub in *. rewrite E. apply SFeqb_refl.
    now destruct (SFsub binary32.prec binary32.emax p' q').
  - unfold binary32.sub. rewrite E1, E2. reflexivity.
Qed.

Lemma dnbr_swap_witness :
  ∃ d', data (dnbr (mk_ndarray (1, 2)%nat [cut_0270; S754_nan])
                   (mk_ndarray (1, 2)%nat [cut_0660; cut_0440])) !! 1%nat
          = Some d' ∧
        SFeqb d' (SFopp cut_0440) = true.
Proof.
  apply (dnbr_swap (mk_ndarray (1, 2)%nat [cut_0660; cut_0440])
                   (mk_ndarray (1, 2)%nat [cut_0270; S754_nan]) 1%nat).
  reflexivity.
Defined.

(** X3. When an input file is missing, [calculate_dnbr] raises rasterio's
    I/O error for the first missing path - the pre-fire path is opened
    first - and leaves the file system as it was. *)
Theorem calculate_dnbr_missing_input (fs : FS)
    (pre_fire_path post_fire_path output_dnbr_path : string) :
  fs !! pre_fire_path = None ∨ fs !! post_fire_path = None →
  ∃ path,
    calculate_dnbr pre_fire_path post_fire_path output_dnbr_path fs
      = (Raises (RasterioIOError path), fs) ∧
    fs !! path = None ∧
    (path = pre_fire_path ∨
     path = post_fire_path ∧ is_Some (fs !! pre_fire_path)).
Proof.
  intros H. unfold calculate_dnbr, mbind, io_bind, rasterio.open.
  destruct (fs !! pre_fire_path) as [src_pre|] eqn:Epre.
  - destruct H as [H|H]; [discriminate|]. rewrite H.
    exists post_fire_path. eauto.
  - exists pre_fire_path. auto.
Qed.

Lemma calculate_dnbr_missing_input_witness :
  ∃ path,
    calculate_dnbr "pre_nbr.tif" "nowhere.tif" "dnbr.tif" fs_nodata
      = (Raises (RasterioIOError path), fs_nodata) ∧
    fs_nodata !! path = None ∧
    (path = "pre_nbr.tif"%string ∨
     path = "nowhere.tif"%string ∧ is_Some (fs_nodata !! "pre_nbr.tif")).
Proof.
  apply (calculate_dnbr_missing_input fs_nodata "pre_nbr.tif" "nowhere.tif").
  right. reflexivity.
Defined.

(** X4. [calculate_dnbr] changes no path but its output path; when it
    returns, it returns the output path and a dataset is there; when it
    does not return, the file system is as it was. *)
Theorem calculate_dnbr_writes_only_output (fs : FS)
    (pre_fire_path post_fire_path output_dnbr_path : string) :
  unchanged_except output_dnbr_path fs
    (calculate_dnbr pre_fire_path post_fire_path output_dnbr_path fs).2 ∧
  (∀ r, (calculate_dnbr pre_fire_path post_fire_path output_dnbr_path fs).1
        = Returns r →
        r = output_dnbr_path ∧
        is_Some ((calculate_dnbr pre_fire_path post_fire_path
                    output_dnbr_path fs).2 !! output_dnbr_path)) ∧
  ((∀ r, (calculate_dnbr pre_fire_path post_fire_path output_dnbr_path fs).1
         ≠ Returns r) →
   (calculate_dnbr pre_fire_path post_fire_path output_dnbr_path fs).2 = fs).
Proof.
  unfold calculate_dnbr, mbind, io_bind, rasterio.open, unchanged_except.
  destruct (fs !! pre_fire_path) as [src_pre|];
    [|cbn; split; [done|split; [done|done]]].
  destruct (fs !! post_fire_path) as [src_post|];
    [|cbn; split; [done|split; [done|done]]].
  destruct (decide _) as [?|?]; [cbn; split; [done|split; [done|done]]|].
  destruct (read1 src_pre) as [pre_nbr|pre_nbr],
           (read1 src_post) as [post_nbr|post_nbr];
    cbn; (split; [|split]); try done.
  - intros q Hq. now apply lookup_insert_ne.
  - intros r [= <-]. split; [done|]. rewrite lookup_insert_eq. eauto.
  - intros H. now destruct (H output_dnbr_path).
Qed.

(** X5. Two float32 rasters of one width and height are differenced
    whatever their CRS, geotransform and no-data entries are: these are
    not compared.  The dNBR dataset takes the profile of the pre-fire
    raster - width, height, CRS, geotransform, no-data value - with the
    data type, band count and compression set, and it holds
    height * width samples when the inputs do. *)
Theorem calculate_dnbr_takes_pre_profile (fs : FS)
    (pre_fire_path post_fire_path output_dnbr_path : string)
    (src_pre src_post : GeoTiff) (l1 l2 : list spec_float) :
  fs !! pre_fire_path = Some src_pre →
  fs !! post_fire_path = Some src_post →
  band1 src_pre = Float32Samples l1 →
  band1 src_post = Float32Samples l2 →
  width (profile src_pre) = width (profile src_post) →
  height (profile src_pre) = height (profile src_post) →
  well_formed src_pre → well_formed src_post →
  ∃ dst,
    calculate_dnbr pre_fire_path post_fire_path output_dnbr_path fs
      = (Returns output_dnbr_path, <[output_dnbr_path := dst]> fs) ∧
    well_formed dst ∧
    width (profile dst) = width (profile src_pre) ∧
    height (profile dst) = height (profile src_pre) ∧
    crs (profile dst) = crs (profile src_pre) ∧
    transform (profile dst) = transform (profile src_pre) ∧
    nodata (profile dst) = nodata (profile src_pre) ∧
    driver (profile dst) = driver (profile src_pre) ∧
    dtype_of (profile dst) = float32 ∧
    count (profile dst) = 1%nat ∧
    compress (profile dst) = Some "lzw"%string.
Proof.
  intros Hpre Hpost B1 B2 Hw Hh W1 W2.
  assert (Hsh : band_shape (read1 src_pre) = band_shape (read1 src_post)).
  { unfold read1. rewrite B1, B2. cbn. now rewrite Hw, Hh. }
  eexists. split;
    [exact (calculate_dnbr_returns _ _ _ _ _ _ _ _ Hpre Hpost B1 B2 Hsh)|].
  split; [|repeat split].
  unfold well_formed in *. rewrite B1 in W1. rewrite B2 in W2.
  cbn [samples_length] in W1, W2.
  cbn [band1 profile samples_length height width profile_update].
  rewrite dnbr_length. cbn [data]. lia.
Qed.

Lemma calculate_dnbr_takes_pre_profile_witness :
  ∃ dst,
    calculate_dnbr "pre_nbr.tif" "post_nbr.tif" "dnbr.tif" fs_two_grids
      = (Returns "dnbr.tif"%string, <["dnbr.tif"%string := dst]> fs_two_grids) ∧
    well_formed dst ∧
    width (profile dst) = 2%nat ∧
    height (profile dst) = 1%nat ∧
    crs (profile dst) = "EPSG:32611"%string ∧
    transform (profile dst) = north_up (binary64.of_Z 10) ∧
    nodata (profile dst) = None ∧
    driver (profile dst) = "GTiff"%string ∧
    dtype_of (profile dst) = float32 ∧
    count (profile dst) = 1%nat ∧
    compress (profile dst) = Some "lzw"%string.
Proof.
  apply (calculate_dnbr_takes_pre_profile fs_two_grids
           "pre_nbr.tif" "post_nbr.tif" "dnbr.tif"
           (mk_tif (sample_profile float32 2 1)
              (Float32Samples [half; S754_infinity false]))
           (mk_tif (other_profile 2 1)
              (Float32Samples [S754_nan; S754_infinity true]))
           [half; S754_infinity false] [S754_nan; S754_infinity true]);
    reflexivity.
Defined.

(** ** More on [classify_severity] *)

(** X6. A pixel of the class array is 0 exactly when its dNBR value is
    NaN: every other value, the infinities included, gets a class from
    1 to 7. *)
Theorem classified_zero_iff_nan (dnbr_array : ndarray spec_float) (i : nat)
    (v : spec_float) :
  data dnbr_array !! i = Some v →
  (data (classified_array dnbr_array) !! i = Some 0 ↔ isnan v = true) ∧
  (isnan v = false →
   ∃ c, data (classified_array dnbr_array) !! i = Some c ∧ 1 ≤ c ≤ 7).
Proof.
  intros Hi. rewrite (classified_array_lookup _ _ _ Hi).
  destruct (isnan v) eqn:En.
  - destruct v; try discriminate. split; [now split|discriminate].
  - destruct (class_of_cumulative v En) as [Hr _]. split.
    + split; [intros [= H0]; lia|discriminate].
    + intros _. eauto.
Qed.

Lemma classified_zero_iff_nan_witness :
  (data (classified_array
           (mk_ndarray (1, 2)%nat [S754_infinity true; S754_nan])) !! 0%nat
   = Some 0 ↔ isnan (S754_infinity true) = true) ∧
  (isnan (S754_infinity true) = false →
   ∃ c, data (classified_array
                (mk_ndarray (1, 2)%nat [S754_infinity true; S754_nan])) !! 0%nat
        = Some c ∧ 1 ≤ c ≤ 7).
Proof.
  apply (classified_zero_iff_nan _ 0%nat (S754_infinity true)). reflexivity.
Defined.

(** X7. [classify_severity] raises rasterio's I/O error for a missing dNBR
    file and leaves the file system as it was then; however it ends, it
    changes no path but its output path; and when it returns, it returns
    the output path and a dataset is there. *)
Theorem classify_severity_writes_only_output (fs : FS)
    (dnbr_tif_path output_classified_path : string) :
  (fs !! dnbr_tif_path = None →
   classify_severity dnbr_tif_path output_classified_path fs
   = (Raises (RasterioIOError dnbr_tif_path), fs)) ∧
  unchanged_except output_classified_path fs
    (classify_severity dnbr_tif_path output_classified_path fs).2 ∧
  (∀ r, (classify_severity dnbr_tif_path output_classified_path fs).1
        = Returns r →
        r = output_classified_path ∧
        is_Some ((classify_severity dnbr_tif_path output_classified_path
                    fs).2 !! output_classified_path)).
Proof.
  unfold classify_severity, mbind, io_bind, rasterio.open, unchanged_except.
  destruct (fs !! dnbr_tif_path) as [src|]; [|cbn; done].
  split; [discriminate|].
  destruct (read1 src) as [dnbr_array|a]; cbn; [|done].
  split; [intros q Hq; now apply lookup_insert_ne|].
  intros r [= <-]. split; [done|]. rewrite lookup_insert_eq. eauto.
Qed.

(** ** [calculate_dnbr] and [classify_severity] one after the other *)

Lemma dnbr_then_classify (fs : FS)
    (PRE_TIF POST_TIF OUTPUT_DNBR OUTPUT_CLASSIFIED : string)
    (src_pre src_post : GeoTiff) (l1 l2 : list spec_float) :
  fs !! PRE_TIF = Some src_pre →
  fs !! POST_TIF = Some src_post →
  band1 src_pre = Float32Samples l1 →
  band1 src_post = Float32Samples l2 →
  band_shape (read1 src_pre) = band_shape (read1 src_post) →
  let sh := (height (profile src_pre), width (profile src_pre)) in
  let d := dnbr (mk_ndarray (band_shape (read1 src_pre)) l1)
                (mk_ndarray (band_shape (read1 src_post)) l2) in
  let fs1 := <[OUTPUT_DNBR :=
                 mk_tif (profile_update (profile src_pre) float32 1 "lzw")
                   (Float32Samples (data d))]> fs in
  calculate_dnbr PRE_TIF POST_TIF OUTPUT_DNBR fs = (Returns OUTPUT_DNBR, fs1) ∧
  classify_severity OUTPUT_DNBR OUTPUT_CLASSIFIED fs1
  = (Returns OUTPUT_CLASSIFIED,
     <[OUTPUT_CLASSIFIED :=
         mk_tif (profile_update
                   (profile_update (profile src_pre) float32 1 "lzw")
                   uint8 1 "lzw")
           (UInt8Samples (class_of <$> data d))]> fs1).
Proof.
  intros Hpre Hpost B1 B2 Hsh sh d fs1.
  split; [exact (calculate_dnbr_returns _ _ _ _ _ _ _ _ Hpre Hpost B1 B2 Hsh)|].
  rewrite (classify_severity_returns fs1 OUTPUT_DNBR OUTPUT_CLASSIFIED
             (mk_tif (profile_update (profile src_pre) float32 1 "lzw")
                (Float32Samples (data d))) (data d));
    [|apply lookup_insert_eq|reflexivity].
  now rewrite classified_array_data.
Qed.

(** X8. Whenever [calculate_dnbr] on two float32 rasters of one shape and
    then [classify_severity] on its output return, no pixel is left
    unclassified: every class is in 1..7, whatever the two NBR rasters
    hold, and also when output paths coincide with input paths. *)
Theorem dnbr_then_classify_no_class_0 (fs fs1 fs2 : FS)
    (PRE_TIF POST_TIF OUTPUT_DNBR OUTPUT_CLASSIFIED : string)
    (src_pre src_post : GeoTiff) (l1 l2 : list spec_float)
    (dnbr_output_path classified_output_path : string) :
  fs !! PRE_TIF = Some src_pre →
  fs !! POST_TIF = Some src_post →
  band1 src_pre = Float32Samples l1 →
  band1 src_post = Float32Samples l2 →
  band_shape (read1 src_pre) = band_shape (read1 src_post) →
  calculate_dnbr PRE_TIF POST_TIF OUTPUT_DNBR fs
    = (Returns dnbr_output_path, fs1) →
  classify_severity dnbr_output_path OUTPUT_CLASSIFIED fs1
    = (Returns classified_output_path, fs2) →
  ∃ dst cls,
    fs2 !! OUTPUT_CLASSIFIED = Some dst ∧
    band1 dst = UInt8Samples cls ∧
    length cls = (length l1 `min` length l2)%nat ∧
    Forall is_class cls.
Proof.
  intros Hpre Hpost B1 B2 Hsh R1 R2.
  destruct (dnbr_then_classify fs PRE_TIF POST_TIF OUTPUT_DNBR OUTPUT_CLASSIFIED
              _ _ _ _ Hpre Hpost B1 B2 Hsh) as [H1 H2].
  assert (fs1 = <[OUTPUT_DNBR :=
                    mk_tif (profile_update (profile src_pre) float32 1 "lzw")
                      (Float32Samples
                         (data (dnbr (mk_ndarray (band_shape (read1 src_pre)) l1)
                                  (mk_ndarray (band_shape (read1 src_post)) l2))))]>
                  fs ∧ dnbr_output_path = OUTPUT_DNBR) as [-> ->]
    by (split; congruence).
  assert (fs2 = <[OUTPUT_CLASSIFIED :=
                    mk_tif (profile_update
                              (profile_update (profile src_pre) float32 1 "lzw")
                              uint8 1 "lzw")
                      (UInt8Samples
                         (class_of <$>
                          data (dnbr (mk_ndarray (band_shape (read1 src_pre)) l1)
                                  (mk_ndarray (band_shape (read1 src_post)) l2))))]>
                  (<[OUTPUT_DNBR :=
                       mk_tif (profile_update (profile src_pre) float32 1 "lzw")
                         (Float32Samples
                            (data (dnbr (mk_ndarray (band_shape (read1 src_pre)) l1)
                                     (mk_ndarray (band_shape (read1 src_post)) l2))))]>
                     fs)) as ->
    by congruence.
  eexists _, _. split; [apply lookup_insert_eq|]. split; [reflexivity|].
  split; [now rewrite length_fmap, dnbr_length|].
  apply Forall_fmap, Forall_lookup. intros i d Hd.
  pose proof (dnbr_pixel_not_nan _ _ i d Hd) as Hn.
  now destruct (class_of_cumulative d Hn) as [Hr _].
Qed.

Lemma dnbr_then_classify_no_class_0_witness :
  ∃ dst cls,
    (classify_severity "pre_nbr.tif" "pre_nbr.tif"
       (calculate_dnbr "pre_nbr.tif" "post_nbr.tif" "pre_nbr.tif"
          fs_two_grids).2).2 !! "pre_nbr.tif" = Some dst ∧
    band1 dst = UInt8Samples cls ∧
    length cls = (length [half; S754_infinity false]
                  `min` length [S754_nan; S754_infinity true])%nat ∧
    Forall is_class cls.
Proof.
  apply (dnbr_then_classify_no_class_0 fs_two_grids
           (calculate_dnbr "pre_nbr.tif" "post_nbr.tif" "pre_nbr.tif"
              fs_two_grids).2
           (classify_severity "pre_nbr.tif" "pre_nbr.tif"
              (calculate_dnbr "pre_nbr.tif" "post_nbr.tif" "pre_nbr.tif"
                 fs_two_grids).2).2
           "pre_nbr.tif" "post_nbr.tif" "pre_nbr.tif" "pre_nbr.tif"
           (mk_tif (sample_profile float32 2 1)
              (Float32Samples [half; S754_infinity false]))
           (mk_tif (other_profile 2 1)
              (Float32Samples [S754_nan; S754_infinity true]))
           [half; S754_infinity false] [S754_nan; S754_infinity true]
           "pre_nbr.tif" "pre_nbr.tif");
    reflexivity.
Defined.

(** X9. When the pre-fire and the post-fire raster hold the same samples -
    NaN and infinities included - the dNBR raster written is +0.0
    everywhere and the classified raster is class 3, "Unburned",
    everywhere. *)
Theorem unchanged_scene_is_unburned (fs : FS)
    (PRE_TIF POST_TIF OUTPUT_DNBR OUTPUT_CLASSIFIED : string)
    (src_pre src_post : GeoTiff) (l : list spec_float) :
  fs !! PRE_TIF = Some src_pre →
  fs !! POST_TIF = Some src_post →
  band1 src_pre = Float32Samples l →
  band1 src_post = Float32Samples l →
  band_shape (read1 src_pre) = band_shape (read1 src_post) →
  ∃ fs1 fs2 dnbr_tif dst,
    calculate_dnbr PRE_TIF POST_TIF OUTPUT_DNBR fs = (Returns OUTPUT_DNBR, fs1) ∧
    fs1 !! OUTPUT_DNBR = Some dnbr_tif ∧
    band1 dnbr_tif = Float32Samples (replicate (length l) (S754_zero false)) ∧
    classify_severity OUTPUT_DNBR OUTPUT_CLASSIFIED fs1
      = (Returns OUTPUT_CLASSIFIED, fs2) ∧
    fs2 !! OUTPUT_CLASSIFIED = Some dst ∧
    band1 dst = UInt8Samples (replicate (length l) 3) ∧
    class_labels !! 3 = Some "Unburned"%string.
Proof.
  intros Hpre Hpost B1 B2 Hsh.
  destruct (dnbr_then_classify fs PRE_TIF POST_TIF OUTPUT_DNBR OUTPUT_CLASSIFIED
              _ _ _ _ Hpre Hpost B1 B2 Hsh) as [H1 H2].
  rewrite dnbr_same_data in H1, H2.
  eexists _, _, _, _. split; [exact H1|].
  split; [apply lookup_insert_eq|]. split; [reflexivity|].
  split; [exact H2|]. split; [apply lookup_insert_eq|].
  split; [|reflexivity]. cbn [band1]. f_equal.
  now rewrite fmap_replicate.
Qed.

Lemma unchanged_scene_is_unburned_witness :
  ∃ fs1 fs2 dnbr_tif dst,
    calculate_dnbr "pre_nbr.tif" "pre_nbr.tif" "dnbr.tif" fs_two_grids
      = (Returns "dnbr.tif"%string, fs1) ∧
    fs1 !! "dnbr.tif" = Some dnbr_tif ∧
    band1 dnbr_tif
    = Float32Samples
        (replicate (length [half; S754_infinity false]) (S754_zero false)) ∧
    classify_severity "dnbr.tif" "classified.tif" fs1
      = (Returns "classified.tif"%string, fs2) ∧
    fs2 !! "classified.tif" = Some dst ∧
    band1 dst = UInt8Samples (replicate (length [half; S754_infinity false]) 3) ∧
    class_labels !! 3 = Some "Unburned"%string.
Proof.
  apply (unchanged_scene_is_unburned fs_two_grids
           "pre_nbr.tif" "pre_nbr.tif" "dnbr.tif" "classified.tif"
           (mk_tif (sample_profile float32 2 1)
              (Float32Samples [half; S754_infinity false]))
           (mk_tif (sample_profile float32 2 1)
              (Float32Samples [half; S754_infinity false])));
    reflexivity.
Defined.

(** ** [calculate_area]: the file system and the errors of the warp calls *)

Section calculate_area_effects.
Context {F : Type} {arith : PyFloat F}.
Variable bounds : Profile → BoundingBox.
Variable calculate_default_transform :
  string → string → nat → nat → BoundingBox → exn + (Affine.t F * nat * nat).
Variable reproject :
  ndarray Z → nat * nat → Affine.t spec_float → string →
  Affine.t F → string → Resampling → exn + ndarray Z.

(** X10. [calculate_area] writes nothing: however it ends - report, missing
    file, error of a warp call, band of another type - the file system is
    the one it started from. *)
Theorem calculate_area_never_writes (fs : FS) (classified_tif_path : string) :
  (calculate_area bounds calculate_default_transform reproject
     classified_tif_path fs).2 = fs.
Proof.
  unfold calculate_area, mbind, io_bind, rasterio.open.
  destruct (fs !! classified_tif_path) as [src|]; [|reflexivity].
  destruct (read1 src) as [a|a]; [reflexivity|].
  destruct (calculate_default_transform _ _ _ _ _) as [e|[[t w] h]];
    [reflexivity|].
  destruct (reproject _ _ _ _ _ _ _); reflexivity.
Qed.

(** X11. [calculate_area] has no handler: the exception of
    [calculate_default_transform], or of [reproject] when the transform
    was computed, is the exception of the call, and no report is
    returned - although the array that [reproject] fills is never read. *)
Theorem calculate_area_warp_error (fs : FS) (classified_tif_path : string)
    (src : GeoTiff) (pixels : list Z) (e : exn) :
  fs !! classified_tif_path = Some src →
  band1 src = UInt8Samples pixels →
  calculate_default_transform (crs (profile src)) "EPSG:3857"
    (width (profile src)) (height (profile src)) (bounds (profile src))
    = inl e
  ∨ (∃ transform' width' height',
       calculate_default_transform (crs (profile src)) "EPSG:3857"
         (width (profile src)) (height (profile src)) (bounds (profile src))
         = inr (transform', width', height') ∧
       reproject (mk_ndarray (height (profile src), width (profile src)) pixels)
         (height', width') (transform (profile src)) (crs (profile src))
         transform' "EPSG:3857" nearest
         = inl e) →
  calculate_area bounds calculate_default_transform reproject
    classified_tif_path fs
  = (Raises e, fs).
Proof.
  intros Hsrc B H. unfold calculate_area, mbind, io_bind, rasterio.open.
  rewrite Hsrc. unfold read1. rewrite B.
  destruct H as [Ht|(t & w & h & Ht & Hr)].
  - now rewrite Ht.
  - now rewrite Ht, Hr.
Qed.
End calculate_area_effects.

Lemma calculate_area_warp_error_witness :
  calculate_area (arith := binary64_float) sample_bounds
    (sample_default_transform (binary64.of_Z 6))
    (λ _ _ _ _ _ _ _, inl (CRSError "Invalid CRS"))
    "classified.tif" fs_five_classes
  = (Raises (CRSError "Invalid CRS"), fs_five_classes).
Proof.
  apply (calculate_area_warp_error sample_bounds
           (sample_default_transform (binary64.of_Z 6))
           (λ _ _ _ _ _ _ _, inl (CRSError "Invalid CRS"))
           fs_five_classes "classified.tif"
           (classified 5 1 [1; 2; 3; 4; 5]) [1; 2; 3; 4; 5]
           (CRSError "Invalid CRS"));
    [reflexivity|reflexivity|].
  right. eexists _, _, _. split; reflexivity.
Defined.

(** ** The report as a function of the class counts *)

Section area_stats_counts.
Context {F : Type} {arith : PyFloat F}.

(** X12. The report depends on the raster only through the numbers of
    pixels of the classes 1 to 7: two arrays with these seven counts in
    common - of any shapes, in any pixel order, with any other values
    besides - get the same report. *)
Theorem area_stats_counts_only (a1 a2 : ndarray Z) (pixel_area_m2 : F) :
  (∀ k, is_class k → count_of k (data a1) = count_of k (data a2)) →
  area_stats a1 pixel_area_m2 = area_stats a2 pixel_area_m2.
Proof.
  intros Hc. apply map_eq. intros key.
  destruct (decide (key = "Total_Analyzed_Area"%string)) as [->|Hk].
  - rewrite !area_stats_total. unfold total_area_m2. cbn [foldl].
    now rewrite !Hc by (unfold is_class; lia).
  - destruct (class_labels_dec key) as [[k Hl]|Hn].
    + rewrite !(area_stats_class _ _ k key Hl).
      now rewrite Hc by (apply (class_labels_range _ _ Hl)).
    + now rewrite !area_stats_other.
Qed.
End area_stats_counts.

Lemma area_stats_counts_only_witness :
  area_stats (arith := binary64_float)
    (mk_ndarray (2, 3)%nat [0; 3; 7; 7; 0; 3]) (binary64.of_Z 36)
  = area_stats (mk_ndarray (1, 5)%nat [7; 3; 3; 200; 7]) (binary64.of_Z 36).
Proof.
  apply (area_stats_counts_only (arith := binary64_float)
           (mk_ndarray (2, 3)%nat [0; 3; 7; 7; 0; 3])
           (mk_ndarray (1, 5)%nat [7; 3; 3; 200; 7]) (binary64.of_Z 36)).
  intros k [H1 H7].
  assert (k = 1 ∨ k = 2 ∨ k = 3 ∨ k = 4 ∨ k = 5 ∨ k = 6 ∨ k = 7)
    as [->|[->|[->|[->|[->|[->| ->]]]]]] by lia; reflexivity.
Defined.

(** ** The whole analysis *)

Lemma filter_Forall_length {A} (P : A → Prop) `{!∀ x, Decision (P x)}
    (l : list A) :
  Forall P l → length (filter P l) = length l.
Proof.
  induction 1 as [|x l Hx _ IH]; [reflexivity|].
  rewrite filter_cons. destruct (decide (P x)); [|done]. cbn. now rewrite IH.
Qed.

Lemma dnbr_classes (pre_nbr post_nbr : ndarray spec_float) :
  Forall is_class (class_of <$> data (dnbr pre_nbr post_nbr)).
Proof.
  apply Forall_fmap, Forall_lookup. intros i d Hd.
  apply dnbr_pixel_not_nan in Hd.
  now destruct (class_of_cumulative d Hd) as [Hr _].
Qed.

Section analysis_binary64.
Variable bounds : Profile → BoundingBox.
Variable calculate_default_transform :
  string → string → nat → nat → BoundingBox →
  exn + (Affine.t spec_float * nat * nat).
Variable reproject :
  ndarray Z → nat * nat → Affine.t spec_float → string →
  Affine.t spec_float → string → Resampling → exn + ndarray Z.

(** X13. The three calls one after the other, as the tests run them:
    whenever the analysis of two float32 rasters of one shape returns a
    report, its total is the area of all the pixels of the dNBR raster -
    no pixel is left out as unclassified, whatever the rasters hold -
    rounded to two decimals: within 0.005 ha, and 0.00001 ha of binary64
    rounding error, of the number of pixels times the pixel area over
    10000; and the file system holds the two outputs.  The raster has
    at most 2^63 pixels and 10^12 square metres, of a pixel area that
    is a finite float and not negative. *)
Theorem analysis_total_is_raster_area (fs fs' : FS)
    (PRE_TIF POST_TIF OUTPUT_DNBR OUTPUT_CLASSIFIED : string)
    (src_pre src_post : GeoTiff) (l1 l2 : list spec_float)
    (transform' : Affine.t spec_float) (width' height' : nat)
    (reprojected_array : ndarray Z)
    (report : gmap string (area_entry spec_float)) :
  let p := profile_update (profile_update (profile src_pre) float32 1 "lzw")
             uint8 1 "lzw" in
  let d := dnbr (mk_ndarray (band_shape (read1 src_pre)) l1)
                (mk_ndarray (band_shape (read1 src_post)) l2) in
  let pixel_area_m2 :=
    binary64.mul (Affine.a transform') (SFabs (Affine.e transform')) in
  let pixels := Z.of_nat (length l1 `min` length l2) in
  fs !! PRE_TIF = Some src_pre →
  fs !! POST_TIF = Some src_post →
  band1 src_pre = Float32Samples l1 →
  band1 src_post = Float32Samples l2 →
  band_shape (read1 src_pre) = band_shape (read1 src_post) →
  calculate_default_transform (crs p) "EPSG:3857" (width p) (height p)
    (bounds p) = inr (transform', width', height') →
  reproject (mk_ndarray (height p, width p) (class_of <$> data d))
    (height', width') (transform p) (crs p) transform' "EPSG:3857" nearest
    = inr reprojected_array →
  nonneg_finite pixel_area_m2 = true →
  pixels ≤ 2 ^ 63 →
  (inject_Z pixels * SF2Q pixel_area_m2 <= 1000000000000 # 1)%Q →
  analysis (arith := binary64_float) bounds calculate_default_transform
    reproject PRE_TIF POST_TIF OUTPUT_DNBR OUTPUT_CLASSIFIED fs
  = (Returns report, fs') →
  ∃ total,
    report !! "Total_Analyzed_Area" = Some (mk_entry None total) ∧
    nonneg_finite total = true ∧
    (Qabs (SF2Q total - inject_Z pixels * SF2Q pixel_area_m2 * (1 # 10000))
     <= (5 # 1000) + (1 # 100000))%Q ∧
    is_Some (fs' !! OUTPUT_DNBR) ∧ is_Some (fs' !! OUTPUT_CLASSIFIED).
Proof.
  intros p d pa pixels Hpre Hpost B1 B2 Hsh Ht Hr Npa H63 HA Hrun.
  destruct (dnbr_then_classify fs PRE_TIF POST_TIF OUTPUT_DNBR OUTPUT_CLASSIFIED
              _ _ _ _ Hpre Hpost B1 B2 Hsh) as [H1 H2].
  fold p d in H1, H2.
  unfold analysis, mbind, io_bind in Hrun. rewrite H1 in Hrun.
  cbv beta iota in Hrun. rewrite H2 in Hrun. cbv beta iota in Hrun.
  rewrite (calculate_area_returns (arith := binary64_float)
             bounds calculate_default_transform reproject
             _ OUTPUT_CLASSIFIED (mk_tif p (UInt8Samples (class_of <$> data d)))
             (class_of <$> data d) transform' width' height' reprojected_array)
    in Hrun; [|apply lookup_insert_eq|reflexivity|exact Ht|exact Hr].
  injection Hrun as <- <-.
  assert (Hlen : length (class_of <$> data d) = (length l1 `min` length l2)%nat).
  { rewrite length_fmap. unfold d. now rewrite dnbr_length. }
  destruct (area_stats_errors
              (mk_ndarray (height (profile (mk_tif p (UInt8Samples (class_of <$> data d)))),
                           width (profile (mk_tif p (UInt8Samples (class_of <$> data d)))))
                 (class_of <$> data d)) pa Npa)
    as (total & Htot & Hfin & _ & _ & Herr).
  { cbn [data]. rewrite Hlen. exact H63. }
  { cbn [data]. rewrite Hlen. exact HA. }
  cbn [data] in Herr.
  assert (Hf : length (filter is_class (class_of <$> data d))
               = length (class_of <$> data d))
    by apply filter_Forall_length, dnbr_classes.
  rewrite Hf, Hlen in Herr.
  exists total. split; [exact Htot|].
  split; [now apply Forall_cons_1 in Hfin as [? _]|].
  split; [exact Herr|]. split.
  - destruct (decide (OUTPUT_DNBR = OUTPUT_CLASSIFIED)) as [->|Hne].
    + rewrite lookup_insert_eq. eauto.
    + rewrite lookup_insert_ne, lookup_insert_eq by done. eauto.
  - rewrite lookup_insert_eq. eauto.
Qed.
End analysis_binary64.

Lemma analysis_total_is_raster_area_witness :
  ∃ total,
    area_stats (arith := binary64_float) (mk_ndarray (1, 2)%nat [6; 7])
      (binary64.mul (binary64.of_Z 10) (SFabs (SFopp (binary64.of_Z 10))))
      !! "Total_Analyzed_Area" = Some (mk_entry None total) ∧
    nonneg_finite total = true ∧
    (Qabs (SF2Q total
           - inject_Z (Z.of_nat (length [half; S754_infinity false]
                                 `min` length [S754_nan; S754_infinity true]))
             * SF2Q (binary64.mul (binary64.of_Z 10)
                       (SFabs (SFopp (binary64.of_Z 10))))
             * (1 # 10000))
     <= (5 # 1000) + (1 # 100000))%Q ∧
    is_Some ((analysis (arith := binary64_float) sample_bounds
                (sample_default_transform (binary64.of_Z 10)) sample_reproject
                "pre_nbr.tif" "post_nbr.tif" "dnbr.tif" "classified.tif"
                fs_two_grids).2 !! "dnbr.tif") ∧
    is_Some ((analysis (arith := binary64_float) sample_bounds
                (sample_default_transform (binary64.of_Z 10)) sample_reproject
                "pre_nbr.tif" "post_nbr.tif" "dnbr.tif" "classified.tif"
                fs_two_grids).2 !! "classified.tif").
Proof.
  apply (analysis_total_is_raster_area sample_bounds
           (sample_default_transform (binary64.of_Z 10)) sample_reproject
           fs_two_grids
           (analysis (arith := binary64_float) sample_bounds
              (sample_default_transform (binary64.of_Z 10)) sample_reproject
              "pre_nbr.tif" "post_nbr.tif" "dnbr.tif" "classified.tif"
              fs_two_grids).2
           "pre_nbr.tif" "post_nbr.tif" "dnbr.tif" "classified.tif"
           (mk_tif (sample_profile float32 2 1)
              (Float32Samples [half; S754_infinity false]))
           (mk_tif (other_profile 2 1)
              (Float32Samples [S754_nan; S754_infinity true]))
           [half; S754_infinity false] [S754_nan; S754_infinity true]
           (north_up (binary64.of_Z 10)) 2 1
           (mk_ndarray (1, 2)%nat [6; 7])
           (area_stats (arith := binary64_float) (mk_ndarray (1, 2)%nat [6; 7])
              (binary64.mul (binary64.of_Z 10)
                 (SFabs (SFopp (binary64.of_Z 10))))));
    [reflexivity | reflexivity | reflexivity | reflexivity | reflexivity
    | reflexivity | reflexivity | reflexivity | vm_compute; discriminate
    | vm_compute; discriminate | reflexivity].
Defined.

(** ** The fixture of [test_analysis.py] *)

Lemma calculate_dnbr_inv (fs fs' : FS) (pre_fire_path post_fire_path
    output_dnbr_path : string) (r : outcome string) :
  calculate_dnbr pre_fire_path post_fire_path output_dnbr_path fs = (r, fs') →
  (∃ dst, r = Returns output_dnbr_path ∧ fs' = <[output_dnbr_path := dst]> fs)
  ∨ ((∀ x, r ≠ Returns x) ∧ fs' = fs).
Proof.
  unfold calculate_dnbr, mbind, io_bind, rasterio.open.
  destruct (fs !! pre_fire_path) as [src_pre|];
    [|intros [= <- <-]; now right].
  destruct (fs !! post_fire_path) as [src_post|];
    [|intros [= <- <-]; now right].
  destruct (decide _) as [?|?]; [intros [= <- <-]; now right|].
  destruct (read1 src_pre) as [pre_nbr|pre_nbr],
           (read1 src_post) as [post_nbr|post_nbr];
    intros [= <- <-]; try (now right).
  left. eauto.
Qed.

Lemma classify_severity_inv (fs fs' : FS) (dnbr_tif_path
    output_classified_path : string) (r : outcome string) :
  classify_severity dnbr_tif_path output_classified_path fs = (r, fs') →
  (∃ dst, r = Returns output_classified_path ∧
          fs' = <[output_classified_path := dst]> fs)
  ∨ ((∀ x, r ≠ Returns x) ∧ fs' = fs).
Proof.
  unfold classify_severity, mbind, io_bind, rasterio.open.
  destruct (fs !! dnbr_tif_path) as [src|]; [|intros [= <- <-]; now right].
  destruct (read1 src) as [a|a]; intros [= <- <-]; [|now right].
  left. eauto.
Qed.

Lemma os_path_exists_insert (path q : string) (x : GeoTiff) (fs : FS) :
  os_path_exists path (<[q := x]> fs)
  = bool_decide (path = q) || os_path_exists path fs.
Proof.
  unfold os_path_exists. destruct (decide (path = q)) as [->|Hne].
  - rewrite lookup_insert_eq, (bool_decide_eq_true_2 (q = q)) by done.
    apply bool_decide_eq_true_2. eauto.
  - rewrite lookup_insert_ne by done.
    now rewrite (bool_decide_eq_false_2 (path = q)).
Qed.

Lemma os_path_exists_None (path : string) (fs : FS) :
  fs !! path = None → os_path_exists path fs = false.
Proof.
  intros H. unfold os_path_exists. rewrite H.
  apply bool_decide_eq_false_2. now intros [? ?].
Qed.

Section fixture_spec.
Variables PRE_TIF POST_TIF OUTPUT_DNBR OUTPUT_CLASSIFIED : string.

(** X14. The two assertions of the fixture after the calls cannot fail: an
    assertion of [setup_files] fails exactly when an input file is
    missing.  Once [calculate_dnbr] and [classify_severity] have
    returned, both output files exist - also when the two output paths
    are one. *)
Theorem setup_files_assertions (fs : FS) :
  (setup_files PRE_TIF POST_TIF OUTPUT_DNBR OUTPUT_CLASSIFIED fs).1
    = AssertionFails
  ↔ fs !! PRE_TIF = None ∨ fs !! POST_TIF = None.
Proof.
  unfold setup_files, os_path_exists.
  destruct (fs !! PRE_TIF) as [src_pre|] eqn:Epre;
    [|rewrite bool_decide_eq_false_2 by (now intros [? ?]); cbn; split; auto].
  rewrite bool_decide_eq_true_2 by eauto. cbn [negb].
  destruct (fs !! POST_TIF) as [src_post|] eqn:Epost;
    [|rewrite bool_decide_eq_false_2 by (now intros [? ?]); cbn; split; auto].
  rewrite bool_decide_eq_true_2 by eauto. cbn [negb].
  split; [|now intros [?|?]]. intros H. exfalso. revert H.
  destruct (calculate_dnbr PRE_TIF POST_TIF OUTPUT_DNBR fs) as [r1 fs1] eqn:E1.
  apply calculate_dnbr_inv in E1 as [(d & -> & ->)|[Hr ->]];
    [|destruct r1; try done; now destruct (Hr x)].
  destruct (classify_severity _ _ _) as [r2 fs2] eqn:E2.
  apply classify_severity_inv in E2 as [(c & -> & ->)|[Hr ->]];
    [|destruct r2; try done; now destruct (Hr x)].
  fold (os_path_exists OUTPUT_DNBR
          (<[OUTPUT_CLASSIFIED:=c]> (<[OUTPUT_DNBR:=d]> fs))).
  fold (os_path_exists OUTPUT_CLASSIFIED
          (<[OUTPUT_CLASSIFIED:=c]> (<[OUTPUT_DNBR:=d]> fs))).
  rewrite !os_path_exists_insert.
  rewrite (bool_decide_eq_true_2 (OUTPUT_DNBR = OUTPUT_DNBR)),
    (bool_decide_eq_true_2 (OUTPUT_CLASSIFIED = OUTPUT_CLASSIFIED)) by done.
  rewrite orb_true_r. cbn. discriminate.
Qed.

(** X15. Set-up and clean-up are a round trip: when neither output path
    exists beforehand and the set-up reaches its [yield], the clean-up
    passes its two closing assertions and leaves the file system exactly
    as it was before the set-up - also when the two output paths are
    one. *)
Theorem cleanup_undoes_setup (fs : FS) (dnbr_path classified_path : string) :
  fs !! OUTPUT_DNBR = None →
  fs !! OUTPUT_CLASSIFIED = None →
  (setup_files PRE_TIF POST_TIF OUTPUT_DNBR OUTPUT_CLASSIFIED fs).1
    = Yields dnbr_path classified_path →
  dnbr_path = OUTPUT_DNBR ∧ classified_path = OUTPUT_CLASSIFIED ∧
  cleanup OUTPUT_DNBR OUTPUT_CLASSIFIED
    (setup_files PRE_TIF POST_TIF OUTPUT_DNBR OUTPUT_CLASSIFIED fs).2
  = (true, fs).
Proof.
  intros Hd Hc. unfold setup_files.
  destruct (negb (os_path_exists PRE_TIF fs)); [discriminate|].
  destruct (negb (os_path_exists POST_TIF fs)); [discriminate|].
  destruct (calculate_dnbr PRE_TIF POST_TIF OUTPUT_DNBR fs) as [r1 fs1] eqn:E1.
  apply calculate_dnbr_inv in E1 as [(d & -> & ->)|[Hr ->]];
    [|destruct r1; try done; now destruct (Hr x)].
  destruct (classify_severity _ _ _) as [r2 fs2] eqn:E2.
  apply classify_severity_inv in E2 as [(c & -> & ->)|[Hr ->]];
    [|destruct r2; try done; now destruct (Hr x)].
  rewrite !os_path_exists_insert.
  rewrite (bool_decide_eq_true_2 (OUTPUT_DNBR = OUTPUT_DNBR)),
    (bool_decide_eq_true_2 (OUTPUT_CLASSIFIED = OUTPUT_CLASSIFIED)) by done.
  rewrite orb_true_r. cbn [negb orb fst snd]. intros [= <- <-].
  split; [done|]. split; [done|].
  unfold cleanup, os_remove.
  rewrite !os_path_exists_insert,
    (bool_decide_eq_true_2 (OUTPUT_DNBR = OUTPUT_DNBR)) by done.
  rewrite orb_true_r.
  destruct (decide (OUTPUT_CLASSIFIED = OUTPUT_DNBR)) as [E|Hne].
  - rewrite E, insert_insert_eq, delete_insert_eq, delete_id by done.
    now rewrite !(os_path_exists_None _ _ Hd).
  - rewrite delete_insert_ne, delete_insert_eq, delete_id by done.
    rewrite os_path_exists_insert,
      (bool_decide_eq_true_2 (OUTPUT_CLASSIFIED = OUTPUT_CLASSIFIED)) by done.
    cbn [orb]. rewrite delete_insert_eq, delete_id by done.
    now rewrite (os_path_exists_None _ _ Hd), (os_path_exists_None _ _ Hc).
Qed.
End fixture_spec.

Lemma cleanup_undoes_setup_witness :
  "dnbr.tif"%string = "dnbr.tif"%string ∧
  "classified.tif"%string = "classified.tif"%string ∧
  cleanup "dnbr.tif" "classified.tif"
    (setup_files "pre_nbr.tif" "post_nbr.tif" "dnbr.tif" "classified.tif"
       fs_two_grids).2
  = (true, fs_two_grids).
Proof.
  apply (cleanup_undoes_setup "pre_nbr.tif" "post_nbr.tif"
           "dnbr.tif" "classified.tif" fs_two_grids
           "dnbr.tif" "classified.tif");
    reflexivity.
Defined.

(** ** [_maskS2clouds] *)

Lemma land_bit_zero (a n : Z) :
  0 ≤ n → Z.land a (Z.shiftl 1 n) = 0 ↔ Z.testbit a n = false.
Proof.
  intros Hn. rewrite Z.shiftl_1_l. split.
  - intros H. apply (f_equal (λ z, Z.testbit z n)) in H.
    rewrite Z.land_spec, Z.pow2_bits_true, Z.bits_0 in H by done.
    now rewrite andb_true_r in H.
  - intros H. apply Z.bits_inj'. intros m Hm.
    rewrite Z.land_spec, Z.bits_0, Z.pow2_bits_eqb by done.
    destruct (Z.eqb_spec n m) as [->|_]; [now rewrite H|apply andb_false_r].
Qed.

Section maskS2clouds_bits.
Context {V : Type}.
Variable divide : Z → Z → V.

(** X16. A pixel is unmasked after [_maskS2clouds] exactly when it was
    unmasked before and bits 10 (clouds) and 11 (cirrus) of its QA60
    value are both clear; the other bits of QA60 play no part.  Every
    band value, masked or not, is divided by 10000 - QA60 too, after the
    mask was taken from its undivided value. *)
Theorem maskS2clouds_spec (image : s2_pixel Z) :
  (unmasked (_maskS2clouds divide image) = true
   ↔ unmasked image = true ∧
     Z.testbit (QA60 image) 10 = false ∧ Z.testbit (QA60 image) 11 = false) ∧
  QA60 (_maskS2clouds divide image) = divide (QA60 image) 10000 ∧
  bands (_maskS2clouds divide image)
  = (λ v, divide v 10000) <$> bands image.
Proof.
  split; [|split; reflexivity].
  unfold _maskS2clouds, ee.updateMask, ee.And, ee.eq, ee.bitwiseAnd.
  cbn [unmasked QA60 bands].
  rewrite <- (land_bit_zero (QA60 image) 10), <- (land_bit_zero (QA60 image) 11)
    by done.
  rewrite andb_true_iff.
  destruct (Z.eqb_spec (Z.land (QA60 image) (Z.shiftl 1 10)) 0) as [E1|E1];
    destruct (Z.eqb_spec (Z.land (QA60 image) (Z.shiftl 1 11)) 0) as [E2|E2];
    cbn; intuition congruence.
Qed.
End maskS2clouds_bits.
